(** * Translation relay service: a shallow embedding of [server.js]

    The development follows the layout of the server: the telephony codec
    ([mulawToLinear], [linearToMulaw] and the two buffer converters), the
    per-stream audio accumulator ([processAudioForTranslation]), the
    translation pipeline ([translateAndForwardAudio]) with the speech
    services as an external world, the stream table ([activeStreams]) and
    the session table ([activeSessions]) with its webhooks and the delayed
    clean-up timer. *)

From Stdlib Require Import ZArith Lia List Strings.Byte Ascii String.
From stdpp Require Import gmap strings list fin_maps.

(** ** JavaScript numbers restricted to the integers the server computes with

    Bitwise operators first convert their operands with ToInt32 (and the
    shift count with [& 31]); the result is again a signed 32-bit integer. *)
Module JS.
Local Open Scope Z_scope.

Definition ToInt32 (z : Z) : Z := (z + 2 ^ 31) mod 2 ^ 32 - 2 ^ 31.

(** A store into a [Buffer] (a [Uint8Array]) keeps the low eight bits. *)
Definition ToUint8 (z : Z) : Z := z mod 256.

Definition band (a b : Z) : Z := Z.land (ToInt32 a) (ToInt32 b).
Definition bor (a b : Z) : Z := Z.lor (ToInt32 a) (ToInt32 b).
Definition shl (a n : Z) : Z := ToInt32 (Z.shiftl (ToInt32 a) (n mod 32)).
Definition sar (a n : Z) : Z := Z.shiftr (ToInt32 a) (n mod 32).
Definition bnot (a : Z) : Z := Z.lnot (ToInt32 a).

End JS.

(** ** Buffers

    A Node [Buffer] is a sequence of bytes. *)
Abbreviation Buffer := (list byte).

Definition byte_to_Z (b : byte) : Z := Z.of_N (Byte.to_N b).

Definition byte_of_Z (z : Z) : byte :=
  match Byte.of_N (Z.to_N (JS.ToUint8 z)) with
  | Some b => b
  | None => x00
  end.

(** ** The telephony codec *)
Module Codec.
Local Open Scope Z_scope.
Import JS.

Definition bias : Z := 0x84.

(** [function mulawToLinear(mulaw)]; the negative zero it returns for 0x80
    is the integer 0 to everything that reads it. *)
Definition mulawToLinear (mulaw : Z) : Z :=
  let sign := band mulaw 0x80 in
  let exponent := band (sar mulaw 4) 0x07 in
  let mantissa := band mulaw 0x0F in
  let sample := shl mantissa (exponent + 3) in
  let sample := if exponent =? 0 then sample else sample + shl bias exponent in
  if sign =? 0 then sample else - sample.

(** The bit window tested for [exp] by the encoder's loop. *)
Definition window (exp : Z) : Z := shl 0x1F (exp + 3).

(** [for (let exp = 0; exp < 8; exp++) { if (sample <= window) { exponent =
    exp; break; } }], started with [exponent] holding its initial value. *)
Fixpoint exponent_loop (fuel : nat) (exp sample exponent : Z) : Z :=
  match fuel with
  | O => exponent
  | S fuel' =>
      if exp <? 8 then
        if sample <=? window exp then exp
        else exponent_loop fuel' (exp + 1) sample exponent
      else exponent
  end.

(** The value the encoder complements: [sign | (exponent << 4) | mantissa]. *)
Definition packed (linear : Z) : Z :=
  let sample := Z.abs linear in
  let sign := if linear <? 0 then 0x80 else 0 in
  let sample := sample + bias in
  let exponent := exponent_loop 8 0 sample 7 in
  let mantissa := band (sar sample (exponent + 3)) 0x0F in
  bor (bor sign (shl exponent 4)) mantissa.

(** [function linearToMulaw(linear)] *)
Definition linearToMulaw (linear : Z) : Z := bnot (packed linear).

(** [buf.writeInt16LE(value, offset)] refuses a value outside the signed
    16-bit range with a RangeError. *)
Definition writeInt16LE (value : Z) : option (byte * byte) :=
  if (-32768 <=? value) && (value <=? 32767)
  then Some (byte_of_Z value, byte_of_Z (Z.shiftr value 8))
  else None.

(** [buf.readInt16LE(offset)] on the two bytes at that offset. *)
Definition readInt16LE (lo hi : byte) : Z :=
  let u := byte_to_Z lo + 256 * byte_to_Z hi in
  if u <? 32768 then u else u - 65536.

(** [async function convertMulawToWav(mulawData)]: [None] when a write
    throws (the promise rejects). *)
Fixpoint convertMulawToWav (mulawData : Buffer) : option Buffer :=
  match mulawData with
  | [] => Some []
  | sample :: rest =>
      match writeInt16LE (mulawToLinear (byte_to_Z sample)) with
      | None => None
      | Some (lo, hi) =>
          match convertMulawToWav rest with
          | None => None
          | Some wav => Some (lo :: hi :: wav)
          end
      end
  end.

(** [async function convertWavToMulaw(wavData)]: the output has
    [floor(length / 2)] bytes, so a trailing odd byte is never read. *)
Fixpoint convertWavToMulaw (wavData : Buffer) : Buffer :=
  match wavData with
  | lo :: hi :: rest =>
      byte_of_Z (linearToMulaw (readInt16LE lo hi)) :: convertWavToMulaw rest
  | _ => []
  end.

End Codec.


(** ** Strings as the server uses them *)
Module Str.

(** Template literals print [null] and [undefined] by name. *)
Definition of_nullable (o : option string) : string := default "null" o.

(** JavaScript truthiness of an optional string: absent and empty are
    falsy. *)
Definition truthy (o : option string) : bool :=
  match o with
  | Some s => negb (String.eqb s "")
  | None => false
  end.

(** Strings hold text in the UTF-8 encoding: a character above U+007F is
    a sequence of two or three 8-bit characters (the code points that
    matter here are all below U+10000). *)
Definition utf8 (cp : N) : list ascii :=
  let continuation (n : N) := ascii_of_N (128 + n mod 64)%N in
  if (cp <? 128)%N then [ascii_of_N cp]
  else if (cp <? 2048)%N then
    [ascii_of_N (192 + cp / 64)%N; continuation cp]
  else
    [ascii_of_N (224 + cp / 4096)%N; continuation (cp / 64)%N;
     continuation cp].

(** [String.fromCodePoint(...codes)] *)
Definition fromCodePoint (codes : list N) : string :=
  string_of_list_ascii (concat (map utf8 codes)).

(** The code points that [String.prototype.trim] removes: the WhiteSpace
    and LineTerminator productions of ECMAScript (tab, line feed, vertical
    tab, form feed, carriage return, space, no-break space, the space
    separators of Unicode, line and paragraph separator, and the byte
    order mark). *)
Definition WhiteSpace : list N :=
  [ 0x0009; 0x000A; 0x000B; 0x000C; 0x000D; 0x0020; 0x00A0; 0x1680;
    0x2000; 0x2001; 0x2002; 0x2003; 0x2004; 0x2005; 0x2006; 0x2007;
    0x2008; 0x2009; 0x200A; 0x2028; 0x2029; 0x202F; 0x205F; 0x3000;
    0xFEFF ]%N.

(** The rest of [s] after [pattern], when [s] starts with it. *)
Fixpoint strip (pattern s : list ascii) : option (list ascii) :=
  match pattern, s with
  | [], _ => Some s
  | p :: pattern', c :: s' =>
      if Ascii.eqb p c then strip pattern' s' else None
  | _ :: _, [] => None
  end.

Fixpoint strip_any (patterns : list (list ascii)) (s : list ascii)
  : option (list ascii) :=
  match patterns with
  | [] => None
  | pattern :: more =>
      match strip pattern s with
      | Some rest => Some rest
      | None => strip_any more s
      end
  end.

(** Drops leading occurrences of the patterns; [fuel] bounds the number
    of characters dropped and the length of [s] is always enough. *)
Fixpoint drop_leading (patterns : list (list ascii)) (fuel : nat)
    (s : list ascii) : list ascii :=
  match fuel with
  | O => s
  | S fuel' =>
      match strip_any patterns s with
      | Some rest => drop_leading patterns fuel' rest
      | None => s
      end
  end.

Definition trimStart (s : list ascii) : list ascii :=
  drop_leading (map utf8 WhiteSpace) (length s) s.

(** A UTF-8 sequence is never the tail of another one, so white space at
    the end is found by reading the text backwards. *)
Definition trimEnd (s : list ascii) : list ascii :=
  rev (drop_leading (map (fun cp => rev (utf8 cp)) WhiteSpace)
         (length s) (rev s)).

(** [s.trim()] *)
Definition trim (s : string) : string :=
  string_of_list_ascii (trimEnd (trimStart (list_ascii_of_string s))).

(** [s.startsWith(prefix)] *)
Definition startsWith (prefix s : string) : bool := String.prefix prefix s.

End Str.

(** ** Data model *)

(** [AUDIO_CONFIG.chunkSize] *)
Definition chunkSize : nat := 1600.

(** The values ever assigned to [session.status]. *)
Inductive Status : Type :=
  | created | phone_calling | phone_answered | call_ended
  | web_joining | web_joined | phone_in_conference
  | conference_active | conference_ended.

#[global] Instance Status_eq_dec : EqDecision Status.
Proof. solve_decision. Defined.

Record Languages : Type := mkLanguages {
  phone : string;
  web : string
}.

Record Participant : Type := mkParticipant {
  p_callSid : option string;
  p_from : option string;
  p_to : option string;
  joinedAt : Z;
  leftAt : option Z
}.

(** The object stored in [activeSessions]. [createdAt] is the instant the
    ISO string denotes, in milliseconds. *)
Record Session : Type := mkSession {
  sessionId : string;
  conferenceId : string;
  phoneNumber : string;
  languages : Languages;
  status : Status;
  createdAt : Z;
  callSid : option string;
  lastCallStatus : option string;
  lastStatusUpdate : option Z;
  participants : gmap string Participant;
  audioBuffers : gmap string Buffer
}.

Definition set_status (v : Status) (s : Session) : Session :=
  mkSession (sessionId s) (conferenceId s) (phoneNumber s) (languages s) v
            (createdAt s) (callSid s) (lastCallStatus s) (lastStatusUpdate s)
            (participants s) (audioBuffers s).

Definition set_callSid (v : option string) (s : Session) : Session :=
  mkSession (sessionId s) (conferenceId s) (phoneNumber s) (languages s)
            (status s) (createdAt s) v (lastCallStatus s) (lastStatusUpdate s)
            (participants s) (audioBuffers s).

Definition set_lastCall (v : option string) (t : Z) (s : Session) : Session :=
  mkSession (sessionId s) (conferenceId s) (phoneNumber s) (languages s)
            (status s) (createdAt s) (callSid s) v (Some t)
            (participants s) (audioBuffers s).

Definition set_participants (v : gmap string Participant) (s : Session) : Session :=
  mkSession (sessionId s) (conferenceId s) (phoneNumber s) (languages s)
            (status s) (createdAt s) (callSid s) (lastCallStatus s)
            (lastStatusUpdate s) v (audioBuffers s).

Definition set_audioBuffers (v : gmap string Buffer) (s : Session) : Session :=
  mkSession (sessionId s) (conferenceId s) (phoneNumber s) (languages s)
            (status s) (createdAt s) (callSid s) (lastCallStatus s)
            (lastStatusUpdate s) (participants s) v.

(** Session objects are shared: the session table, the closures of a media
    stream and the webhooks all hold the same object.  Objects live in a
    heap and are named by their index in it. *)
Abbreviation ref := nat (only parsing).

(** A WebSocket is named by a number; its [readyState] belongs to the
    outside world. *)
Abbreviation socket := nat (only parsing).

(** The value stored in [activeStreams]. *)
Record StreamHandle : Type := mkStreamHandle {
  h_ws : socket;
  h_participant : option string;
  h_sessionId : string
}.

(** What a media-stream connection's listeners have captured. *)
Record Connection : Type := mkConnection {
  c_session : ref;
  c_participant : option string;
  c_streamKey : string;
  c_streamSid : option string
}.

(** A pending [setTimeout] of the conference-end handler: when it is due and
    the session id its callback deletes. *)
Record Timer : Type := mkTimer {
  due : Z;
  doomed : string
}.

(** The outbound media message; [payload] is the audio that the message
    carries base64-encoded. *)
Record MediaMessage : Type := mkMediaMessage {
  out_event : string;
  out_streamSid : string;
  out_payload : Buffer
}.

(** An inbound media-stream message after [JSON.parse]; [in_media] is the
    decoded payload of [msg.media], absent when the message has none. *)
Record StreamMessage : Type := mkStreamMessage {
  in_event : string;
  in_streamSid : option string;
  in_media : option Buffer
}.

(** What leaves the server's own tables, in the order it happens: the
    calls to the services and to the sockets, and a [leftAt] stored on an
    object that is no participant of any session ([LeftAtWritten] names
    the property through which the object was reached). *)
Inductive Event : Type :=
  | Transcribe (wav : Buffer) (language : string)
  | Translate (text fromLang toLang : string)
  | Synthesize (text language : string)
  | WsSend (ws : socket) (msg : MediaMessage)
  | WsClose (ws : socket)
  | LeftAtWritten (property : string) (t : Z).

(** The frames that entered the pipeline of a bilingual session show as
    its transcription calls. *)
Definition is_Transcribe (e : Event) : bool :=
  match e with
  | Transcribe _ _ => true
  | _ => false
  end.

(** The verbs of a TwiML response. *)
Inductive Verb : Type :=
  | Say (text : string)
  | Hangup
  | ConnectStream (url : string)
  | DialConference (name : string) (statusCallback : string).

(** The parts of a webhook request the handlers read. *)
Record Request : Type := mkRequest {
  host : string;
  query_session : option string;
  query_type : option string;
  query_participant : option string;
  body_From : option string;
  body_To : option string;
  body_CallSid : option string;
  body_CallStatus : option string;
  body_StatusCallbackEvent : option string
}.

(** ** Property reads on object literals

    A property read on an object literal also finds what every object
    inherits from [Object.prototype], and each of those values (functions,
    and the prototype itself under [__proto__]) is truthy. *)
Definition Object_prototype_properties : list string :=
  ["constructor"; "__defineGetter__"; "__defineSetter__"; "hasOwnProperty";
   "__lookupGetter__"; "__lookupSetter__"; "isPrototypeOf";
   "propertyIsEnumerable"; "toString"; "valueOf"; "__proto__";
   "toLocaleString"].

(** [session.participants] starts as [{}] and is written by assignments
    [participants[key] = object] only.  Its own properties are the entries
    of the map under the keys other than [__proto__].  No own property can
    have that name: an assignment to [__proto__] replaces the prototype of
    [participants] by the object assigned, and the entry under
    [__proto__] is that object; without it the prototype is
    [Object.prototype]. *)
Definition installed_prototype (m : gmap string Participant) : option Participant :=
  m !! "__proto__".

(** What [participants[key]] evaluates to. *)
Inductive PropertyValue : Type :=
  | ParticipantObject (p : Participant)
      (** an object of the map: an own property, or the installed
          prototype read under [__proto__] *)
  | Text (s : string)
      (** a string held by the installed prototype *)
  | OtherObject
      (** an object that is no participant: a [Date] held by the installed
          prototype, or a built-in inherited from [Object.prototype] *)
  | Undefined.

(** What a name finds on [Object.prototype] as the runtime provides it. *)
Definition inherited (key : string) : PropertyValue :=
  if existsb (String.eqb key) Object_prototype_properties
  then OtherObject else Undefined.

Definition text_or_undefined (o : option string) : PropertyValue :=
  match o with
  | Some s => Text s
  | None => Undefined
  end.

(** The read follows the prototype chain: own properties, then the fields
    of an installed prototype ([callSid], [from], [to], [joinedAt], and
    [leftAt] once it has been set), then [Object.prototype]. *)
Definition participants_read (key : string) (m : gmap string Participant)
    : PropertyValue :=
  match m !! key with
  | Some p => ParticipantObject p
  | None =>
      match installed_prototype m with
      | Some proto =>
          if String.eqb key "callSid" then text_or_undefined (p_callSid proto)
          else if String.eqb key "from" then text_or_undefined (p_from proto)
          else if String.eqb key "to" then text_or_undefined (p_to proto)
          else if String.eqb key "joinedAt" then OtherObject
          else if String.eqb key "leftAt" then
            match leftAt proto with
            | Some _ => OtherObject
            | None => inherited key
            end
          else inherited key
      | None => inherited key
      end
  end.

(** ** The session table: a [Map] in insertion order *)
Module SessionMap.

Abbreviation t := (list (string * ref)).

Definition get (id : string) (m : t) : option ref :=
  snd <$> List.find (fun kv => String.eqb (fst kv) id) m.

Definition has (id : string) (m : t) : bool := bool_decide (is_Some (get id m)).

(** [set] keeps the position of a key that is present and appends a new
    one. *)
Fixpoint set (id : string) (r : ref) (m : t) : t :=
  match m with
  | [] => [(id, r)]
  | (k, v) :: rest =>
      if String.eqb k id then (k, r) :: rest else (k, v) :: set id r rest
  end.

Definition delete (id : string) (m : t) : t :=
  List.filter (fun kv => negb (String.eqb (fst kv) id)) m.

(** [Array.from(m.values())] *)
Definition values (m : t) : list ref := snd <$> m.

End SessionMap.

(** [Array.prototype.sort] is stable: an element moves in front of the
    sorted rest only past elements the comparator puts strictly before
    it. *)
Section Sort.
Context {A : Type} (compare : A -> A -> Z).

Fixpoint sort_insert (x : A) (sorted : list A) : list A :=
  match sorted with
  | [] => [x]
  | y :: rest =>
      if (compare x y <=? 0)%Z then x :: y :: rest
      else y :: sort_insert x rest
  end.

Fixpoint sort (l : list A) : list A :=
  match l with
  | [] => []
  | x :: rest => sort_insert x (sort rest)
  end.

End Sort.

(** ** The server: state, outside world and handlers *)
Section Server.
Context {World : Type}.

(** The services the server calls and cannot see into.  Each call may
    fail ([None]: the promise rejects or the call throws) and may change
    the world.  [uuidv4] is the generator of the [uuid] package. *)
Record Services : Type := mkServices {
  transcriptions_create : Buffer -> string -> World -> option string * World;
  chat_completions_create :
    string -> string -> string -> World -> option string * World;
  speech_create : string -> World -> option Buffer * World;
  readyState : socket -> World -> Z;
  uuidv4 : World -> string * World
}.

Context (services : Services).

Record Server : Type := mkServer {
  heap : list Session;
  activeSessions : SessionMap.t;
  activeStreams : gmap string StreamHandle;
  connections : gmap socket Connection;
  timers : list Timer;
  clock : Z;
  world : World;
  trace : list Event
}.

Definition with_heap (v : list Session) (st : Server) : Server :=
  mkServer v (activeSessions st) (activeStreams st) (connections st)
           (timers st) (clock st) (world st) (trace st).
Definition with_activeSessions (v : SessionMap.t) (st : Server) : Server :=
  mkServer (heap st) v (activeStreams st) (connections st)
           (timers st) (clock st) (world st) (trace st).
Definition with_activeStreams (v : gmap string StreamHandle) (st : Server) : Server :=
  mkServer (heap st) (activeSessions st) v (connections st)
           (timers st) (clock st) (world st) (trace st).
Definition with_connections (v : gmap socket Connection) (st : Server) : Server :=
  mkServer (heap st) (activeSessions st) (activeStreams st) v
           (timers st) (clock st) (world st) (trace st).
Definition with_timers (v : list Timer) (st : Server) : Server :=
  mkServer (heap st) (activeSessions st) (activeStreams st) (connections st)
           v (clock st) (world st) (trace st).
Definition with_clock (v : Z) (st : Server) : Server :=
  mkServer (heap st) (activeSessions st) (activeStreams st) (connections st)
           (timers st) v (world st) (trace st).
Definition with_world (v : World) (st : Server) : Server :=
  mkServer (heap st) (activeSessions st) (activeStreams st) (connections st)
           (timers st) (clock st) v (trace st).
Definition with_trace (v : list Event) (st : Server) : Server :=
  mkServer (heap st) (activeSessions st) (activeStreams st) (connections st)
           (timers st) (clock st) (world st) v.

(** [activeSessions.get(id)] followed by a read of the object. *)
Definition lookup_session (id : string) (st : Server) : option (ref * Session) :=
  r ← SessionMap.get id (activeSessions st);
  session ← heap st !! r;
  Some (r, session).

(** An in-place update of the object [r] names. *)
Definition update_session (r : ref) (f : Session -> Session) (st : Server) : Server :=
  with_heap (alter f r (heap st)) st.

(** *** Computations that may throw *)
Inductive Result (A : Type) : Type :=
  | Ok (a : A)
  | Thrown.
Arguments Ok {A} a.
Arguments Thrown {A}.

Definition M (A : Type) : Type := Server -> Result A * Server.

Definition ret {A : Type} (a : A) : M A := fun st => (Ok a, st).

Definition bind {A B : Type} (m : M A) (k : A -> M B) : M B :=
  fun st =>
    match m st with
    | (Ok a, st') => k a st'
    | (Thrown, st') => (Thrown, st')
    end.

Definition throw {A : Type} : M A := fun st => (Thrown, st).

(** [try { body } catch (error) { console.error(...) }] *)
Definition try_catch (body : M unit) : M unit :=
  fun st =>
    match body st with
    | (Ok a, st') => (Ok a, st')
    | (Thrown, st') => (Ok tt, st')
    end.

Definition emit (e : Event) : M unit :=
  fun st => (Ok tt, with_trace (trace st ++ [e]) st).

(** A call to an outside service: the answer and the world after it. *)
Definition call {A : Type} (f : World -> A * World) : M A :=
  fun st => let (a, w) := f (world st) in (Ok a, with_world w st).

Definition get_state : M Server := fun st => (Ok st, st).

Definition modify (f : Server -> Server) : M unit := fun st => (Ok tt, f st).

Definition of_option {A : Type} (o : option A) : M A :=
  match o with
  | Some a => ret a
  | None => throw
  end.

End Server.

Arguments Ok {A} a.
Arguments Thrown {A}.
Arguments Server World : clear implicits.
Arguments Services World : clear implicits.
Arguments M World A : clear implicits.

Declare Scope relay_scope.
Notation "'let!' x ':=' m 'in' k" := (bind m (fun x => k))
  (at level 10, x name, m at level 100, k at level 200) : relay_scope.
Notation "'run!' m 'in' k" := (bind m (fun _ => k))
  (at level 10, m at level 100, k at level 200) : relay_scope.

(** A handler is run from its entry to its end in one step.  The handlers
    of the server are [async]: between two [await]s other handlers may
    run.  The properties below that concern one frame quantify over every
    state of the tables and every behaviour of the services, and the
    invariants are proved for every interleaving of whole handlers. *)
Section Handlers.
Context {World : Type} (services : Services World).
Local Open Scope relay_scope.

(** The key of both tables keyed by stream: [`${sessionId}-${participant}`]. *)
Definition streamKey (sessionId participant : string) : string :=
  sessionId +:+ "-" +:+ participant.

(** *** The accumulator of [processAudioForTranslation]

    The body of the handler up to its [await]: the buffers after the call
    and the frame, if any, that goes to the pipeline. *)
Definition bufferAudio (audioData : Buffer) (bufferKey : string)
    (buffers : gmap string Buffer) : gmap string Buffer * option Buffer :=
  let buffers :=
    if decide (is_Some (buffers !! bufferKey)) then buffers
    else <[bufferKey := []]> buffers in
  let buffer := default [] (buffers !! bufferKey) ++ audioData in
  if (chunkSize <=? length buffer)%nat then
    let audioToProcess := take chunkSize buffer in
    let remainingBuffer := drop chunkSize buffer in
    (<[bufferKey := remainingBuffer]> buffers, Some audioToProcess)
  else
    (<[bufferKey := buffer]> buffers, None).

(** The bytes waiting under a key. *)
Definition pending (bufferKey : string) (buffers : gmap string Buffer) : Buffer :=
  default [] (buffers !! bufferKey).

Definition frames_of (frame : option Buffer) : list Buffer :=
  match frame with
  | Some audioToProcess => [audioToProcess]
  | None => []
  end.

(** A sequence of calls for one key: the buffers at the end and the frames
    handed to the pipeline, in the order of the calls. *)
Fixpoint feed (chunks : list Buffer) (bufferKey : string)
    (buffers : gmap string Buffer) : gmap string Buffer * list Buffer :=
  match chunks with
  | [] => (buffers, [])
  | audioData :: rest =>
      let (buffers', frame) := bufferAudio audioData bufferKey buffers in
      let (buffers'', frames) := feed rest bufferKey buffers' in
      (buffers'', frames_of frame ++ frames)
  end.

(** *** The speech services *)

(** [transcribeAudio]: [null] when anything in its [try] fails. *)
Definition transcribeAudio (audioBuffer : Buffer) (language : string)
    : M World (option string) :=
  run! emit (Transcribe audioBuffer language) in
  call (transcriptions_create services audioBuffer language).

(** [translateText]: the original text when the call fails. *)
Definition translateText (text fromLang toLang : string) : M World string :=
  run! emit (Translate text fromLang toLang) in
  let! completion :=
    call (chat_completions_create services text fromLang toLang) in
  match completion with
  | Some content => ret (Str.trim content)
  | None => ret text
  end.

(** What [translateText] returns for an answer of the translation
    service: the trimmed content, or the text itself when the call failed. *)
Definition translation_of (text : string) (completion : option string) : string :=
  match completion with
  | Some content => Str.trim content
  | None => text
  end.

(** [synthesizeSpeech]: logs and rethrows. *)
Definition synthesizeSpeech (text language : string) : M World Buffer :=
  run! emit (Synthesize text language) in
  let! response := call (speech_create services text) in
  of_option response.

(** *** Delivery *)
Definition sendAudioToParticipant (audioData : Buffer)
    (targetParticipant : string) (session : Session) : M World unit :=
  try_catch (
    let key := streamKey (sessionId session) targetParticipant in
    let! st := get_state in
    match activeStreams st !! key with
    | None => ret tt
    | Some stream =>
        let mediaMessage :=
          mkMediaMessage "media"
            ("stream-" +:+ sessionId session +:+ "-" +:+ targetParticipant)
            audioData in
        if (readyState services (h_ws stream) (world st) =? 1)%Z
        then emit (WsSend (h_ws stream) mediaMessage)
        else ret tt
    end).

(** *** The pipeline *)
Definition is_phone (participant : option string) : bool :=
  bool_decide (participant = Some "phone").

Definition sourceLanguage (sourceParticipant : option string)
    (session : Session) : string :=
  if is_phone sourceParticipant then phone (languages session)
  else web (languages session).

Definition targetLanguage (sourceParticipant : option string)
    (session : Session) : string :=
  if is_phone sourceParticipant then web (languages session)
  else phone (languages session).

Definition counterpart (sourceParticipant : option string) : string :=
  if is_phone sourceParticipant then "web" else "phone".

Definition translateAndForwardAudio (audioData : Buffer)
    (sourceParticipant : option string) (session : Session) : M World unit :=
  try_catch (
    let source := sourceLanguage sourceParticipant session in
    let target := targetLanguage sourceParticipant session in
    if String.eqb source target then ret tt
    else
      let! wavAudio := of_option (Codec.convertMulawToWav audioData) in
      let! transcription := transcribeAudio wavAudio source in
      match transcription with
      | None => ret tt
      | Some text =>
          if (String.length (Str.trim text) =? 0)%nat then ret tt
          else
            let! translation := translateText text source target in
            let! translatedAudio := synthesizeSpeech translation target in
            let mulawAudio := Codec.convertWavToMulaw translatedAudio in
            sendAudioToParticipant mulawAudio
              (counterpart sourceParticipant) session
      end).

(** [processAudioForTranslation]: [session] names the object the stream's
    listener captured. *)
Definition processAudioForTranslation (mediaMsg : StreamMessage)
    (participant : option string) (session : ref) : M World unit :=
  try_catch (
    let! audioData := of_option (in_media mediaMsg) in
    let! st := get_state in
    let! s := of_option (heap st !! session) in
    let bufferKey := streamKey (sessionId s) (Str.of_nullable participant) in
    let (buffers, frame) := bufferAudio audioData bufferKey (audioBuffers s) in
    run! modify (update_session session (set_audioBuffers buffers)) in
    match frame with
    | Some audioToProcess =>
        translateAndForwardAudio audioToProcess participant s
    | None => ret tt
    end).

(** *** Media streams *)

(** [handleMediaStream(ws, sessionId, participant)]; both arguments come
    from the query string and are [null] when absent. *)
Definition handleMediaStream (ws : socket) (sessionId participant : option string)
    (st : Server World) : Server World :=
  match sessionId ≫= (fun id => SessionMap.get id (activeSessions st)) with
  | None => with_trace (trace st ++ [WsClose ws]) st
  | Some session =>
      let key :=
        streamKey (Str.of_nullable sessionId) (Str.of_nullable participant) in
      let handle :=
        mkStreamHandle ws participant (Str.of_nullable sessionId) in
      let listener := mkConnection session participant key None in
      with_connections (<[ws := listener]> (connections st))
        (with_activeStreams (<[key := handle]> (activeStreams st)) st)
  end.

(** [ws.on('message', ...)]: [None] is a message [JSON.parse] rejects. *)
Definition on_message (ws : socket) (message : option StreamMessage)
    (st : Server World) : Server World :=
  match connections st !! ws, message with
  | Some c, Some msg =>
      if String.eqb (in_event msg) "connected" then
        with_connections
          (<[ws := mkConnection (c_session c) (c_participant c)
                     (c_streamKey c) (in_streamSid msg)]> (connections st)) st
      else if String.eqb (in_event msg) "media" then
        snd (processAudioForTranslation msg (c_participant c) (c_session c) st)
      else if String.eqb (in_event msg) "stop" then
        with_activeStreams (delete (c_streamKey c) (activeStreams st)) st
      else st
  | _, _ => st
  end.

(** [ws.on('close', ...)] *)
Definition on_close (ws : socket) (st : Server World) : Server World :=
  match connections st !! ws with
  | Some c => with_activeStreams (delete (c_streamKey c) (activeStreams st)) st
  | None => st
  end.

End Handlers.

Section Webhooks.
Context {World : Type} (services : Services World).

(** The delay of the clean-up timer, in milliseconds. *)
Definition cleanupDelay : Z := 60000.

(** *** Session creation

    [create_session] is the handler of [/create-session] for a request that
    has passed its two validations, up to the [await] of the outgoing
    call; [call_created] is its continuation when the call was placed. *)
Definition create_session (phoneNumber phoneLanguage webLanguage : string)
    (st : Server World) : Server World :=
  let (id, w) := uuidv4 services (world st) in
  let session :=
    mkSession id ("translation-" +:+ id) phoneNumber
              (mkLanguages phoneLanguage webLanguage) created (clock st)
              None None None ∅ ∅ in
  with_world w
    (with_activeSessions
       (SessionMap.set id (length (heap st)) (activeSessions st))
       (with_heap (heap st ++ [session]) st)).

Definition call_created (id sid : string) (st : Server World) : Server World :=
  match SessionMap.get id (activeSessions st) with
  | Some r =>
      update_session r (fun s => set_status phone_calling (set_callSid (Some sid) s)) st
  | None => st
  end.

(** *** Incoming calls *)
Definition participant_of (req : Request) (now : Z) : Participant :=
  mkParticipant (body_CallSid req) (body_From req) (body_To req) now None.

Definition streamUrl (req : Request) (sessionId participant : string) : string :=
  "wss://" +:+ host req +:+ "/media-stream?session=" +:+ sessionId
  +:+ "&participant=" +:+ participant.

Definition conferenceCallback (req : Request) (sessionId participant : string) : string :=
  "https://" +:+ host req +:+ "/conference-status?session=" +:+ sessionId
  +:+ "&participant=" +:+ participant.

Definition joinable (s : Session) : bool :=
  bool_decide (status s = phone_answered) || bool_decide (status s = phone_calling).

(** The objects of the table, in its order, with their current contents. *)
Definition session_objects (st : Server World) : list (ref * Session) :=
  omap (fun r => (fun s => (r, s)) <$> heap st !! r)
       (SessionMap.values (activeSessions st)).

(** [handleWebCallWithSession(req, res, session)] *)
Definition handleWebCallWithSession (req : Request) (r : ref) (session : Session)
    (st : Server World) : list Verb * Server World :=
  ([ConnectStream (streamUrl req (sessionId session) "web");
    DialConference (conferenceId session)
                   (conferenceCallback req (sessionId session) "web")],
   update_session r
     (fun s => set_status web_joining
        (set_participants
           (<["web" := participant_of req (clock st)]> (participants s)) s))
     st).

(** [participantType === 'web' && !sessionId && req.body.From &&
    req.body.From.startsWith('client:')], with [participantType] the
    [type] of the query or [phone]. *)
Definition participantType (req : Request) : string :=
  if Str.truthy (query_type req) then default "" (query_type req) else "phone".

Definition web_client_without_session (req : Request) : bool :=
  String.eqb (participantType req) "web" && negb (Str.truthy (query_session req))
  && Str.truthy (body_From req)
  && Str.startsWith "client:" (default "" (body_From req)).

(** [sessionId && activeSessions.has(sessionId)] *)
Definition resolves (sessionId : option string) (st : Server World) : bool :=
  Str.truthy sessionId
  && SessionMap.has (default "" sessionId) (activeSessions st).

(** The sessions a browser call without a session id may join, most
    recently created first. *)
Definition recentSessions (st : Server World) : list (ref * Session) :=
  sort (fun a b => (createdAt (snd b) - createdAt (snd a))%Z)
       (List.filter (fun rs => joinable (snd rs)) (session_objects st)).

(** [handleIncomingCall(req, res)]: the TwiML sent and the state after.
    The call is stored by [participants[participantType] = {...}]: for the
    type [__proto__] that replaces the prototype of [participants], which
    is what the entry under that name stands for.  The last case does not
    arise: an entry of the table names an object of the heap. *)
Definition handleIncomingCall (req : Request) (st : Server World)
    : list Verb * Server World :=
  let sessionId := query_session req in
  let participantType := participantType req in
  if web_client_without_session req
  then
    let recentSession := head (recentSessions st) in
    match recentSession with
    | Some (r, session) => handleWebCallWithSession req r session st
    | None =>
        ([Say "No active translation session found. Please start a new session.";
          Hangup], st)
    end
  else if negb (resolves sessionId st)
  then
    ([Say "Sorry, this session is not available. Please try again."; Hangup], st)
  else
    match lookup_session (default "" sessionId) st with
    | Some (r, session) =>
        ([ConnectStream (streamUrl req (default "" sessionId) participantType);
          DialConference (conferenceId session)
            (conferenceCallback req (default "" sessionId) participantType)],
         update_session r
           (fun s => set_participants
              (<[participantType := participant_of req (clock st)]>
                 (participants s)) s)
           st)
    | None => ([], st)
    end.

(** [handleWebCall(req, res)], the handler of [/voice]. *)
Definition handleWebCall (req : Request) (st : Server World)
    : list Verb * Server World :=
  match List.find (fun rs => joinable (snd rs)) (session_objects st) with
  | Some (r, availableSession) =>
      ([ConnectStream (streamUrl req (sessionId availableSession) "web");
        DialConference (conferenceId availableSession)
          (conferenceCallback req (sessionId availableSession) "web")],
       update_session r
         (fun s => set_participants
            (<["web" := mkParticipant (body_CallSid req) (body_From req) None
                          (clock st) None]> (participants s))
            (set_status web_joining s))
         st)
  | None =>
      ([Say "No active translation session found. Please ask someone to start a phone session first.";
        Hangup], st)
  end.

(** *** Status webhooks *)

(** [app.post('/call-status', ...)] *)
Definition call_status (req : Request) (st : Server World) : Server World :=
  match (if resolves (query_session req) st
         then lookup_session (default "" (query_session req)) st else None) with
  | Some (r, _) =>
      update_session r
        (fun s =>
           let s := set_lastCall (body_CallStatus req) (clock st) s in
           if bool_decide (body_CallStatus req = Some "answered") then
             set_status phone_answered s
           else if bool_decide (body_CallStatus req = Some "completed")
                   || bool_decide (body_CallStatus req = Some "failed") then
             set_status call_ended s
           else s)
        st
  | None => st
  end.

Definition set_leftAt (t : Z) (p : Participant) : Participant :=
  mkParticipant (p_callSid p) (p_from p) (p_to p) (joinedAt p) (Some t).

(** The [participant-leave] case: [leftAt] is stored on whatever
    [participants[participantType]] finds, if that is truthy: on a
    participant of the session, or on an object outside the tables.  A
    string is no object: the empty one is falsy, and a store on any other
    throws in a module (strict code), which ends the request with the
    tables as they were. *)
Definition participant_leave (r : ref) (session : Session) (key : string)
    (st : Server World) : Server World :=
  match participants_read key (participants session) with
  | ParticipantObject _ =>
      update_session r
        (fun s => set_participants
           (alter (set_leftAt (clock st)) key (participants s)) s)
        st
  | OtherObject => with_trace (trace st ++ [LeftAtWritten key (clock st)]) st
  | Text _ => st
  | Undefined => st
  end.

(** [app.post('/conference-status', ...)] *)
Definition conference_status (req : Request) (st : Server World) : Server World :=
  let participantType := query_participant req in
  match (if resolves (query_session req) st
         then lookup_session (default "" (query_session req)) st else None) with
  | Some (r, session) =>
      let event := body_StatusCallbackEvent req in
      if bool_decide (event = Some "participant-join") then
        if bool_decide (participantType = Some "web") then
          update_session r (set_status web_joined) st
        else if bool_decide (participantType = Some "phone") then
          update_session r (set_status phone_in_conference) st
        else st
      else if bool_decide (event = Some "participant-leave") then
        participant_leave r session (default "undefined" participantType) st
      else if bool_decide (event = Some "conference-start") then
        update_session r (set_status conference_active) st
      else if bool_decide (event = Some "conference-end") then
        with_timers
          (timers st ++
           [mkTimer (clock st + cleanupDelay) (default "" (query_session req))])
          (update_session r (set_status conference_ended) st)
      else st
  | None => st
  end.

(** *** Time *)

(** The callback of the clean-up timer. *)
Definition fire (t : Timer) (st : Server World) : Server World :=
  with_activeSessions (SessionMap.delete (doomed t) (activeSessions st)) st.

(** The clock moves to [now] and the timers due by then run. *)
Definition advance (now : Z) (st : Server World) : Server World :=
  let now := Z.max (clock st) now in
  let ready := List.filter (fun t => (due t <=? now)%Z) (timers st) in
  let pending := List.filter (fun t => negb (due t <=? now)%Z) (timers st) in
  with_clock now (with_timers pending (foldl (fun st t => fire t st) st ready)).

(** *** The server as a transition system *)
Inductive Action : Type :=
  | CreateSession (phoneNumber phoneLanguage webLanguage : string)
  | CallCreated (sessionId callSid : string)
  | IncomingCall (req : Request)
  | Voice (req : Request)
  | CallStatus (req : Request)
  | ConferenceStatus (req : Request)
  | MediaStream (ws : socket) (sessionId participant : option string)
  | Message (ws : socket) (message : option StreamMessage)
  | Close (ws : socket)
  | Advance (now : Z).

Definition handle (st : Server World) (a : Action) : Server World :=
  match a with
  | CreateSession phoneNumber phoneLanguage webLanguage =>
      create_session phoneNumber phoneLanguage webLanguage st
  | CallCreated id sid => call_created id sid st
  | IncomingCall req => snd (handleIncomingCall req st)
  | Voice req => snd (handleWebCall req st)
  | CallStatus req => call_status req st
  | ConferenceStatus req => conference_status req st
  | MediaStream ws sessionId participant =>
      handleMediaStream ws sessionId participant st
  | Message ws message => on_message services ws message st
  | Close ws => on_close ws st
  | Advance now => advance now st
  end.

Definition init (w : World) : Server World := mkServer [] [] ∅ ∅ [] 0 w [].

Definition run (w : World) (actions : list Action) : Server World :=
  foldl handle (init w) actions.

(** *** The events of a call, as the webhooks receive them

    Only the fields the two status handlers read are filled in. *)
Definition callStatusEvent (sessionId status : string) : Request :=
  mkRequest "" (Some sessionId) None None None None None (Some status) None.

Definition conferenceEvent (sessionId : string) (participant : option string)
    (event : string) : Request :=
  mkRequest "" (Some sessionId) None participant None None None None (Some event).

(** The scenario of a completed call, with the clock read before each
    event. *)
Definition scenario (id : string) (t1 t2 t3 t4 t5 : Z) : list Action :=
  [Advance t1; CallStatus (callStatusEvent id "answered");
   Advance t2;
   ConferenceStatus (conferenceEvent id (Some "phone") "participant-join");
   Advance t3;
   ConferenceStatus (conferenceEvent id None "conference-start");
   Advance t4;
   ConferenceStatus (conferenceEvent id (Some "web") "participant-join");
   Advance t5;
   ConferenceStatus (conferenceEvent id None "conference-end")].

(** The status of the session registered under an id, if any. *)
Definition status_of (id : string) (st : Server World) : option Status :=
  (fun rs => status (snd rs)) <$> lookup_session id st.

(** [id] names the object [r], and no clean-up of [id] is pending. *)
Definition registered (id : string) (r : ref) (st : Server World) : Prop :=
  SessionMap.get id (activeSessions st) = Some r /\ is_Some (heap st !! r).

Definition unscheduled (id : string) (st : Server World) : Prop :=
  Forall (fun t => doomed t <> id) (timers st).

(** *** Keys

    [uuidv4] belongs to the [uuid] package; what the server relies on is
    the textual form of its results, which has 36 characters. *)
Definition uuid_contract : Prop :=
  forall w : World, String.length (uuidv4 services w).1 = 36%nat.

(** The ids held by the objects, the session table and the stream table:
    what the keys of the stream table are built from. *)
Definition same_keys (st st' : Server World) : Prop :=
  sessionId <$> heap st' = sessionId <$> heap st /\
  activeSessions st' = activeSessions st /\
  activeStreams st' = activeStreams st.

(** Every id in use has the length of a UUID, and every stream handle sits
    under the key built from its own session id and participant. *)
Definition well_keyed (st : Server World) : Prop :=
  Forall (fun kv => String.length kv.1 = 36%nat) (activeSessions st) /\
  Forall (fun id => String.length id = 36%nat) (sessionId <$> heap st) /\
  forall (key : string) (handle : StreamHandle),
    activeStreams st !! key = Some handle ->
    key = streamKey (h_sessionId handle) (Str.of_nullable (h_participant handle))
    /\ String.length (h_sessionId handle) = 36%nat.

(** A computation that leaves the keys alone. *)
Definition quiet {A : Type} (m : M World A) : Prop :=
  forall st : Server World, same_keys st (m st).2.

End Webhooks.

(** ** A small deployment to run the handlers on

    The outside world counts the calls to the synthesis service: the
    transcription service hears [hola] in every frame, the translation
    service is down, and the synthesis service fails on its first call and
    answers afterwards.  Every socket is open. *)
Module Fixture.

Definition services : Services nat :=
  mkServices
    (fun _ _ w => (Some "hola", w))
    (fun _ _ _ w => (None, w))
    (fun _ w => (if (w =? 0)%nat then None else Some [x10; x00; xf0; xff], S w))
    (fun _ _ => 1%Z)
    (fun w => ("1b9d6bcd-bbfd-4b2d-9b5d-ab8dfbbd4bed", w)).

Definition id : string := "1b9d6bcd-bbfd-4b2d-9b5d-ab8dfbbd4bed".

(** One session, Spanish on the phone and English in the browser, with
    both media streams connected (sockets 1 and 2). *)
Definition connected : Server nat :=
  run services 0
    [CreateSession "+15550100" "es" "en";
     CallCreated id "CA01";
     MediaStream 1 (Some id) (Some "web");
     MediaStream 2 (Some id) (Some "phone")].

Definition session : Session :=
  mkSession id ("translation-" +:+ id) "+15550100" (mkLanguages "es" "en")
            phone_calling 0 (Some "CA01") None None ∅ ∅.

(** The same session with English on both legs. *)
Definition monolingual : Session :=
  mkSession id ("translation-" +:+ id) "+15550100" (mkLanguages "en" "en")
            phone_calling 0 (Some "CA01") None None ∅ ∅.

Definition frame : Buffer := [xff; x7f; x00].

End Fixture.

(** ** A deployment whose services answer

    The transcription service hears nothing but white space (a space, a
    no-break space, an ideographic space and a line feed) while the world
    is 0 and [hola] afterwards; the translation service answers [hello]
    between a no-break space and an em space followed by a byte order
    mark; the synthesis service always answers.  Every socket is open. *)
Module Studio.

Definition blank : string := Str.fromCodePoint [0x20; 0xA0; 0x3000; 0x0A]%N.

Definition padded : string :=
  Str.fromCodePoint [0xA0]%N +:+ "hello" +:+ Str.fromCodePoint [0x2003; 0xFEFF]%N.

Definition services : Services nat :=
  mkServices
    (fun _ _ w => (if (w =? 0)%nat then Some blank else Some "hola", w))
    (fun _ _ _ w => (Some padded, w))
    (fun _ w => (Some [x10; x00; xf0; xff], w))
    (fun _ _ => 1%Z)
    (fun w => ("1b9d6bcd-bbfd-4b2d-9b5d-ab8dfbbd4bed", w)).

End Studio.

(** ** Two sessions side by side

    The id generator hands out two ids; each session has its browser
    stream connected, the second its phone stream as well. *)
Module Exchange.

Definition idA : string := "1b9d6bcd-bbfd-4b2d-9b5d-ab8dfbbd4bed".
Definition idB : string := "6ec0bd7f-11c0-43da-975e-2a8ad9ebae0b".

Definition services : Services nat :=
  mkServices
    (fun _ _ w => (Some "hola", w))
    (fun _ _ _ w => (None, w))
    (fun _ w => (Some [x10; x00; xf0; xff], w))
    (fun _ _ => 1%Z)
    (fun w => (if (w =? 0)%nat then idA else idB, S w)).

Definition actions : list Action :=
  [CreateSession "+15550100" "es" "en";
   CreateSession "+15550111" "fr" "de";
   MediaStream 1 (Some idA) (Some "web");
   MediaStream 2 (Some idB) (Some "web");
   MediaStream 3 (Some idB) (Some "phone")].

Definition A : Session :=
  mkSession idA ("translation-" +:+ idA) "+15550100" (mkLanguages "es" "en")
            created 0 None None None ∅ ∅.

End Exchange.

(** ** A session whose phone leg has joined

    The fixture's session after its outgoing call was answered by the
    telephony provider's webhook at time 5000; it is now 9000. *)
Module Lobby.

Definition incoming : Request :=
  mkRequest "relay.example" (Some Fixture.id) (Some "phone") None
            (Some "+15550100") (Some "+15550123") (Some "CA01") None None.


Definition session : Session :=
  mkSession Fixture.id ("translation-" +:+ Fixture.id) "+15550100"
            (mkLanguages "es" "en") phone_calling 0 (Some "CA01") None None
            {["phone" := mkParticipant (Some "CA01") (Some "+15550100")
                           (Some "+15550123") 5000 None]}
            ∅.

End Lobby.

(** ** Session creation as the endpoint sees it *)
Section CreateSession.
Context {World : Type} (services : Services World).

(** The keys of [SUPPORTED_LANGUAGES] with their locales. *)
Definition SUPPORTED_LANGUAGES : list (string * string) :=
  [("en", "en-US"); ("es", "es-ES"); ("fr", "fr-FR"); ("de", "de-DE");
   ("zh", "zh-CN"); ("ja", "ja-JP"); ("ko", "ko-KR"); ("ar", "ar-SA");
   ("hi", "hi-IN"); ("pt", "pt-BR"); ("ru", "ru-RU"); ("it", "it-IT");
   ("vi", "vi-VN"); ("th", "th-TH")].

(** [SUPPORTED_LANGUAGES] is an object literal: a property read on it also
    finds what every object inherits from [Object.prototype]. *)

(** The truthiness of [SUPPORTED_LANGUAGES[code]]. *)
Definition language_accepted (code : string) : bool :=
  match List.find (fun kv => String.eqb (fst kv) code) SUPPORTED_LANGUAGES with
  | Some (_, locale) => negb (String.eqb locale "")
  | None => existsb (String.eqb code) Object_prototype_properties
  end.

(** The fields of the request body the handler destructures; an absent
    field is [undefined]. *)
Record CreateBody : Type := mkCreateBody {
  b_phoneNumber : option string;
  b_phoneLanguage : option string;
  b_webLanguage : option string
}.

Inductive Reply : Type :=
  | BadRequest (error : string)
  | Created (sessionId callSid : string)
  | ServerError.

(** [app.post('/create-session', ...)].  [call] is what the telephony
    provider answers to the request for the outgoing call: the call's id,
    or [None] when the request is rejected. *)
Definition post_create_session (body : CreateBody) (call : option string)
    (st : Server World) : Reply * Server World :=
  let phoneLanguage := default "es" (b_phoneLanguage body) in
  let webLanguage := default "en" (b_webLanguage body) in
  if negb (Str.truthy (b_phoneNumber body)) then
    (BadRequest "Phone number is required", st)
  else if negb (language_accepted phoneLanguage)
          || negb (language_accepted webLanguage) then
    (BadRequest "Unsupported language", st)
  else
    let id := (uuidv4 services (world st)).1 in
    let st1 :=
      create_session services (default "" (b_phoneNumber body))
        phoneLanguage webLanguage st in
    match call with
    | Some sid =>
        if SessionMap.has id (activeSessions st1)
        then (Created id sid, call_created id sid st1)
        else (ServerError, st1)
    | None => (ServerError, st1)
    end.

End CreateSession.

(** ** Integer ranges for exhaustive checks *)

(** The [n] integers from [start] on. *)
Fixpoint Zrange (start : Z) (n : nat) : list Z :=
  match n with
  | O => []
  | S n' => start :: Zrange (start + 1)%Z n'
  end.

(* ===================================================================== *)
(** * Properties *)
(* ===================================================================== *)

(** ** Integer and buffer facts *)
Section NumberFacts.
Local Open Scope Z_scope.
Import JS.

Lemma ToInt32_small (z : Z) : - 2 ^ 31 <= z < 2 ^ 31 -> ToInt32 z = z.
Proof.
  intros Hz. unfold ToInt32.
  rewrite Z.mod_small by lia. lia.
Qed.

Lemma bnot_small (z : Z) : - 2 ^ 31 <= z < 2 ^ 31 -> bnot z = - z - 1.
Proof.
  intros Hz. unfold bnot. rewrite ToInt32_small by exact Hz.
  unfold Z.lnot. lia.
Qed.

Lemma byte_to_Z_range (b : byte) : 0 <= byte_to_Z b <= 255.
Proof.
  unfold byte_to_Z. pose proof (Byte.to_N_bounded b) as Hb. lia.
Qed.

Lemma byte_of_to_Z (b : byte) : byte_of_Z (byte_to_Z b) = b.
Proof. destruct b; reflexivity. Qed.

(** A bounded universal statement over an initial segment of the integers
    is decided by running the test on each element. *)
Lemma forallb_Z_range (f : Z -> bool) (n : nat) :
  forallb f (map Z.of_nat (seq 0 n)) = true ->
  forall z : Z, 0 <= z < Z.of_nat n -> f z = true.
Proof.
  intros Hall z Hz.
  rewrite forallb_forall in Hall. apply Hall.
  apply in_map_iff. exists (Z.to_nat z). split.
  - lia.
  - apply in_seq. lia.
Qed.

End NumberFacts.

(** ** Trimming *)
Section TrimFacts.

(** The encodings of the white space characters, for instance the no-break
    space, the ogham space mark, the ideographic space and the byte order
    mark. *)
Lemma utf8_of_white_space :
  map (fun cp => map nat_of_ascii (Str.utf8 cp)) [0x20; 0xA0; 0x1680; 0x3000; 0xFEFF]%N
  = [[32]; [194; 160]; [225; 154; 128]; [227; 128; 128]; [239; 187; 191]].
Proof. vm_compute. reflexivity. Qed.

(** A text of two white space characters trims to nothing, and [hola]
    between two white space characters trims to [hola], whichever the
    characters are. *)
Lemma trim_white_space (a b : N) :
  In a Str.WhiteSpace -> In b Str.WhiteSpace ->
  Str.trim (Str.fromCodePoint [a; b]) = "" /\
  Str.trim (Str.fromCodePoint [a] +:+ "hola" +:+ Str.fromCodePoint [b]) = "hola".
Proof.
  intros Ha Hb.
  assert (Hall :
    forallb (fun a =>
      forallb (fun b =>
        String.eqb (Str.trim (Str.fromCodePoint [a; b])) "" &&
        String.eqb
          (Str.trim (Str.fromCodePoint [a] +:+ "hola" +:+ Str.fromCodePoint [b]))
          "hola")
        Str.WhiteSpace)
      Str.WhiteSpace = true) by (vm_compute; reflexivity).
  rewrite forallb_forall in Hall. specialize (Hall a Ha).
  rewrite forallb_forall in Hall. specialize (Hall b Hb).
  apply andb_prop in Hall as [Hblank Htext].
  apply String.eqb_eq in Hblank, Htext. split; assumption.
Qed.

(** White space inside a text stays, and so do characters that only share
    bytes with white space: the last byte of [U+00E0] is the last byte of
    the no-break space, and the zero width space [U+200B] follows the
    spaces [U+2000] to [U+200A]. *)
Lemma trim_keeps_text :
  Str.trim " buenos  dias " = "buenos  dias" /\
  Str.trim (Str.fromCodePoint [0xE0; 0x20; 0xE0]%N)
  = Str.fromCodePoint [0xE0; 0x20; 0xE0]%N /\
  Str.trim (Str.fromCodePoint [0x200B; 0x68; 0x200B]%N)
  = Str.fromCodePoint [0x200B; 0x68; 0x200B]%N /\
  Str.trim "" = "".
Proof. vm_compute. repeat split. Qed.

(** Trimming again changes nothing, on texts of up to three characters
    drawn from white space and two letters. *)
Lemma trim_idempotent_small (codes : list N) :
  (length codes <= 3)%nat ->
  Forall (fun cp => In cp (0x68 :: 0xE0 :: Str.WhiteSpace)%N) codes ->
  Str.trim (Str.trim (Str.fromCodePoint codes))
  = Str.trim (Str.fromCodePoint codes).
Proof.
  set (alphabet := (0x68 :: 0xE0 :: Str.WhiteSpace)%N).
  set (ok := fun codes =>
         String.eqb (Str.trim (Str.trim (Str.fromCodePoint codes)))
                    (Str.trim (Str.fromCodePoint codes))).
  assert (Hall :
    ok [] &&
    forallb (fun a => ok [a] &&
      forallb (fun b => ok [a; b] &&
        forallb (fun c => ok [a; b; c]) alphabet) alphabet) alphabet = true)
    by (vm_compute; reflexivity).
  apply andb_prop in Hall as [H0 Hall].
  rewrite forallb_forall in Hall.
  intros Hlen Hcodes.
  destruct codes as [| a [| b [| c [| d rest]]]]; cbn [length] in Hlen;
    try lia.
  - apply String.eqb_eq. exact H0.
  - inversion Hcodes as [| ? ? Ha _]; subst.
    specialize (Hall a Ha). apply andb_prop in Hall as [H1 _].
    apply String.eqb_eq. exact H1.
  - inversion Hcodes as [| ? ? Ha Hrest]; subst.
    inversion Hrest as [| ? ? Hb _]; subst.
    specialize (Hall a Ha). apply andb_prop in Hall as [_ Hall].
    rewrite forallb_forall in Hall. specialize (Hall b Hb).
    apply andb_prop in Hall as [H2 _].
    apply String.eqb_eq. exact H2.
  - inversion Hcodes as [| ? ? Ha Hrest]; subst.
    inversion Hrest as [| ? ? Hb Hrest']; subst.
    inversion Hrest' as [| ? ? Hc _]; subst.
    specialize (Hall a Ha). apply andb_prop in Hall as [_ Hall].
    rewrite forallb_forall in Hall. specialize (Hall b Hb).
    apply andb_prop in Hall as [_ Hall].
    rewrite forallb_forall in Hall. specialize (Hall c Hc).
    apply String.eqb_eq. exact Hall.
Qed.

End TrimFacts.

(** ** The codec *)
Section CodecFacts.
Local Open Scope Z_scope.
Import JS Codec.

Lemma mulawToLinear_range (b : Z) :
  0 <= b <= 255 -> -32256 <= mulawToLinear b <= 32256.
Proof.
  intros Hb.
  pose proof (forallb_Z_range
    (fun z => (-32256 <=? mulawToLinear z) && (mulawToLinear z <=? 32256)) 256)
    as Hall.
  cbv beta in Hall.
  specialize (Hall ltac:(vm_compute; reflexivity) b ltac:(lia)).
  apply andb_prop in Hall as [H1 H2]. lia.
Qed.

Example mulawToLinear_max : mulawToLinear 0x7F = 32256.
Proof. reflexivity. Qed.

Example mulawToLinear_min : mulawToLinear 0xFF = -32256.
Proof. reflexivity. Qed.

Lemma writeInt16LE_in_range (v : Z) :
  -32768 <= v <= 32767 ->
  writeInt16LE v = Some (byte_of_Z v, byte_of_Z (Z.shiftr v 8)).
Proof.
  intros Hv. unfold writeInt16LE.
  destruct (Z.leb_spec (-32768) v); [| lia].
  destruct (Z.leb_spec v 32767); [| lia].
  reflexivity.
Qed.

Lemma convertMulawToWav_total (frame : Buffer) :
  exists wav : Buffer,
    convertMulawToWav frame = Some wav /\
    length wav = (2 * length frame)%nat.
Proof.
  induction frame as [| b rest [wav [Hwav Hlen]]].
  - exists []. split; reflexivity.
  - pose proof (mulawToLinear_range _ (byte_to_Z_range b)) as Hr.
    exists (byte_of_Z (mulawToLinear (byte_to_Z b))
            :: byte_of_Z (Z.shiftr (mulawToLinear (byte_to_Z b)) 8) :: wav).
    cbn [convertMulawToWav].
    rewrite writeInt16LE_in_range by lia.
    rewrite Hwav. split; [reflexivity |].
    cbn [length]. lia.
Qed.

(** C10: every byte decodes into [-32256, 32256], inside the signed 16-bit
    range, so [writeInt16LE] accepts every sample that [convertMulawToWav]
    hands to it and the conversion of any frame yields a buffer (of twice
    the frame's length). *)
Theorem decode_range_and_wav_never_faults (b : Z) (frame : Buffer) :
  0 <= b <= 255 ->
  (-32256 <= mulawToLinear b <= 32256) /\
  (-32768 < mulawToLinear b < 32767) /\
  (exists lo hi, writeInt16LE (mulawToLinear b) = Some (lo, hi)) /\
  (exists wav : Buffer,
      convertMulawToWav frame = Some wav /\
      length wav = (2 * length frame)%nat).
Proof.
  intros Hb. pose proof (mulawToLinear_range b Hb) as Hr.
  split; [exact Hr |].
  split; [lia |].
  split.
  - rewrite writeInt16LE_in_range by lia. eauto.
  - apply convertMulawToWav_total.
Qed.

Lemma decode_range_and_wav_never_faults_witness :
  0 <= 255 <= 255 /\
  ((-32256 <= mulawToLinear 255 <= 32256) /\
   (-32768 < mulawToLinear 255 < 32767) /\
   (exists lo hi, writeInt16LE (mulawToLinear 255) = Some (lo, hi)) /\
   (exists wav : Buffer,
       convertMulawToWav [xff; x00; x7f] = Some wav /\
       length wav = (2 * length [xff; x00; x7f])%nat)).
Proof.
  split; [lia |].
  apply (decode_range_and_wav_never_faults 255 [xff; x00; x7f]). lia.
Defined.


(** The windows of the encoder's loop are [31 * 2^(exp+3)]. *)
Lemma window_value (exp : Z) : 0 <= exp <= 7 -> window exp = 31 * 2 ^ (exp + 3).
Proof.
  intros He.
  assert (Hcases : exp = 0 \/ exp = 1 \/ exp = 2 \/ exp = 3 \/
                   exp = 4 \/ exp = 5 \/ exp = 6 \/ exp = 7) by lia.
  repeat destruct Hcases as [-> | Hcases]; try subst exp; reflexivity.
Qed.

(** What the search loop returns: the first exponent whose window holds the
    sample, or the initial value when it runs to the end. *)
Lemma exponent_loop_first (fuel : nat) (exp sample dflt : Z) :
  exp + Z.of_nat fuel = 8 ->
  let e := exponent_loop fuel exp sample dflt in
  (exp <= e < 8 /\ sample <= window e /\
   forall e', exp <= e' < e -> window e' < sample)
  \/
  (e = dflt /\ forall e', exp <= e' < 8 -> window e' < sample).
Proof.
  revert exp. induction fuel as [| fuel IH]; intros exp Hsum; cbn zeta.
  - right. split; [reflexivity |]. intros e' He'. lia.
  - cbn [exponent_loop].
    destruct (Z.ltb_spec exp 8) as [Hlt | Hge]; [| lia].
    destruct (Z.leb_spec sample (window exp)) as [Hfit | Hno].
    + left. split; [lia |]. split; [exact Hfit |]. intros e' He'. lia.
    + specialize (IH (exp + 1) ltac:(lia)). cbn zeta in IH.
      destruct IH as [(Hr & Hfit & Hmin) | (Hd & Hnone)].
      * left. split; [lia |]. split; [exact Hfit |].
        intros e' He'.
        destruct (Z.eq_dec e' exp) as [-> | Hne]; [exact Hno |].
        apply Hmin. lia.
      * right. split; [exact Hd |].
        intros e' He'.
        destruct (Z.eq_dec e' exp) as [-> | Hne]; [exact Hno |].
        apply Hnone. lia.
Qed.

(** The three fields occupy disjoint bits, so or-ing them adds them. *)
Lemma pack_fields (sign exponent mantissa : Z) :
  sign = 0 \/ sign = 0x80 ->
  0 <= exponent <= 7 ->
  0 <= mantissa <= 15 ->
  bor (bor sign (shl exponent 4)) mantissa = sign + 16 * exponent + mantissa.
Proof.
  intros Hs He Hm.
  assert (Hec : exponent = 0 \/ exponent = 1 \/ exponent = 2 \/ exponent = 3 \/
                exponent = 4 \/ exponent = 5 \/ exponent = 6 \/ exponent = 7) by lia.
  pose proof (forallb_Z_range
    (fun m => forallb (fun s => forallb (fun e =>
       bor (bor s (shl e 4)) m =? s + 16 * e + m)
       [0; 1; 2; 3; 4; 5; 6; 7]) [0; 0x80]) 16
    ltac:(vm_compute; reflexivity) mantissa ltac:(lia)) as Hall.
  cbv beta in Hall.
  rewrite forallb_forall in Hall.
  specialize (Hall sign ltac:(destruct Hs as [-> | ->]; cbn; tauto)).
  rewrite forallb_forall in Hall.
  specialize (Hall exponent
    ltac:(repeat destruct Hec as [-> | Hec]; try subst exponent; cbn; tauto)).
  apply Z.eqb_eq in Hall. exact Hall.
Qed.

Lemma mantissa_value (sample exponent : Z) :
  0 <= sample < 2 ^ 31 -> 0 <= exponent <= 7 ->
  band (sar sample (exponent + 3)) 0x0F = (sample / 2 ^ (exponent + 3)) mod 16.
Proof.
  intros Hs He. unfold band, sar.
  rewrite (ToInt32_small sample) by lia.
  rewrite (Z.mod_small (exponent + 3) 32) by lia.
  rewrite Z.shiftr_div_pow2 by lia.
  assert (Hq : 0 <= sample / 2 ^ (exponent + 3) < 2 ^ 31).
  { split.
    - apply Z.div_pos; lia.
    - apply Z.div_lt_upper_bound; [lia |].
      assert (1 <= 2 ^ (exponent + 3)) by lia. nia. }
  rewrite ToInt32_small by lia.
  change (ToInt32 0x0F) with (Z.ones 4).
  rewrite Z.land_ones by lia. reflexivity.
Qed.


(** The exponent the encoder settles on, in arithmetic terms. *)
Lemma encoder_exponent (sample : Z) :
  let e := exponent_loop 8 0 sample 7 in
  0 <= e <= 7 /\
  (forall e', 0 <= e' < e -> 31 * 2 ^ (e' + 3) < sample) /\
  (sample <= 31 * 2 ^ (e + 3) \/ (e = 7 /\ 31 * 2 ^ 10 < sample)).
Proof.
  cbn zeta.
  destruct (exponent_loop_first 8 0 sample 7 ltac:(lia))
    as [(Hr & Hfit & Hmin) | (Hd & Hnone)].
  - split; [lia |]. split.
    + intros e' He'. rewrite <- window_value by lia. apply Hmin. lia.
    + left. rewrite <- window_value by lia. exact Hfit.
  - rewrite Hd. split; [lia |]. split.
    + intros e' He'. rewrite <- window_value by lia. apply Hnone. lia.
    + right. split; [reflexivity |].
      change (31 * 2 ^ 10) with (31 * 2 ^ (7 + 3)).
      rewrite <- window_value by lia. apply Hnone. lia.
Qed.

(** C2 as stated fails at the loudest positive sample: the function returns
    -113, which is no byte, and no exponent in 0..7 has a window holding the
    biased magnitude 32899. *)
Lemma linearToMulaw_not_a_byte :
  linearToMulaw 32767 = -113 /\
  ~ (0 <= linearToMulaw 32767 <= 255) /\
  ~ (exists e : Z, 0 <= e <= 7 /\ Z.abs 32767 + bias <= 31 * 2 ^ (e + 3)).
Proof.
  split; [reflexivity |]. split.
  - change (linearToMulaw 32767) with (-113). lia.
  - intros (e & He & Hfit).
    change (Z.abs 32767 + bias) with 32899 in Hfit.
    assert (2 ^ (e + 3) <= 2 ^ 10) by (apply Z.pow_le_mono_r; lia).
    lia.
Qed.

(** C2, amended: for every signed 16-bit input the encoder adds the bias
    0x84 to the magnitude, takes the smallest exponent in 0..7 whose window
    [31 * 2^(e+3)] holds the biased magnitude, or 7 when none does, packs
    sign, exponent and mantissa into a value in 0..255, and returns the
    32-bit complement of it, a number in -256..-1; the byte kept by a store
    into a buffer is [255 - packed]. *)
Theorem linearToMulaw_complement_of_packed (linear : Z) :
  -32768 <= linear <= 32767 ->
  let biased := Z.abs linear + 0x84 in
  let sign := if linear <? 0 then 0x80 else 0 in
  exists exponent : Z,
    0 <= exponent <= 7 /\
    (forall e', 0 <= e' < exponent -> 31 * 2 ^ (e' + 3) < biased) /\
    (biased <= 31 * 2 ^ (exponent + 3) \/
     (exponent = 7 /\ 31 * 2 ^ 10 < biased)) /\
    let mantissa := (biased / 2 ^ (exponent + 3)) mod 16 in
    let pack := sign + 16 * exponent + mantissa in
    0 <= pack <= 255 /\
    linearToMulaw linear = - pack - 1 /\
    -256 <= linearToMulaw linear <= -1 /\
    ToUint8 (linearToMulaw linear) = 255 - pack.
Proof.
  intros Hlin. cbn zeta.
  pose proof (encoder_exponent (Z.abs linear + 0x84)) as He. cbn zeta in He.
  set (e := exponent_loop 8 0 (Z.abs linear + 0x84) 7) in He.
  destruct He as (Hrange & Hmin & Hfit).
  exists e. split; [exact Hrange |]. split; [exact Hmin |]. split; [exact Hfit |].
  assert (Hm : 0 <= ((Z.abs linear + 0x84) / 2 ^ (e + 3)) mod 16 < 16)
    by (apply Z.mod_pos_bound; lia).
  assert (Hsign : (if linear <? 0 then 0x80 else 0) = 0 \/
                  (if linear <? 0 then 0x80 else 0) = 0x80)
    by (destruct (linear <? 0); [right | left]; reflexivity).
  assert (Hpack : packed linear =
                  (if linear <? 0 then 0x80 else 0) + 16 * e +
                  ((Z.abs linear + 0x84) / 2 ^ (e + 3)) mod 16).
  { unfold packed. fold e. unfold bias.
    rewrite mantissa_value by lia.
    apply pack_fields; [exact Hsign | lia | lia]. }
  assert (Hbound : 0 <= (if linear <? 0 then 0x80 else 0) + 16 * e +
                   ((Z.abs linear + 0x84) / 2 ^ (e + 3)) mod 16 <= 255)
    by (destruct Hsign as [-> | ->]; lia).
  assert (Hret : linearToMulaw linear =
                 - ((if linear <? 0 then 0x80 else 0) + 16 * e +
                    ((Z.abs linear + 0x84) / 2 ^ (e + 3)) mod 16) - 1).
  { unfold linearToMulaw. rewrite Hpack. apply bnot_small. lia. }
  split; [exact Hbound |]. split; [exact Hret |]. split; [lia |].
  rewrite Hret. unfold ToUint8.
  replace (- ((if linear <? 0 then 0x80 else 0) + 16 * e +
              ((Z.abs linear + 0x84) / 2 ^ (e + 3)) mod 16) - 1)
    with (255 - ((if linear <? 0 then 0x80 else 0) + 16 * e +
                 ((Z.abs linear + 0x84) / 2 ^ (e + 3)) mod 16) + (-1) * 256)
    by lia.
  rewrite Z.mod_add by lia.
  apply Z.mod_small. lia.
Qed.

Lemma linearToMulaw_complement_of_packed_witness :
  -32768 <= 32767 <= 32767 /\
  exists exponent : Z,
    0 <= exponent <= 7 /\
    (forall e', 0 <= e' < exponent -> 31 * 2 ^ (e' + 3) < Z.abs 32767 + 0x84) /\
    (Z.abs 32767 + 0x84 <= 31 * 2 ^ (exponent + 3) \/
     (exponent = 7 /\ 31 * 2 ^ 10 < Z.abs 32767 + 0x84)) /\
    0 <= 0 + 16 * exponent + ((Z.abs 32767 + 0x84) / 2 ^ (exponent + 3)) mod 16
      <= 255 /\
    linearToMulaw 32767 =
      - (0 + 16 * exponent + ((Z.abs 32767 + 0x84) / 2 ^ (exponent + 3)) mod 16)
      - 1 /\
    -256 <= linearToMulaw 32767 <= -1 /\
    ToUint8 (linearToMulaw 32767) =
      255 - (0 + 16 * exponent +
             ((Z.abs 32767 + 0x84) / 2 ^ (exponent + 3)) mod 16).
Proof.
  split; [lia |].
  apply (linearToMulaw_complement_of_packed 32767). lia.
Defined.

(** What [convertWavToMulaw] stores for a sample of silence and for the
    loudest samples. *)
Example stored_bytes :
  map (fun linear => byte_to_Z (byte_of_Z (linearToMulaw linear)))
      [0; 100; -100; 32767; -32768] = [255; 242; 114; 143; 15].
Proof. vm_compute. reflexivity. Qed.


(** C3 at the failing input: the byte 0 decodes to the sample 0, which the
    encoder turns into -1, stored as 255: every bit differs from the byte
    that went in, where the claim allows one quantization step. *)
Theorem roundtrip_of_zero_byte :
  mulawToLinear 0 = 0 /\
  linearToMulaw (mulawToLinear 0) = -1 /\
  ToUint8 (linearToMulaw (mulawToLinear 0)) = 255 /\
  ~ (Z.abs (ToUint8 (linearToMulaw (mulawToLinear 0)) - 0) <= 1).
Proof.
  repeat split; try reflexivity.
  change (ToUint8 (linearToMulaw (mulawToLinear 0))) with 255. lia.
Qed.

(** Over all 256 bytes the stored round trip comes within one step of its
    input for the single byte 0x7F (which comes back as 0x80). *)
Lemma roundtrip_within_one_step_iff (b : Z) :
  0 <= b <= 255 ->
  (Z.abs (ToUint8 (linearToMulaw (mulawToLinear b)) - b) <= 1 <-> b = 0x7F).
Proof.
  intros Hb.
  pose proof (forallb_Z_range
    (fun z => Bool.eqb
       (Z.abs (ToUint8 (linearToMulaw (mulawToLinear z)) - z) <=? 1)
       (z =? 0x7F)) 256
    ltac:(vm_compute; reflexivity) b ltac:(lia)) as Hall.
  cbv beta in Hall. apply Bool.eqb_prop in Hall.
  rewrite <- Z.leb_le, <- Z.eqb_eq, Hall. reflexivity.
Qed.

(** Neither direction has an error path: both are total functions, and on
    bytes the decoder's sign bit comes back inverted (0x80, which decodes
    to 0 like 0x00, apart). *)
Lemma roundtrip_inverts_sign_bit (b : Z) :
  0 <= b <= 255 -> b <> 0x80 ->
  Z.land (ToUint8 (linearToMulaw (mulawToLinear b))) 0x80 <> Z.land b 0x80.
Proof.
  intros Hb Hne.
  pose proof (forallb_Z_range
    (fun z => (z =? 0x80) ||
       negb (Z.land (ToUint8 (linearToMulaw (mulawToLinear z))) 0x80
             =? Z.land z 0x80)) 256
    ltac:(vm_compute; reflexivity) b ltac:(lia)) as Hall.
  cbv beta in Hall.
  apply orb_prop in Hall as [Heq | Hdiff].
  - apply Z.eqb_eq in Heq. contradiction.
  - apply negb_true_iff in Hdiff. apply Z.eqb_neq in Hdiff. exact Hdiff.
Qed.

End CodecFacts.

(** ** The accumulator *)
Section Accumulator.

Lemma bufferAudio_unfold (audioData : Buffer) (key : string)
    (buffers : gmap string Buffer) :
  let buffer := pending key buffers ++ audioData in
  (pending key (bufferAudio audioData key buffers).1 =
     if (chunkSize <=? length buffer)%nat then drop chunkSize buffer else buffer) /\
  ((bufferAudio audioData key buffers).2 =
     if (chunkSize <=? length buffer)%nat then Some (take chunkSize buffer) else None).
Proof.
  cbn zeta. unfold bufferAudio, pending.
  assert (Hlk : default [] ((if decide (is_Some (buffers !! key)) then buffers
                             else <[key:=[]]> buffers) !! key)
                = default [] (buffers !! key)).
  { destruct (decide (is_Some (buffers !! key))) as [Hsome | Hnone];
      [reflexivity |].
    rewrite lookup_insert_eq.
    destruct (buffers !! key) eqn:E; [exfalso; apply Hnone; eauto | reflexivity]. }
  rewrite Hlk.
  destruct (chunkSize <=? length (default [] (buffers !! key) ++ audioData))%nat;
    cbn [fst snd]; rewrite lookup_insert_eq; split; reflexivity.
Qed.

(** Buffers of other streams are left alone. *)
Lemma bufferAudio_other_key (audioData : Buffer) (key other : string)
    (buffers : gmap string Buffer) :
  other <> key ->
  pending other (bufferAudio audioData key buffers).1 = pending other buffers.
Proof.
  intros Hne. unfold bufferAudio, pending.
  destruct (decide (is_Some (buffers !! key)));
    destruct (chunkSize <=? _)%nat; cbn [fst];
    repeat rewrite lookup_insert_ne by congruence; reflexivity.
Qed.

(** One call hands over at most one frame, of exactly [chunkSize] bytes,
    and neither loses nor reorders a byte. *)
Lemma bufferAudio_conserves (audioData : Buffer) (key : string)
    (buffers : gmap string Buffer) :
  concat (frames_of (bufferAudio audioData key buffers).2)
    ++ pending key (bufferAudio audioData key buffers).1
  = pending key buffers ++ audioData.
Proof.
  destruct (bufferAudio_unfold audioData key buffers) as [Hp Hf].
  rewrite Hp, Hf.
  destruct (chunkSize <=? _)%nat; cbn [frames_of concat].
  - rewrite app_nil_r. apply take_drop.
  - reflexivity.
Qed.

Lemma bufferAudio_frame_length (audioData frame : Buffer) (key : string)
    (buffers : gmap string Buffer) :
  (bufferAudio audioData key buffers).2 = Some frame ->
  length frame = chunkSize.
Proof.
  destruct (bufferAudio_unfold audioData key buffers) as [_ Hf].
  rewrite Hf.
  destruct (Nat.leb_spec chunkSize (length (pending key buffers ++ audioData)));
    [| discriminate].
  intros [= <-]. rewrite length_take. lia.
Qed.

Lemma feed_cons (audioData : Buffer) (rest : list Buffer) (key : string)
    (buffers : gmap string Buffer) :
  feed (audioData :: rest) key buffers =
  ((feed rest key (bufferAudio audioData key buffers).1).1,
   frames_of (bufferAudio audioData key buffers).2
     ++ (feed rest key (bufferAudio audioData key buffers).1).2).
Proof.
  cbn [feed].
  destruct (bufferAudio audioData key buffers) as [b' f]. cbn [fst snd].
  destruct (feed rest key b') as [b'' fs]. reflexivity.
Qed.

(** Whatever the split into calls: the frames followed by what is left
    waiting are the bytes that were waiting followed by the bytes fed. *)
Lemma feed_conserves (chunks : list Buffer) (key : string)
    (buffers : gmap string Buffer) :
  concat (feed chunks key buffers).2 ++ pending key (feed chunks key buffers).1
  = pending key buffers ++ concat chunks.
Proof.
  revert buffers. induction chunks as [| audioData rest IH]; intros buffers.
  - cbn. rewrite app_nil_r. reflexivity.
  - rewrite feed_cons. cbn [fst snd concat].
    rewrite concat_app, <- app_assoc, IH, app_assoc.
    rewrite bufferAudio_conserves, <- app_assoc. reflexivity.
Qed.

Lemma feed_frame_lengths (chunks : list Buffer) (key : string)
    (buffers : gmap string Buffer) :
  Forall (fun frame => length frame = chunkSize) (feed chunks key buffers).2.
Proof.
  revert buffers. induction chunks as [| audioData rest IH]; intros buffers.
  - constructor.
  - rewrite feed_cons. cbn [snd]. apply Forall_app. split; [| apply IH].
    destruct (bufferAudio audioData key buffers).2 as [frame |] eqn:E;
      cbn [frames_of]; [| constructor].
    constructor; [| constructor].
    eapply bufferAudio_frame_length. exact E.
Qed.

(** No more than one frame leaves per call. *)
Lemma feed_frames_le_calls (chunks : list Buffer) (key : string)
    (buffers : gmap string Buffer) :
  length (feed chunks key buffers).2 <= length chunks.
Proof.
  revert buffers. induction chunks as [| audioData rest IH]; intros buffers.
  - reflexivity.
  - rewrite feed_cons. cbn [snd]. rewrite length_app.
    specialize (IH (bufferAudio audioData key buffers).1).
    destruct (bufferAudio audioData key buffers).2; cbn [frames_of length]; lia.
Qed.

(** When no call brings more than one frame's worth of bytes, fewer than
    [chunkSize] bytes wait between calls. *)
Lemma feed_pending_bound (chunks : list Buffer) (key : string)
    (buffers : gmap string Buffer) :
  length (pending key buffers) < chunkSize ->
  Forall (fun audioData => length audioData <= chunkSize) chunks ->
  length (pending key (feed chunks key buffers).1) < chunkSize.
Proof.
  revert buffers. induction chunks as [| audioData rest IH];
    intros buffers Hp Hsmall.
  - exact Hp.
  - rewrite feed_cons. cbn [fst].
    inversion Hsmall as [| ? ? Hd Hrest]; subst.
    apply IH; [| exact Hrest].
    destruct (bufferAudio_unfold audioData key buffers) as [Hpend _].
    rewrite Hpend.
    destruct (Nat.leb_spec chunkSize (length (pending key buffers ++ audioData)))
      as [Hge | Hlt].
    + rewrite length_drop, length_app. lia.
    + exact Hlt.
Qed.

Lemma length_concat_uniform (n : nat) (frames : list Buffer) :
  Forall (fun frame => length frame = n) frames ->
  length (concat frames) = n * length frames.
Proof.
  induction 1 as [| frame frames Hf _ IH]; cbn [concat length].
  - lia.
  - rewrite length_app, IH, Hf. lia.
Qed.

(** In that case the framing is the one of the specification: from an
    empty accumulator, [L / chunkSize] frames and [L mod chunkSize] bytes
    left waiting. *)
Lemma feed_small_chunks (chunks : list Buffer) (key : string)
    (buffers : gmap string Buffer) :
  pending key buffers = [] ->
  Forall (fun audioData => length audioData <= chunkSize) chunks ->
  let L := length (concat chunks) in
  length (feed chunks key buffers).2 = L / chunkSize /\
  length (pending key (feed chunks key buffers).1) = L mod chunkSize.
Proof.
  intros Hempty Hsmall. cbn zeta.
  pose proof (feed_conserves chunks key buffers) as Hcons.
  pose proof (feed_frame_lengths chunks key buffers) as Hlens.
  pose proof (feed_pending_bound chunks key buffers) as Hbound.
  rewrite Hempty in Hcons, Hbound. cbn [app] in Hcons.
  specialize (Hbound ltac:(unfold chunkSize; cbn [length]; lia) Hsmall).
  rewrite <- Hcons, length_app.
  rewrite (length_concat_uniform chunkSize _ Hlens).
  assert (Hpos : chunkSize <> 0) by (unfold chunkSize; lia).
  split.
  - apply (Nat.div_unique _ _ _ (length (pending key (feed chunks key buffers).1)));
      [exact Hbound | reflexivity].
  - apply (Nat.mod_unique _ _ (length (feed chunks key buffers).2));
      [exact Hbound | reflexivity].
Qed.

(** C1 at the failing input: one call that brings 3200 bytes to an empty
    accumulator hands a single frame to the pipeline, where the claim
    counts [3200 / 1600 = 2], and leaves 1600 bytes waiting, where the claim
    allows fewer than 1600.  The same through the stream's listener: the
    media message of the phone leg of the fixture starts one transcription
    and leaves 1600 bytes in the session's buffer. *)
Theorem feed_two_frames_in_one_call :
  let chunk : Buffer := repeat x00 1600 ++ repeat x01 1600 in
  let result := feed [chunk] "s-phone" ∅ in
  let st' :=
    on_message Fixture.services 2
      (Some (mkStreamMessage "media" None (Some chunk))) Fixture.connected in
  result.2 = [repeat x00 1600] /\
  pending "s-phone" result.1 = repeat x01 1600 /\
  length result.2 <> length chunk / chunkSize /\
  ~ (length (pending "s-phone" result.1) < chunkSize) /\
  length (List.filter is_Transcribe (trace st')) = 1 /\
  (length <$> (audioBuffers <$> heap st' !! 0)
                ≫= (fun buffers => buffers !! streamKey Fixture.id "phone"))
  = Some 1600.
Proof.
  cbn zeta.
  assert (Hf : (feed [repeat x00 1600 ++ repeat x01 1600] "s-phone" ∅).2
               = [repeat x00 1600]) by (vm_compute; reflexivity).
  assert (Hp : pending "s-phone"
                 (feed [repeat x00 1600 ++ repeat x01 1600] "s-phone" ∅).1
               = repeat x01 1600) by (vm_compute; reflexivity).
  rewrite Hf, Hp.
  split; [reflexivity |]. split; [reflexivity |].
  rewrite length_app, !repeat_length. unfold chunkSize.
  split; [vm_compute; discriminate |].
  split; [lia |].
  split; vm_compute; reflexivity.
Qed.

End Accumulator.

(** ** The pipeline *)
Section PipelineFacts.
Context {World : Type} (services : Services World).
Import Codec.

(** What one call of each service function does to the state. *)
Lemma transcribeAudio_run (wav : Buffer) (language : string) (st : Server World) :
  transcribeAudio services wav language st =
  (Ok (transcriptions_create services wav language (world st)).1,
   with_world (transcriptions_create services wav language (world st)).2
     (with_trace (trace st ++ [Transcribe wav language]) st)).
Proof.
  unfold transcribeAudio, bind, emit, call. cbn [world with_trace].
  destruct (transcriptions_create services wav language (world st)).
  reflexivity.
Qed.

Lemma translateText_run (text fromLang toLang : string) (st : Server World) :
  translateText services text fromLang toLang st =
  (Ok (match (chat_completions_create services text fromLang toLang (world st)).1 with
       | Some content => Str.trim content
       | None => text
       end),
   with_world (chat_completions_create services text fromLang toLang (world st)).2
     (with_trace (trace st ++ [Translate text fromLang toLang]) st)).
Proof.
  unfold translateText, bind, emit, call. cbn [world with_trace].
  destruct (chat_completions_create services text fromLang toLang (world st))
    as [[content |] w]; reflexivity.
Qed.

Lemma synthesizeSpeech_run (text language : string) (st : Server World) :
  synthesizeSpeech services text language st =
  (match (speech_create services text (world st)).1 with
   | Some audio => Ok audio
   | None => Thrown
   end,
   with_world (speech_create services text (world st)).2
     (with_trace (trace st ++ [Synthesize text language]) st)).
Proof.
  unfold synthesizeSpeech, bind, emit, call. cbn [world with_trace].
  destruct (speech_create services text (world st)) as [[audio |] w];
    reflexivity.
Qed.

(** Delivery never throws; it writes to the socket registered under the
    key of the session and the target, when there is one and it is open. *)
Lemma sendAudioToParticipant_run (audioData : Buffer) (target : string)
    (session : Session) (st : Server World) :
  sendAudioToParticipant services audioData target session st =
  (Ok tt,
   match activeStreams st !! streamKey (sessionId session) target with
   | Some stream =>
       if (readyState services (h_ws stream) (world st) =? 1)%Z
       then with_trace
              (trace st ++
               [WsSend (h_ws stream)
                  (mkMediaMessage "media"
                     ("stream-" +:+ sessionId session +:+ "-" +:+ target)
                     audioData)]) st
       else st
   | None => st
   end).
Proof.
  unfold sendAudioToParticipant, try_catch, bind, get_state.
  destruct (activeStreams st !! streamKey (sessionId session) target)
    as [stream |]; [| reflexivity].
  destruct (readyState services (h_ws stream) (world st) =? 1)%Z; reflexivity.
Qed.

Lemma same_languages (participant : option string) (session : Session) :
  phone (languages session) = web (languages session) ->
  sourceLanguage participant session = targetLanguage participant session.
Proof.
  intros Heq. unfold sourceLanguage, targetLanguage.
  destruct (is_phone participant); congruence.
Qed.

(** C4: on a session whose two languages are equal the pipeline returns at
    once, for either leg: no service is called (the trace and the outside
    world are as before) and nothing is written to any socket; in fact the
    whole state is unchanged. *)
Theorem same_language_skip (audioData : Buffer) (sourceParticipant : option string)
    (session : Session) (st : Server World) :
  phone (languages session) = web (languages session) ->
  translateAndForwardAudio services audioData sourceParticipant session st
    = (Ok tt, st) /\
  trace (translateAndForwardAudio services audioData sourceParticipant session st).2
    = trace st.
Proof.
  intros Heq.
  assert (Hrun : translateAndForwardAudio services audioData sourceParticipant
                   session st = (Ok tt, st)).
  { unfold translateAndForwardAudio, try_catch.
    rewrite (same_languages sourceParticipant session Heq), String.eqb_refl.
    reflexivity. }
  rewrite Hrun. split; reflexivity.
Qed.


Lemma bind_ok {A B : Type} (m : M World A) (k : A -> M World B)
    (st st' : Server World) (a : A) :
  m st = (Ok a, st') -> bind m k st = k a st'.
Proof. intros Hm. unfold bind. rewrite Hm. reflexivity. Qed.

Lemma bind_thrown {A B : Type} (m : M World A) (k : A -> M World B)
    (st st' : Server World) :
  m st = (Thrown, st') -> bind m k st = (Thrown, st').
Proof. intros Hm. unfold bind. rewrite Hm. reflexivity. Qed.

Lemma length_zero_eqb (s : string) :
  s <> "" -> (String.length s =? 0)%nat = false.
Proof.
  intros Hs. destruct s as [| c rest]; [contradiction | reflexivity].
Qed.

(** The pipeline up to the synthesis call, when the languages differ and
    the transcript is not blank. *)
Lemma pipeline_until_synthesis (audioData wav : Buffer)
    (sourceParticipant : option string) (session : Session) (st : Server World)
    (text : string) (completion : option string) (w1 w2 : World) :
  let source := sourceLanguage sourceParticipant session in
  let target := targetLanguage sourceParticipant session in
  source <> target ->
  convertMulawToWav audioData = Some wav ->
  transcriptions_create services wav source (world st) = (Some text, w1) ->
  Str.trim text <> "" ->
  chat_completions_create services text source target w1 = (completion, w2) ->
  translateAndForwardAudio services audioData sourceParticipant session st =
  try_catch
    (bind (synthesizeSpeech services (translation_of text completion) target)
       (fun translatedAudio =>
          sendAudioToParticipant services (convertWavToMulaw translatedAudio)
            (counterpart sourceParticipant) session))
    (with_world w2
       (with_trace
          (trace st ++ [Transcribe wav source; Translate text source target])
          st)).
Proof.
  cbn zeta. intros Hlang Hwav Htr Htext Hchat.
  unfold translateAndForwardAudio.
  apply String.eqb_neq in Hlang. rewrite Hlang, Hwav.
  unfold try_catch at 1 2. f_equal.
  rewrite (bind_ok _ _ st st wav) by reflexivity.
  rewrite (bind_ok _ _ st
             (with_world w1
                (with_trace
                   (trace st ++
                    [Transcribe wav (sourceLanguage sourceParticipant session)])
                   st)) (Some text))
    by (rewrite transcribeAudio_run, Htr; reflexivity).
  rewrite (length_zero_eqb _ Htext).
  rewrite (bind_ok _ _ _
             (with_world w2
                (with_trace
                   (trace st ++
                    [Transcribe wav (sourceLanguage sourceParticipant session);
                     Translate text (sourceLanguage sourceParticipant session)
                       (targetLanguage sourceParticipant session)])
                   st)) (translation_of text completion)).
  - reflexivity.
  - rewrite translateText_run. cbn [world with_world with_trace trace].
    rewrite Hchat. cbn [fst snd]. rewrite <- app_assoc. reflexivity.
Qed.

(** From there on: the synthesis call and, when it answers, the delivery. *)
Lemma synthesis_and_delivery (translation target : string)
    (sourceParticipant : option string) (session : Session) (st : Server World) :
  try_catch
    (bind (synthesizeSpeech services translation target)
       (fun translatedAudio =>
          sendAudioToParticipant services (convertWavToMulaw translatedAudio)
            (counterpart sourceParticipant) session)) st =
  let st' := with_world (speech_create services translation (world st)).2
               (with_trace (trace st ++ [Synthesize translation target]) st) in
  match (speech_create services translation (world st)).1 with
  | Some audio =>
      sendAudioToParticipant services (convertWavToMulaw audio)
        (counterpart sourceParticipant) session st'
  | None => (Ok tt, st')
  end.
Proof.
  cbn zeta. unfold try_catch.
  destruct (speech_create services translation (world st)) as [[audio |] w] eqn:E;
    cbn [fst snd].
  - rewrite (bind_ok _ _ st
               (with_world w
                  (with_trace (trace st ++ [Synthesize translation target]) st))
               audio)
      by (rewrite synthesizeSpeech_run, E; reflexivity).
    rewrite sendAudioToParticipant_run. reflexivity.
  - rewrite (bind_thrown _ _ st
               (with_world w
                  (with_trace (trace st ++ [Synthesize translation target]) st)))
      by (rewrite synthesizeSpeech_run, E; reflexivity).
    reflexivity.
Qed.

(** Neither the pipeline nor the stream's audio handler lets an exception
    out. *)
Lemma try_catch_ok (body : M World unit) (st : Server World) :
  (try_catch body st).1 = Ok tt.
Proof.
  unfold try_catch. destruct (body st) as [[[] |] st']; reflexivity.
Qed.

(** C5, amended: when the languages differ, the transcript is not blank and
    the translation call fails, the pipeline does not abort; the synthesis
    service is called with exactly the transcript, in the language of the
    other leg; and when that call answers, its audio is encoded and handed
    to the delivery for the other leg ([web] for a frame from [phone],
    [phone] for a frame from anyone else), which writes it to the socket
    registered for that leg of the session when there is one and it is
    open, and writes nothing otherwise. *)
Theorem translation_failure_falls_back (audioData wav : Buffer)
    (sourceParticipant : option string) (session : Session) (st : Server World)
    (text : string) (w1 w2 : World) :
  let fromPhone := bool_decide (sourceParticipant = Some "phone") in
  let source :=
    if fromPhone then phone (languages session) else web (languages session) in
  let target :=
    if fromPhone then web (languages session) else phone (languages session) in
  let other := if fromPhone then "web" else "phone" in
  source <> target ->
  convertMulawToWav audioData = Some wav ->
  transcriptions_create services wav source (world st) = (Some text, w1) ->
  Str.trim text <> "" ->
  chat_completions_create services text source target w1 = (None, w2) ->
  let called :=
    trace st ++ [Transcribe wav source; Translate text source target;
                 Synthesize text target] in
  let result :=
    translateAndForwardAudio services audioData sourceParticipant session st in
  result.1 = Ok tt /\
  (exists rest, trace result.2 = called ++ rest) /\
  forall (audio : Buffer) (w3 : World),
    speech_create services text w2 = (Some audio, w3) ->
    result =
      sendAudioToParticipant services (convertWavToMulaw audio)
        other session (with_world w3 (with_trace called st)) /\
    (forall stream : StreamHandle,
       activeStreams st !! streamKey (sessionId session) other = Some stream ->
       readyState services (h_ws stream) w3 = 1%Z ->
       trace result.2 =
         called ++
         [WsSend (h_ws stream)
            (mkMediaMessage "media"
               ("stream-" +:+ sessionId session +:+ "-" +:+ other)
               (convertWavToMulaw audio))]) /\
    (activeStreams st !! streamKey (sessionId session) other = None \/
     (exists stream : StreamHandle,
        activeStreams st !! streamKey (sessionId session) other = Some stream /\
        readyState services (h_ws stream) w3 <> 1%Z) ->
     trace result.2 = called).
Proof.
  cbn zeta.
  change (if bool_decide (sourceParticipant = Some "phone")
          then phone (languages session) else web (languages session))
    with (sourceLanguage sourceParticipant session).
  change (if bool_decide (sourceParticipant = Some "phone")
          then web (languages session) else phone (languages session))
    with (targetLanguage sourceParticipant session).
  change (if bool_decide (sourceParticipant = Some "phone")
          then "web" else "phone")
    with (counterpart sourceParticipant).
  intros Hlang Hwav Htr Htext Hfail.
  rewrite (pipeline_until_synthesis audioData wav sourceParticipant session st
             text None w1 w2 Hlang Hwav Htr Htext Hfail).
  cbn [translation_of].
  rewrite synthesis_and_delivery. cbn zeta.
  cbn [world with_world with_trace trace].
  rewrite <- !app_assoc. cbn [app].
  split; [| split].
  - destruct (speech_create services text w2) as [[audio |] w3]; cbn [fst snd];
      [rewrite sendAudioToParticipant_run |]; reflexivity.
  - destruct (speech_create services text w2) as [[audio |] w3]; cbn [fst snd].
    + rewrite sendAudioToParticipant_run. cbn [snd activeStreams with_world
        with_trace world trace].
      destruct (activeStreams st !! _) as [stream |];
        [destruct (_ =? 1)%Z |]; cbn [trace with_trace with_world];
        eexists; try reflexivity; symmetry; apply app_nil_r.
    + exists []. cbn [trace with_trace with_world]. symmetry. apply app_nil_r.
  - intros audio w3 Hsynth. rewrite Hsynth. cbn [fst snd].
    split; [reflexivity |].
    rewrite sendAudioToParticipant_run.
    cbn [snd activeStreams with_world with_trace world trace].
    split.
    + intros stream Hstream Hopen. rewrite Hstream, Hopen. reflexivity.
    + intros [Hnone | (stream & Hstream & Hclosed)].
      * rewrite Hnone. reflexivity.
      * rewrite Hstream. apply Z.eqb_neq in Hclosed. rewrite Hclosed.
        reflexivity.
Qed.

(** C6: when the synthesis call of a frame fails, the pipeline returns
    normally with nothing written to any socket; it has called the three
    services and changed nothing else, so sessions, streams, their
    listeners and the timers are as before; and a later frame of the same
    stream whose synthesis answers is encoded and written to the socket of
    the other leg ([web] for a stream from [phone], [phone] for a stream
    from anyone else). *)
Theorem synthesis_failure_aborts_frame_only (audioData wav : Buffer)
    (sourceParticipant : option string) (session : Session) (st : Server World)
    (text : string) (completion : option string) (w1 w2 w3 : World) :
  let fromPhone := bool_decide (sourceParticipant = Some "phone") in
  let source :=
    if fromPhone then phone (languages session) else web (languages session) in
  let target :=
    if fromPhone then web (languages session) else phone (languages session) in
  let other := if fromPhone then "web" else "phone" in
  let said :=
    match completion with
    | Some content => Str.trim content
    | None => text
    end in
  source <> target ->
  convertMulawToWav audioData = Some wav ->
  transcriptions_create services wav source (world st) = (Some text, w1) ->
  Str.trim text <> "" ->
  chat_completions_create services text source target w1 = (completion, w2) ->
  speech_create services said w2 = (None, w3) ->
  let result :=
    translateAndForwardAudio services audioData sourceParticipant session st in
  result =
    (Ok tt,
     with_world w3
       (with_trace
          (trace st ++
           [Transcribe wav source; Translate text source target;
            Synthesize said target]) st)) /\
  (heap result.2 = heap st /\
   activeSessions result.2 = activeSessions st /\
   activeStreams result.2 = activeStreams st /\
   connections result.2 = connections st /\
   timers result.2 = timers st) /\
  forall (audioData' wav' audio' : Buffer) (text' : string)
         (completion' : option string) (w1' w2' w3' : World)
         (stream : StreamHandle),
    let said' :=
      match completion' with
      | Some content => Str.trim content
      | None => text'
      end in
    convertMulawToWav audioData' = Some wav' ->
    transcriptions_create services wav' source w3 = (Some text', w1') ->
    Str.trim text' <> "" ->
    chat_completions_create services text' source target w1'
      = (completion', w2') ->
    speech_create services said' w2' = (Some audio', w3') ->
    activeStreams st !! streamKey (sessionId session) other = Some stream ->
    readyState services (h_ws stream) w3' = 1%Z ->
    trace (translateAndForwardAudio services audioData' sourceParticipant
             session result.2).2 =
    trace result.2 ++
    [Transcribe wav' source; Translate text' source target;
     Synthesize said' target;
     WsSend (h_ws stream)
       (mkMediaMessage "media"
          ("stream-" +:+ sessionId session +:+ "-" +:+ other)
          (convertWavToMulaw audio'))].
Proof.
  cbn zeta.
  change (if bool_decide (sourceParticipant = Some "phone")
          then phone (languages session) else web (languages session))
    with (sourceLanguage sourceParticipant session).
  change (if bool_decide (sourceParticipant = Some "phone")
          then web (languages session) else phone (languages session))
    with (targetLanguage sourceParticipant session).
  change (if bool_decide (sourceParticipant = Some "phone")
          then "web" else "phone")
    with (counterpart sourceParticipant).
  fold (translation_of text completion).
  intros Hlang Hwav Htr Htext Hchat Hsynth.
  assert (Hrun :
    translateAndForwardAudio services audioData sourceParticipant session st =
    (Ok tt,
     with_world w3
       (with_trace
          (trace st ++
           [Transcribe wav (sourceLanguage sourceParticipant session);
            Translate text (sourceLanguage sourceParticipant session)
              (targetLanguage sourceParticipant session);
            Synthesize (translation_of text completion)
              (targetLanguage sourceParticipant session)]) st))).
  { rewrite (pipeline_until_synthesis audioData wav sourceParticipant session st
               text completion w1 w2 Hlang Hwav Htr Htext Hchat).
    rewrite synthesis_and_delivery. cbn zeta.
    cbn [world with_world with_trace trace].
    rewrite Hsynth. cbn [fst snd].
    rewrite <- app_assoc. reflexivity. }
  rewrite Hrun. cbn [snd].
  split; [reflexivity |].
  split; [repeat split |].
  intros audioData' wav' audio' text' completion' w1' w2' w3' stream.
  cbn zeta. fold (translation_of text' completion').
  intros Hwav' Htr' Htext' Hchat' Hsynth' Hstream Hopen.
  rewrite (pipeline_until_synthesis audioData' wav' sourceParticipant session
             (with_world w3
                (with_trace
                   (trace st ++
                    [Transcribe wav (sourceLanguage sourceParticipant session);
                     Translate text (sourceLanguage sourceParticipant session)
                       (targetLanguage sourceParticipant session);
                     Synthesize (translation_of text completion)
                       (targetLanguage sourceParticipant session)]) st))
             text' completion' w1' w2' Hlang Hwav' Htr' Htext' Hchat').
  rewrite synthesis_and_delivery. cbn zeta.
  cbn [world with_world with_trace trace].
  rewrite Hsynth'. cbn [fst snd].
  rewrite sendAudioToParticipant_run.
  cbn [snd activeStreams with_world with_trace world trace].
  rewrite Hstream, Hopen. cbn [trace with_trace].
  rewrite <- !app_assoc. reflexivity.
Qed.

End PipelineFacts.

Lemma same_language_skip_witness :
  phone (languages Fixture.monolingual) = web (languages Fixture.monolingual) /\
  (translateAndForwardAudio Fixture.services Fixture.frame (Some "phone")
     Fixture.monolingual Fixture.connected = (Ok tt, Fixture.connected) /\
   trace (translateAndForwardAudio Fixture.services Fixture.frame (Some "phone")
            Fixture.monolingual Fixture.connected).2
   = trace Fixture.connected).
Proof.
  split; [reflexivity |].
  apply (same_language_skip Fixture.services Fixture.frame (Some "phone")
           Fixture.monolingual Fixture.connected).
  reflexivity.
Defined.


(** The fixture with the synthesis service past its first call: a frame
    from the phone is spoken into the browser's socket, and a frame from
    the browser into the phone's. *)
Lemma translation_failure_falls_back_witness :
  let st := with_world 1 Fixture.connected in
  let wav : Buffer := [x00; x82; x00; x7e; x00; x00] in
  let mulaw := Codec.convertWavToMulaw [x10; x00; xf0; xff] in
  Str.trim "hola" = "hola" /\
  (activeStreams st !! streamKey Fixture.id "web"
   = Some (mkStreamHandle 1 (Some "web") Fixture.id) /\
   activeStreams st !! streamKey Fixture.id "phone"
   = Some (mkStreamHandle 2 (Some "phone") Fixture.id)) /\
  trace (translateAndForwardAudio Fixture.services Fixture.frame (Some "phone")
           Fixture.session st).2 =
    (trace st ++ [Transcribe wav "es"; Translate "hola" "es" "en";
                  Synthesize "hola" "en"]) ++
    [WsSend 1
       (mkMediaMessage "media" ("stream-" +:+ Fixture.id +:+ "-" +:+ "web")
          mulaw)] /\
  trace (translateAndForwardAudio Fixture.services Fixture.frame (Some "web")
           Fixture.session st).2 =
    (trace st ++ [Transcribe wav "en"; Translate "hola" "en" "es";
                  Synthesize "hola" "es"]) ++
    [WsSend 2
       (mkMediaMessage "media" ("stream-" +:+ Fixture.id +:+ "-" +:+ "phone")
          mulaw)].
Proof.
  cbn zeta.
  assert (Hweb : activeStreams (with_world 1 Fixture.connected)
                   !! streamKey Fixture.id "web"
                 = Some (mkStreamHandle 1 (Some "web") Fixture.id))
    by (vm_compute; reflexivity).
  assert (Hphone : activeStreams (with_world 1 Fixture.connected)
                     !! streamKey Fixture.id "phone"
                   = Some (mkStreamHandle 2 (Some "phone") Fixture.id))
    by (vm_compute; reflexivity).
  split; [vm_compute; reflexivity |].
  split; [split; assumption |].
  split.
  - destruct (translation_failure_falls_back Fixture.services Fixture.frame
                [x00; x82; x00; x7e; x00; x00] (Some "phone") Fixture.session
                (with_world 1 Fixture.connected) "hola" 1 1)
      as (_ & _ & Hsend).
    + vm_compute. discriminate.
    + vm_compute. reflexivity.
    + reflexivity.
    + vm_compute. discriminate.
    + reflexivity.
    + destruct (Hsend [x10; x00; xf0; xff] 2 eq_refl) as (_ & Hwritten & _).
      exact (Hwritten (mkStreamHandle 1 (Some "web") Fixture.id) Hweb eq_refl).
  - destruct (translation_failure_falls_back Fixture.services Fixture.frame
                [x00; x82; x00; x7e; x00; x00] (Some "web") Fixture.session
                (with_world 1 Fixture.connected) "hola" 1 1)
      as (_ & _ & Hsend).
    + vm_compute. discriminate.
    + vm_compute. reflexivity.
    + reflexivity.
    + vm_compute. discriminate.
    + reflexivity.
    + destruct (Hsend [x10; x00; xf0; xff] 2 eq_refl) as (_ & Hwritten & _).
      exact (Hwritten (mkStreamHandle 2 (Some "phone") Fixture.id) Hphone
               eq_refl).
Defined.

(** C5 as stated fails when the synthesis service is down as well: the
    translation call has failed on a transcript that is not blank, the
    counterpart's stream is registered and its socket open, and yet the
    frame ends with the synthesis call and nothing is written. *)
Lemma fallback_frame_not_routed :
  let st := Fixture.connected in
  let wav : Buffer := [x00; x82; x00; x7e; x00; x00] in
  let result :=
    translateAndForwardAudio Fixture.services Fixture.frame (Some "phone")
      Fixture.session st in
  transcriptions_create Fixture.services wav "es" (world st) = (Some "hola", 0) /\
  Str.trim "hola" <> "" /\
  chat_completions_create Fixture.services "hola" "es" "en" 0 = (None, 0) /\
  activeStreams st !! streamKey Fixture.id "web"
    = Some (mkStreamHandle 1 (Some "web") Fixture.id) /\
  readyState Fixture.services 1 (world result.2) = 1%Z /\
  trace result.2 =
    [Transcribe wav "es"; Translate "hola" "es" "en"; Synthesize "hola" "en"] /\
  ~ (exists ws msg, In (WsSend ws msg) (trace result.2)).
Proof.
  cbn zeta.
  assert (Htrace :
    trace (translateAndForwardAudio Fixture.services Fixture.frame
             (Some "phone") Fixture.session Fixture.connected).2 =
    [Transcribe [x00; x82; x00; x7e; x00; x00] "es";
     Translate "hola" "es" "en"; Synthesize "hola" "en"])
    by (vm_compute; reflexivity).
  rewrite Htrace.
  repeat split; try (vm_compute; reflexivity).
  - vm_compute. discriminate.
  - intros (ws & msg & Hin). cbn [In] in Hin.
    destruct Hin as [H | [H | [H | []]]]; discriminate H.
Qed.

(** The fixture at its start: the synthesis call of the first frame fails,
    and the next frame of the stream is delivered; for the phone's stream
    and for the browser's. *)
Lemma synthesis_failure_aborts_frame_only_witness :
  let st := Fixture.connected in
  let wav : Buffer := [x00; x82; x00; x7e; x00; x00] in
  let mulaw := Codec.convertWavToMulaw [x10; x00; xf0; xff] in
  let fromPhone :=
    translateAndForwardAudio Fixture.services Fixture.frame (Some "phone")
      Fixture.session st in
  let fromWeb :=
    translateAndForwardAudio Fixture.services Fixture.frame (Some "web")
      Fixture.session st in
  (fromPhone =
     (Ok tt,
      with_world 1
        (with_trace
           (trace st ++
            [Transcribe wav "es"; Translate "hola" "es" "en";
             Synthesize "hola" "en"]) st)) /\
   trace (translateAndForwardAudio Fixture.services Fixture.frame (Some "phone")
            Fixture.session fromPhone.2).2 =
   trace fromPhone.2 ++
   [Transcribe wav "es"; Translate "hola" "es" "en"; Synthesize "hola" "en";
    WsSend 1
      (mkMediaMessage "media" ("stream-" +:+ Fixture.id +:+ "-" +:+ "web")
         mulaw)]) /\
  (fromWeb =
     (Ok tt,
      with_world 1
        (with_trace
           (trace st ++
            [Transcribe wav "en"; Translate "hola" "en" "es";
             Synthesize "hola" "es"]) st)) /\
   trace (translateAndForwardAudio Fixture.services Fixture.frame (Some "web")
            Fixture.session fromWeb.2).2 =
   trace fromWeb.2 ++
   [Transcribe wav "en"; Translate "hola" "en" "es"; Synthesize "hola" "es";
    WsSend 2
      (mkMediaMessage "media" ("stream-" +:+ Fixture.id +:+ "-" +:+ "phone")
         mulaw)]).
Proof.
  cbn zeta. split.
  - destruct (synthesis_failure_aborts_frame_only Fixture.services Fixture.frame
                [x00; x82; x00; x7e; x00; x00] (Some "phone") Fixture.session
                Fixture.connected "hola" None 0 0 1)
      as (Hrun & _ & Hnext).
    + vm_compute. discriminate.
    + vm_compute. reflexivity.
    + reflexivity.
    + vm_compute. discriminate.
    + reflexivity.
    + reflexivity.
    + split; [exact Hrun |].
      apply (Hnext Fixture.frame [x00; x82; x00; x7e; x00; x00]
               [x10; x00; xf0; xff] "hola" None 1 1 2
               (mkStreamHandle 1 (Some "web") Fixture.id)).
      * vm_compute. reflexivity.
      * reflexivity.
      * vm_compute. discriminate.
      * reflexivity.
      * reflexivity.
      * vm_compute. reflexivity.
      * reflexivity.
  - destruct (synthesis_failure_aborts_frame_only Fixture.services Fixture.frame
                [x00; x82; x00; x7e; x00; x00] (Some "web") Fixture.session
                Fixture.connected "hola" None 0 0 1)
      as (Hrun & _ & Hnext).
    + vm_compute. discriminate.
    + vm_compute. reflexivity.
    + reflexivity.
    + vm_compute. discriminate.
    + reflexivity.
    + reflexivity.
    + split; [exact Hrun |].
      apply (Hnext Fixture.frame [x00; x82; x00; x7e; x00; x00]
               [x10; x00; xf0; xff] "hola" None 1 1 2
               (mkStreamHandle 2 (Some "phone") Fixture.id)).
      * vm_compute. reflexivity.
      * reflexivity.
      * vm_compute. discriminate.
      * reflexivity.
      * reflexivity.
      * vm_compute. reflexivity.
      * reflexivity.
Defined.

(** ** Incoming calls *)
Section IncomingCallFacts.
Context {World : Type}.
Local Open Scope Z_scope.

Lemma sort_insert_head {A : Type} (key : A -> Z) (x : A) (sorted : list A) :
  exists h, head (sort_insert (fun a b => key b - key a) x sorted) = Some h /\
            (h = x \/ head sorted = Some h) /\
            key x <= key h /\
            (forall y, head sorted = Some y -> key y <= key h).
Proof.
  destruct sorted as [| y rest]; cbn [sort_insert head].
  - exists x. split; [reflexivity |]. split; [left; reflexivity |].
    split; [lia |]. intros y Hy. discriminate.
  - destruct (Z.leb_spec (key y - key x) 0) as [Hle | Hgt]; cbn [head].
    + exists x. split; [reflexivity |]. split; [left; reflexivity |].
      split; [lia |]. intros y' [= <-]. lia.
    + exists y. split; [reflexivity |]. split; [right; reflexivity |].
      split; [lia |]. intros y' [= <-]. lia.
Qed.

(** The head of the sorted array is an element with the largest key. *)
Lemma sort_head_greatest {A : Type} (key : A -> Z) (l : list A) :
  match head (sort (fun a b => key b - key a) l) with
  | Some h => In h l /\ forall y, In y l -> key y <= key h
  | None => l = []
  end.
Proof.
  induction l as [| x rest IH]; [reflexivity |].
  cbn [sort].
  destruct (sort_insert_head key x (sort (fun a b => key b - key a) rest))
    as (h & Hh & Horigin & Hx & Hrest).
  rewrite Hh. split.
  - destruct Horigin as [-> | Hold]; [left; reflexivity |].
    rewrite Hold in IH. right. apply IH.
  - intros y [<- | Hy]; [exact Hx |].
    destruct (head (sort (fun a b => key b - key a) rest)) as [h' |] eqn:E.
    + destruct IH as [_ IH]. specialize (Hrest h' eq_refl).
      specialize (IH y Hy). lia.
    + subst rest. contradiction.
Qed.

(** C7 as stated fails for a browser call that names no session: it is
    attached to the session that is waiting for its second leg. *)
Lemma web_client_joins_waiting_session :
  let req :=
    mkRequest "relay.example" None (Some "web") None (Some "client:alice")
              None (Some "CA02") None None in
  let st := Fixture.connected in
  resolves (query_session req) st = false /\
  (handleIncomingCall req st).1 =
    [ConnectStream
       "wss://relay.example/media-stream?session=1b9d6bcd-bbfd-4b2d-9b5d-ab8dfbbd4bed&participant=web";
     DialConference "translation-1b9d6bcd-bbfd-4b2d-9b5d-ab8dfbbd4bed"
       "https://relay.example/conference-status?session=1b9d6bcd-bbfd-4b2d-9b5d-ab8dfbbd4bed&participant=web"] /\
  (status <$> heap (handleIncomingCall req st).2 !! 0%nat = Some web_joining) /\
  ((fun s => p_from <$> participants s !! "web")
     <$> heap (handleIncomingCall req st).2 !! 0%nat
   = Some (Some (Some "client:alice"))) /\
  ~ In Hangup (handleIncomingCall req st).1.
Proof.
  cbn zeta. repeat split; try (vm_compute; reflexivity).
  intros Hin.
  assert (Hverbs : forallb (fun v => match v with Hangup => false | _ => true end)
                     (handleIncomingCall
                        (mkRequest "relay.example" None (Some "web") None
                           (Some "client:alice") None (Some "CA02") None None)
                        Fixture.connected).1 = true)
    by (vm_compute; reflexivity).
  rewrite forallb_forall in Hverbs. specialize (Hverbs Hangup Hin).
  discriminate.
Qed.

Lemma session_objects_lookup (r : ref) (s : Session) (st : Server World) :
  In (r, s) (session_objects st) -> heap st !! r = Some s.
Proof.
  unfold session_objects. intros Hin.
  apply list_elem_of_In in Hin.
  apply list_elem_of_omap in Hin as (r' & _ & Hsome).
  destruct (heap st !! r') as [s' |] eqn:E; [| discriminate].
  cbn in Hsome. injection Hsome as <- <-. exact E.
Qed.

Lemma update_session_lookup (r : ref) (f : Session -> Session) (s : Session)
    (st : Server World) :
  heap st !! r = Some s ->
  heap (update_session r f st) !! r = Some (f s) /\
  (forall r', r' <> r -> heap (update_session r f st) !! r' = heap st !! r') /\
  activeSessions (update_session r f st) = activeSessions st /\
  activeStreams (update_session r f st) = activeStreams st /\
  timers (update_session r f st) = timers st.
Proof.
  intros Hs. unfold update_session.
  cbn [heap activeSessions activeStreams timers with_heap].
  split; [rewrite list_lookup_alter_eq, Hs; reflexivity |].
  split; [intros r' Hne; apply list_lookup_alter_ne; congruence |].
  repeat split.
Qed.

(** The test of the browser branch, read off the request: the type is
    [web], no session id is given, and the caller's address starts with
    [client:]. *)
Lemma web_client_without_session_spec (req : Request) :
  web_client_without_session req = true <->
  query_type req = Some "web" /\ Str.truthy (query_session req) = false /\
  exists from, body_From req = Some from /\ Str.startsWith "client:" from = true.
Proof.
  unfold web_client_without_session, participantType. split.
  - intros H.
    apply andb_prop in H as [H Hprefix]. apply andb_prop in H as [H Hfrom].
    apply andb_prop in H as [Htype Hsession].
    split; [| split].
    + destruct (query_type req) as [type |]; cbn [Str.truthy default] in Htype;
        [| discriminate Htype].
      destruct (String.eqb_spec type ""); cbn [negb] in Htype;
        [discriminate Htype |].
      apply String.eqb_eq in Htype. change (type = "web") in Htype.
      rewrite Htype. reflexivity.
    + destruct (Str.truthy (query_session req)); [discriminate | reflexivity].
    + destruct (body_From req) as [from |]; [| discriminate Hfrom].
      exists from. split; [reflexivity | exact Hprefix].
  - intros (-> & -> & from & -> & Hprefix).
    change (default "" (Some from)) with from. rewrite Hprefix.
    destruct from; [discriminate Hprefix | reflexivity].
Qed.

Lemma joinable_spec (s : Session) :
  joinable s = true <-> status s = phone_calling \/ status s = phone_answered.
Proof.
  unfold joinable. rewrite orb_true_iff, !bool_decide_eq_true. tauto.
Qed.

(** The session a browser call without session id would join. *)
Lemma recentSessions_head (st : Server World) :
  match head (recentSessions st) with
  | Some h =>
      In h (session_objects st) /\ joinable h.2 = true /\
      forall y, In y (session_objects st) -> joinable y.2 = true ->
                createdAt y.2 <= createdAt h.2
  | None => forall y, In y (session_objects st) -> joinable y.2 = false
  end.
Proof.
  assert (Hhead :
    match head (recentSessions st) with
    | Some h =>
        In h (List.filter (fun rs => joinable rs.2) (session_objects st)) /\
        forall y,
          In y (List.filter (fun rs => joinable rs.2) (session_objects st)) ->
          createdAt y.2 <= createdAt h.2
    | None => List.filter (fun rs => joinable rs.2) (session_objects st) = []
    end)
    by apply (sort_head_greatest (fun rs : ref * Session => createdAt rs.2)).
  destruct (head (recentSessions st)) as [h |].
  - destruct Hhead as [Hin Hmax].
    apply List.filter_In in Hin. destruct Hin as [Hin Hjoin].
    split; [exact Hin |]. split; [exact Hjoin |].
    intros y Hy Hjoinable. apply Hmax. apply List.filter_In. split; assumption.
  - intros y Hy. destruct (joinable y.2) eqn:E; [| reflexivity].
    assert (Hfound : In y (List.filter (fun rs => joinable rs.2)
                             (session_objects st)))
      by (apply List.filter_In; split; assumption).
    rewrite Hhead in Hfound. contradiction.
Qed.

(** C7, amended: a call whose session id does not resolve gets a spoken
    message and a hangup and nothing is touched, unless it is a browser
    call (type [web], no session id, a caller address that starts with
    [client:]) while some session of the table is in status [phone_calling]
    or [phone_answered].  That call is attached to the most recently
    created of those sessions: the reply connects a media stream for the
    [web] leg of that session and dials its conference, the session's
    status becomes [web_joining] and the call is recorded as its [web]
    participant; nothing else changes. *)
Theorem unresolved_call_is_turned_away (req : Request) (st : Server World) :
  resolves (query_session req) st = false ->
  let browser :=
    query_type req = Some "web" /\ Str.truthy (query_session req) = false /\
    exists from, body_From req = Some from /\ Str.startsWith "client:" from = true in
  let waiting (s : Session) :=
    status s = phone_calling \/ status s = phone_answered in
  (~ browser ->
   handleIncomingCall req st =
   ([Say "Sorry, this session is not available. Please try again."; Hangup],
    st)) /\
  (browser ->
   (forall r s, In (r, s) (session_objects st) -> ~ waiting s) ->
   handleIncomingCall req st =
   ([Say "No active translation session found. Please start a new session.";
     Hangup], st)) /\
  (browser ->
   (exists r s, In (r, s) (session_objects st) /\ waiting s) ->
   exists (r : ref) (session : Session),
     (In (r, session) (session_objects st) /\ heap st !! r = Some session) /\
     waiting session /\
     (forall r' s', In (r', s') (session_objects st) -> waiting s' ->
                    createdAt s' <= createdAt session) /\
     (handleIncomingCall req st).1 =
       [ConnectStream
          ("wss://" +:+ host req +:+ "/media-stream?session="
           +:+ sessionId session +:+ "&participant=" +:+ "web");
        DialConference (conferenceId session)
          ("https://" +:+ host req +:+ "/conference-status?session="
           +:+ sessionId session +:+ "&participant=" +:+ "web")] /\
     let st' := (handleIncomingCall req st).2 in
     (exists s' : Session,
        heap st' !! r = Some s' /\
        status s' = web_joining /\
        participants s' !! "web"
        = Some (mkParticipant (body_CallSid req) (body_From req) (body_To req)
                  (clock st) None) /\
        (forall other, other <> "web" ->
           participants s' !! other = participants session !! other) /\
        sessionId s' = sessionId session /\
        conferenceId s' = conferenceId session /\
        languages s' = languages session /\
        audioBuffers s' = audioBuffers session) /\
     (forall r', r' <> r -> heap st' !! r' = heap st !! r') /\
     activeSessions st' = activeSessions st /\
     activeStreams st' = activeStreams st /\
     timers st' = timers st /\ trace st' = trace st).
Proof.
  intros Hunresolved. cbn zeta.
  pose proof (web_client_without_session_spec req) as Hspec.
  unfold handleIncomingCall. split; [| split].
  - intros Hnot.
    destruct (web_client_without_session req);
      [exfalso; apply Hnot, Hspec; reflexivity |].
    rewrite Hunresolved. reflexivity.
  - intros Hbrowser Hnone.
    apply Hspec in Hbrowser. rewrite Hbrowser.
    pose proof (recentSessions_head st) as Hhead.
    destruct (head (recentSessions st)) as [[r session] |]; [| reflexivity].
    exfalso. destruct Hhead as (Hfound & Hjoin & _).
    apply joinable_spec in Hjoin. exact (Hnone r session Hfound Hjoin).
  - intros Hbrowser (r0 & s0 & Hin0 & Hwait0).
    apply Hspec in Hbrowser. rewrite Hbrowser.
    pose proof (recentSessions_head st) as Hhead.
    destruct (head (recentSessions st)) as [[r session] |].
    + destruct Hhead as (Hin & Hjoin & Hmax).
      pose proof (session_objects_lookup r session st Hin) as Hs.
      exists r, session.
      split; [split; assumption |].
      split; [apply joinable_spec; exact Hjoin |].
      split.
      { intros r' s' Hin' Hwait'.
        apply (Hmax (r', s') Hin'). apply joinable_spec. exact Hwait'. }
      unfold handleWebCallWithSession. cbn [fst snd].
      split; [reflexivity |].
      match goal with
      | |- context [update_session r ?f st] =>
          destruct (update_session_lookup r f session st Hs)
            as (Hr & Hothers & Hsessions & Hstreams & Htimers);
          split; [exists (f session) |]
      end.
      * split; [exact Hr |]. split; [reflexivity |].
        cbn [participants set_participants set_status]. unfold participant_of.
        split; [apply lookup_insert_eq |].
        split; [intros other Hne; apply lookup_insert_ne; congruence |].
        repeat split.
      * split; [exact Hothers |]. split; [exact Hsessions |].
        split; [exact Hstreams |]. split; [exact Htimers | reflexivity].
    + exfalso. specialize (Hhead (r0, s0) Hin0).
      apply joinable_spec in Hwait0. cbn [snd] in Hhead. congruence.
Qed.

End IncomingCallFacts.

(** A phone call for a session that does not exist is turned away; a
    browser call without session id joins the fixture's session, which is
    waiting in status [phone_calling]. *)
Lemma unresolved_call_is_turned_away_witness :
  let stranger :=
    mkRequest "relay.example" (Some "no-such-session") (Some "phone") None
              (Some "+15550199") None (Some "CA03") None None in
  let browser :=
    mkRequest "relay.example" None (Some "web") None (Some "client:alice")
              None (Some "CA02") None None in
  (resolves (query_session stranger) Fixture.connected = false /\
   handleIncomingCall stranger Fixture.connected =
   ([Say "Sorry, this session is not available. Please try again."; Hangup],
    Fixture.connected)) /\
  (resolves (query_session browser) Fixture.connected = false /\
   (handleIncomingCall browser Fixture.connected).1 =
     [ConnectStream
        "wss://relay.example/media-stream?session=1b9d6bcd-bbfd-4b2d-9b5d-ab8dfbbd4bed&participant=web";
      DialConference "translation-1b9d6bcd-bbfd-4b2d-9b5d-ab8dfbbd4bed"
        "https://relay.example/conference-status?session=1b9d6bcd-bbfd-4b2d-9b5d-ab8dfbbd4bed&participant=web"] /\
   exists s' : Session,
     heap (handleIncomingCall browser Fixture.connected).2 !! 0%nat = Some s' /\
     status s' = web_joining /\
     participants s' !! "web"
     = Some (mkParticipant (Some "CA02") (Some "client:alice") None 0 None)).
Proof.
  cbn zeta. split.
  - assert (Hres : resolves (Some "no-such-session") Fixture.connected = false)
      by (vm_compute; reflexivity).
    split; [exact Hres |].
    destruct (unresolved_call_is_turned_away
                (mkRequest "relay.example" (Some "no-such-session")
                   (Some "phone") None (Some "+15550199") None (Some "CA03")
                   None None)
                Fixture.connected Hres) as (Haway & _).
    apply Haway. intros (Htype & _). discriminate Htype.
  - assert (Hres : resolves None Fixture.connected = false) by reflexivity.
    split; [exact Hres |].
    destruct (unresolved_call_is_turned_away
                (mkRequest "relay.example" None (Some "web") None
                   (Some "client:alice") None (Some "CA02") None None)
                Fixture.connected Hres) as (_ & _ & Hjoin).
    destruct Hjoin as (r & session & (Hin & _) & _ & _ & Hverbs & Hattached & _).
    + split; [reflexivity |]. split; [reflexivity |].
      exists "client:alice". split; reflexivity.
    + exists 0%nat, Fixture.session. split; [| left; reflexivity].
      vm_compute. left. reflexivity.
    + vm_compute in Hin. destruct Hin as [Hin | []].
      injection Hin as <- <-.
      split; [exact Hverbs |].
      destruct Hattached as (s' & Hs' & Hstatus & Hweb & _).
      exists s'. split; [exact Hs' |]. split; [exact Hstatus | exact Hweb].
Defined.

(** ** The session table and its clean-up timer *)
Section RegistryFacts.
Context {World : Type} (services : Services World).
Local Open Scope Z_scope.

Lemma get_delete_ne (id k : string) (m : SessionMap.t) :
  id <> k -> SessionMap.get id (SessionMap.delete k m) = SessionMap.get id m.
Proof.
  intros Hne. unfold SessionMap.get, SessionMap.delete.
  induction m as [| [k' v] rest IH]; [reflexivity |].
  cbn [List.filter List.find fst].
  destruct (String.eqb_spec k' k) as [-> | Hk]; cbn [negb].
  - destruct (String.eqb_spec k id) as [-> | _]; [contradiction | exact IH].
  - cbn [List.find fst]. destruct (String.eqb k' id); [reflexivity | exact IH].
Qed.

Lemma get_delete_eq (id : string) (m : SessionMap.t) :
  SessionMap.get id (SessionMap.delete id m) = None.
Proof.
  unfold SessionMap.get, SessionMap.delete.
  induction m as [| [k' v] rest IH]; [reflexivity |].
  cbn [List.filter List.find fst].
  destruct (String.eqb_spec k' id) as [-> | Hk]; cbn [negb]; [exact IH |].
  cbn [List.find fst].
  destruct (String.eqb_spec k' id) as [-> | _]; [contradiction | exact IH].
Qed.

Lemma get_delete_None (id k : string) (m : SessionMap.t) :
  SessionMap.get id m = None -> SessionMap.get id (SessionMap.delete k m) = None.
Proof.
  intros Hnone. destruct (String.eqb_spec id k) as [-> | Hne].
  - apply get_delete_eq.
  - rewrite get_delete_ne by exact Hne. exact Hnone.
Qed.

Lemma has_get (id : string) (m : SessionMap.t) :
  SessionMap.has id m = true <-> is_Some (SessionMap.get id m).
Proof. unfold SessionMap.has. apply bool_decide_eq_true. Qed.

Lemma has_get_None (id : string) (m : SessionMap.t) :
  SessionMap.get id m = None -> SessionMap.has id m = false.
Proof.
  intros Hnone. unfold SessionMap.has. apply bool_decide_eq_false.
  rewrite Hnone. intros [x Hx]. discriminate.
Qed.

(** Timers delete entries and nothing else. *)
Lemma fire_all_fields (ready : list Timer) (st : Server World) :
  let st' := foldl (fun st t => fire t st) st ready in
  heap st' = heap st /\ timers st' = timers st /\ clock st' = clock st /\
  activeStreams st' = activeStreams st /\ connections st' = connections st /\
  world st' = world st /\ trace st' = trace st.
Proof.
  revert st. induction ready as [| t rest IH]; intros st; cbn [foldl].
  - repeat split.
  - specialize (IH (fire t st)). cbn zeta in IH. exact IH.
Qed.

Lemma fire_all_keeps (id : string) (ready : list Timer) (st : Server World) :
  Forall (fun t => doomed t <> id) ready ->
  SessionMap.get id (activeSessions (foldl (fun st t => fire t st) st ready))
  = SessionMap.get id (activeSessions st).
Proof.
  revert st. induction ready as [| t rest IH]; intros st Hall; cbn [foldl].
  - reflexivity.
  - inversion Hall as [| ? ? Ht Hrest]; subst.
    rewrite IH by exact Hrest.
    unfold fire. cbn [activeSessions with_activeSessions].
    apply get_delete_ne. congruence.
Qed.

Lemma fire_all_gone (id : string) (ready : list Timer) (st : Server World) :
  SessionMap.get id (activeSessions st) = None ->
  SessionMap.get id (activeSessions (foldl (fun st t => fire t st) st ready))
  = None.
Proof.
  revert st. induction ready as [| t rest IH]; intros st Hnone; cbn [foldl].
  - exact Hnone.
  - apply IH. unfold fire. cbn [activeSessions with_activeSessions].
    apply get_delete_None. exact Hnone.
Qed.

Lemma fire_all_deletes (id : string) (ready : list Timer) (st : Server World) :
  (exists t, In t ready /\ doomed t = id) ->
  SessionMap.get id (activeSessions (foldl (fun st t => fire t st) st ready))
  = None.
Proof.
  revert st. induction ready as [| t rest IH]; intros st (t' & Hin & Hid).
  - contradiction.
  - cbn [foldl]. destruct Hin as [<- | Hin].
    + apply fire_all_gone. unfold fire. cbn [activeSessions with_activeSessions].
      rewrite Hid. apply get_delete_eq.
    + apply IH. eauto.
Qed.

Lemma Forall_filter {A : Type} (P : A -> Prop) (f : A -> bool) (l : list A) :
  Forall P l -> Forall P (List.filter f l).
Proof.
  rewrite !List.Forall_forall. intros Hall x Hin.
  apply List.filter_In in Hin. apply Hall. apply Hin.
Qed.

Lemma advance_fields (now : Z) (st : Server World) :
  heap (advance now st) = heap st /\
  clock (advance now st) = Z.max (clock st) now /\
  timers (advance now st) =
    List.filter (fun t => negb (due t <=? Z.max (clock st) now)) (timers st) /\
  activeStreams (advance now st) = activeStreams st.
Proof.
  unfold advance.
  destruct (fire_all_fields
              (List.filter (fun t => due t <=? Z.max (clock st) now) (timers st))
              st) as (Hh & _ & _ & Hs & _).
  cbn zeta in Hh, Hs.
  cbn [heap clock timers activeStreams with_clock with_timers].
  rewrite Hh, Hs. repeat split.
Qed.

Lemma advance_sessions (now : Z) (st : Server World) :
  activeSessions (advance now st) =
  activeSessions
    (foldl (fun st t => fire t st) st
       (List.filter (fun t => due t <=? Z.max (clock st) now) (timers st))).
Proof. reflexivity. Qed.

(** Time passing leaves a session alone while no clean-up of it is
    pending. *)
Lemma advance_keeps (id : string) (r : ref) (now : Z) (st : Server World) :
  registered id r st -> unscheduled id st ->
  registered id r (advance now st) /\ unscheduled id (advance now st) /\
  status_of id (advance now st) = status_of id st.
Proof.
  intros [Hget Hobj] Hun.
  destruct (advance_fields now st) as (Hheap & _ & Htimers & _).
  assert (Hget' : SessionMap.get id (activeSessions (advance now st)) = Some r).
  { rewrite advance_sessions, fire_all_keeps; [exact Hget |].
    apply Forall_filter. exact Hun. }
  split; [| split].
  - split; [exact Hget' |]. rewrite Hheap. exact Hobj.
  - unfold unscheduled. rewrite Htimers. apply Forall_filter. exact Hun.
  - unfold status_of, lookup_session. rewrite Hget', Hget, Hheap. reflexivity.
Qed.

Lemma resolves_registered (id : string) (r : ref) (st : Server World) :
  id <> "" -> registered id r st -> resolves (Some id) st = true.
Proof.
  intros Hid [Hget _]. unfold resolves, Str.truthy.
  change (default "" (Some id)) with id.
  apply andb_true_intro. split.
  - apply negb_true_iff. apply String.eqb_neq. exact Hid.
  - apply has_get. rewrite Hget. eauto.
Qed.

(** An update of the object leaves the table and the timers alone. *)
Lemma update_session_keeps (id : string) (r : ref) (f : Session -> Session)
    (st : Server World) :
  registered id r st -> unscheduled id st ->
  registered id r (update_session r f st) /\
  unscheduled id (update_session r f st) /\
  clock (update_session r f st) = clock st /\
  timers (update_session r f st) = timers st /\
  status_of id (update_session r f st)
  = (fun s => status (f s)) <$> heap st !! r.
Proof.
  intros [Hget [s Hs]] Hun.
  unfold update_session, registered, unscheduled, status_of, lookup_session.
  cbn [activeSessions heap timers clock with_heap].
  rewrite Hget. cbn [mbind option_bind].
  rewrite !list_lookup_alter_eq, !Hs.
  cbn [fmap option_fmap option_map mbind option_bind].
  repeat split; eauto.
Qed.

Lemma call_status_answered (id : string) (r : ref) (st : Server World) :
  id <> "" -> registered id r st ->
  call_status (callStatusEvent id "answered") st =
  update_session r
    (fun s => set_status phone_answered
                (set_lastCall (Some "answered") (clock st) s)) st.
Proof.
  intros Hid Hreg. unfold call_status.
  cbn [callStatusEvent query_session body_CallStatus].
  change (default "" (Some id)) with id.
  rewrite (resolves_registered id r st Hid Hreg).
  destruct Hreg as [Hget [s Hs]].
  unfold lookup_session. rewrite Hget. cbn [mbind option_bind]. rewrite Hs.
  cbn [mbind option_bind].
  rewrite bool_decide_eq_true_2 by reflexivity. reflexivity.
Qed.

Lemma conference_status_event (id : string) (participant : option string)
    (event : string) (r : ref) (st : Server World) :
  id <> "" -> registered id r st ->
  conference_status (conferenceEvent id participant event) st =
  if bool_decide (Some event = Some "participant-join") then
    if bool_decide (participant = Some "web") then
      update_session r (set_status web_joined) st
    else if bool_decide (participant = Some "phone") then
      update_session r (set_status phone_in_conference) st
    else st
  else if bool_decide (Some event = Some "participant-leave") then
    match heap st !! r with
    | Some s => participant_leave r s (default "undefined" participant) st
    | None => st
    end
  else if bool_decide (Some event = Some "conference-start") then
    update_session r (set_status conference_active) st
  else if bool_decide (Some event = Some "conference-end") then
    with_timers (timers st ++ [mkTimer (clock st + cleanupDelay) id])
      (update_session r (set_status conference_ended) st)
  else st.
Proof.
  intros Hid Hreg. unfold conference_status.
  cbn [conferenceEvent query_session query_participant
       body_StatusCallbackEvent].
  change (default "" (Some id)) with id.
  rewrite (resolves_registered id r st Hid Hreg).
  destruct Hreg as [Hget [s Hs]].
  unfold lookup_session. rewrite Hget. cbn [mbind option_bind]. rewrite Hs.
  reflexivity.
Qed.

Ltac decide_tags :=
  repeat match goal with
  | |- context [bool_decide (?a = ?b)] =>
      first [ rewrite (bool_decide_eq_true_2 (a = b)) by reflexivity
            | rewrite (bool_decide_eq_false_2 (a = b)) by discriminate ]
  end.

(** A handler that assigns the status [v] to the object. *)
Lemma status_assigned (id : string) (r : ref) (v : Status)
    (f : Session -> Session) (st : Server World) :
  (forall s, status (f s) = v) ->
  registered id r st -> unscheduled id st ->
  registered id r (update_session r f st) /\
  unscheduled id (update_session r f st) /\
  status_of id (update_session r f st) = Some v /\
  clock (update_session r f st) = clock st /\
  timers (update_session r f st) = timers st.
Proof.
  intros Hf Hreg Hun.
  destruct (update_session_keeps id r f st Hreg Hun)
    as (Hreg' & Hun' & Hclock & Htimers & Hstatus).
  destruct Hreg as [_ [s Hs]].
  rewrite Hs in Hstatus. cbn in Hstatus. rewrite Hf in Hstatus.
  repeat split; try assumption; apply Hreg'.
Qed.

(** Once the conference has ended: the session stays until its clean-up is
    due and is gone from then on. *)
Lemma cleanup_after_delay (id : string) (r : ref) (st : Server World) :
  registered id r st -> unscheduled id st ->
  let st' := with_timers (timers st ++ [mkTimer (clock st + cleanupDelay) id]) st in
  (forall now, now < clock st + cleanupDelay ->
     SessionMap.has id (activeSessions (advance now st')) = true) /\
  (forall now, clock st + cleanupDelay <= now ->
     SessionMap.has id (activeSessions (advance now st')) = false).
Proof.
  intros [Hget _] Hun. cbn zeta. split; intros now Hnow.
  - apply has_get. rewrite advance_sessions.
    cbn [clock timers with_timers].
    rewrite fire_all_keeps; [cbn [activeSessions with_timers]; rewrite Hget; eauto |].
    rewrite List.filter_app. apply Forall_app. split.
    + apply Forall_filter. exact Hun.
    + cbn [List.filter due].
      destruct (Z.leb_spec (clock st + cleanupDelay) (Z.max (clock st) now))
        as [Hle | _]; [| constructor].
      unfold cleanupDelay in *. lia.
  - apply has_get_None. rewrite advance_sessions.
    cbn [clock timers with_timers].
    apply fire_all_deletes.
    exists (mkTimer (clock st + cleanupDelay) id). split; [| reflexivity].
    apply List.filter_In. split.
    + apply in_or_app. right. left. reflexivity.
    + cbn [due]. apply Z.leb_le. lia.
Qed.

(** C8: from a registered session in status [created] with no clean-up
    pending, the five events of a completed call, at whatever times they
    arrive, take the status through [phone_answered],
    [phone_in_conference], [conference_active] and [web_joined] to
    [conference_ended]; the last handler schedules the removal for 60000 ms
    later; the session is in the table until then and absent from then
    on. *)
Theorem completed_call_scenario (id : string) (r : ref) (s : Session)
    (st : Server World) (t1 t2 t3 t4 t5 : Z) :
  id <> "" ->
  SessionMap.get id (activeSessions st) = Some r ->
  heap st !! r = Some s ->
  status s = created ->
  unscheduled id st ->
  let after (n : nat) :=
    foldl (handle services) st (take n (scenario id t1 t2 t3 t4 t5)) in
  let final := foldl (handle services) st (scenario id t1 t2 t3 t4 t5) in
  status_of id st = Some created /\
  map (fun n => status_of id (after n)) [2; 4; 6; 8; 10]%nat =
    [Some phone_answered; Some phone_in_conference; Some conference_active;
     Some web_joined; Some conference_ended] /\
  status_of id final = Some conference_ended /\
  In (mkTimer (clock final + 60000) id) (timers final) /\
  (forall now, now < clock final + 60000 ->
     SessionMap.has id (activeSessions (advance now final)) = true) /\
  (forall now, clock final + 60000 <= now ->
     SessionMap.has id (activeSessions (advance now final)) = false).
Proof.
  intros Hid Hget Hs Hcreated Hun0.
  assert (Hreg0 : registered id r st) by (split; [exact Hget | eauto]).
  cbn [scenario take foldl handle map].
  (* the state after each event *)
  destruct (advance_keeps id r t1 st Hreg0 Hun0) as (Hreg1 & Hun1 & _).
  set (st1 := advance t1 st) in *.
  rewrite (call_status_answered id r st1 Hid Hreg1).
  destruct (status_assigned id r phone_answered
              (fun s => set_status phone_answered
                          (set_lastCall (Some "answered") (clock st1) s))
              st1 (fun _ => eq_refl) Hreg1 Hun1)
    as (Hreg2 & Hun2 & Hst2 & _).
  set (st2 := update_session r _ st1) in *.
  destruct (advance_keeps id r t2 st2 Hreg2 Hun2) as (Hreg3 & Hun3 & Hst3).
  set (st3 := advance t2 st2) in *.
  rewrite (conference_status_event id (Some "phone") "participant-join" r st3
             Hid Hreg3).
  decide_tags.
  destruct (status_assigned id r phone_in_conference (set_status phone_in_conference) st3 (fun _ => eq_refl)
              Hreg3 Hun3) as (Hreg4 & Hun4 & Hst4 & _).
  set (st4 := update_session r _ st3) in *.
  destruct (advance_keeps id r t3 st4 Hreg4 Hun4) as (Hreg5 & Hun5 & Hst5).
  set (st5 := advance t3 st4) in *.
  rewrite (conference_status_event id None "conference-start" r st5 Hid Hreg5).
  decide_tags.
  destruct (status_assigned id r conference_active (set_status conference_active) st5 (fun _ => eq_refl)
              Hreg5 Hun5) as (Hreg6 & Hun6 & Hst6 & _).
  set (st6 := update_session r _ st5) in *.
  destruct (advance_keeps id r t4 st6 Hreg6 Hun6) as (Hreg7 & Hun7 & Hst7).
  set (st7 := advance t4 st6) in *.
  rewrite (conference_status_event id (Some "web") "participant-join" r st7
             Hid Hreg7).
  decide_tags.
  destruct (status_assigned id r web_joined (set_status web_joined) st7 (fun _ => eq_refl)
              Hreg7 Hun7) as (Hreg8 & Hun8 & Hst8 & _).
  set (st8 := update_session r _ st7) in *.
  destruct (advance_keeps id r t5 st8 Hreg8 Hun8) as (Hreg9 & Hun9 & Hst9).
  set (st9 := advance t5 st8) in *.
  rewrite (conference_status_event id None "conference-end" r st9 Hid Hreg9).
  decide_tags.
  destruct (status_assigned id r conference_ended (set_status conference_ended) st9 (fun _ => eq_refl)
              Hreg9 Hun9) as (Hreg10 & Hun10 & Hst10 & Hclock10 & Htimers10).
  set (st10 := update_session r _ st9) in *.
  assert (Hfinal : status_of id
                     (with_timers
                        (timers st9 ++ [mkTimer (clock st9 + cleanupDelay) id])
                        st10) = Some conference_ended) by exact Hst10.
  split.
  { unfold status_of, lookup_session. rewrite Hget. cbn [mbind option_bind].
    rewrite Hs. cbn. rewrite Hcreated. reflexivity. }
  split; [rewrite Hst2, Hst4, Hst6, Hst8, Hfinal; reflexivity |].
  split; [exact Hfinal |].
  cbn [clock timers with_timers]. rewrite Hclock10.
  change 60000 with cleanupDelay.
  split; [apply in_or_app; right; left; reflexivity |].
  rewrite <- Hclock10, <- Htimers10.
  apply (cleanup_after_delay id r st10 Hreg10 Hun10).
Qed.

End RegistryFacts.

(** A session just created, before its outgoing call is placed. *)
Lemma completed_call_scenario_witness :
  let st := run Fixture.services 0%nat [CreateSession "+15550100" "es" "en"] in
  let final :=
    foldl (handle Fixture.services) st (scenario Fixture.id 10 20 30 40 50) in
  (Fixture.id <> "" /\ status_of Fixture.id st = Some created) /\
  status_of Fixture.id final = Some conference_ended /\
  In (mkTimer (clock final + 60000) Fixture.id) (timers final) /\
  SessionMap.has Fixture.id (activeSessions (advance 60049 final)) = true /\
  SessionMap.has Fixture.id (activeSessions (advance 60050 final)) = false.
Proof.
  cbn zeta.
  destruct (completed_call_scenario Fixture.services Fixture.id 0%nat
              (mkSession Fixture.id ("translation-" +:+ Fixture.id) "+15550100"
                 (mkLanguages "es" "en") created 0 None None None ∅ ∅)
              (run Fixture.services 0%nat [CreateSession "+15550100" "es" "en"])
              10 20 30 40 50)
    as (Hstart & _ & Hend & Htimer & Hbefore & Hafter).
  - discriminate.
  - vm_compute. reflexivity.
  - vm_compute. reflexivity.
  - reflexivity.
  - constructor.
  - split; [split; [discriminate | exact Hstart] |].
    split; [exact Hend |]. split; [exact Htimer |].
    split; [apply Hbefore; vm_compute; reflexivity
           | apply Hafter; vm_compute; discriminate].
Defined.

(** ** Routing *)
Section RoutingFacts.
Context {World : Type} (services : Services World).

(** Two keys built from ids of the same length agree only when the ids
    and the participants agree. *)
Lemma append_same_length (a b x y : string) :
  String.length a = String.length b ->
  a +:+ x = b +:+ y -> a = b /\ x = y.
Proof.
  revert b. induction a as [| c a IH]; intros [| d b] Hlen Heq;
    try discriminate Hlen.
  - split; [reflexivity | exact Heq].
  - cbn in Heq. injection Heq as -> Heq.
    destruct (IH b ltac:(cbn in Hlen; lia) Heq) as [-> ->].
    split; reflexivity.
Qed.

Lemma streamKey_injective (a b p q : string) :
  String.length a = String.length b ->
  streamKey a p = streamKey b q -> a = b /\ p = q.
Proof.
  intros Hlen Heq. unfold streamKey in Heq.
  destruct (append_same_length a b _ _ Hlen Heq) as [-> Hrest].
  injection Hrest as Hrest. change (p = q) in Hrest.
  split; [reflexivity | exact Hrest].
Qed.

(** Without the common length the construction is ambiguous. *)
Example streamKey_ambiguous : streamKey "a" "b-web" = streamKey "a-b" "web".
Proof. reflexivity. Qed.

(** *** Computations that leave the keys alone *)
Lemma same_keys_refl (st : Server World) : same_keys st st.
Proof. repeat split. Qed.

Lemma same_keys_trans (st1 st2 st3 : Server World) :
  same_keys st1 st2 -> same_keys st2 st3 -> same_keys st1 st3.
Proof.
  intros (H1 & H2 & H3) (H1' & H2' & H3').
  repeat split; congruence.
Qed.

Lemma well_keyed_same_keys (st st' : Server World) :
  same_keys st st' -> well_keyed st -> well_keyed st'.
Proof.
  intros (Hheap & Hsessions & Hstreams) (H1 & H2 & H3).
  unfold well_keyed. rewrite Hheap, Hsessions, Hstreams. auto.
Qed.

Lemma quiet_ret {A : Type} (a : A) : quiet (World := World) (ret a).
Proof. intros st. apply same_keys_refl. Qed.

Lemma quiet_throw {A : Type} : quiet (World := World) (@throw World A).
Proof. intros st. apply same_keys_refl. Qed.

Lemma quiet_of_option {A : Type} (o : option A) : quiet (World := World) (of_option o).
Proof. destruct o; [apply quiet_ret | apply quiet_throw]. Qed.

Lemma quiet_emit (e : Event) : quiet (World := World) (emit e).
Proof. intros st. repeat split. Qed.

Lemma quiet_call {A : Type} (f : World -> A * World) : quiet (call f).
Proof.
  intros st. unfold call. destruct (f (world st)). repeat split.
Qed.

Lemma quiet_get_state : quiet (World := World) get_state.
Proof. intros st. apply same_keys_refl. Qed.

Lemma quiet_bind {A B : Type} (m : M World A) (k : A -> M World B) :
  quiet m -> (forall a, quiet (k a)) -> quiet (bind m k).
Proof.
  intros Hm Hk st. unfold bind. specialize (Hm st).
  destruct (m st) as [[a |] st']; cbn [snd] in *.
  - eapply same_keys_trans; [exact Hm | apply Hk].
  - exact Hm.
Qed.

Lemma quiet_try_catch (body : M World unit) : quiet body -> quiet (try_catch body).
Proof.
  intros Hbody st. unfold try_catch. specialize (Hbody st).
  destruct (body st) as [[a |] st']; exact Hbody.
Qed.

(** An in-place update that keeps the object's id. *)
Lemma same_keys_update (r : ref) (f : Session -> Session) (st : Server World) :
  (forall s, sessionId (f s) = sessionId s) ->
  same_keys st (update_session r f st).
Proof.
  intros Hf. unfold update_session, same_keys.
  cbn [heap activeSessions activeStreams with_heap].
  split; [| split; reflexivity].
  rewrite (list_fmap_alter sessionId f (fun x => x)).
  - apply list_alter_id. reflexivity.
  - apply Forall_forall. intros s _. apply Hf.
Qed.

Lemma quiet_modify_update (r : ref) (f : Session -> Session) :
  (forall s, sessionId (f s) = sessionId s) ->
  quiet (World := World) (modify (update_session r f)).
Proof. intros Hf st. apply same_keys_update. exact Hf. Qed.

Create HintDb quiet.
#[local] Hint Resolve quiet_ret quiet_throw quiet_of_option quiet_emit quiet_call
  quiet_get_state quiet_try_catch quiet_modify_update : quiet.
#[local] Hint Extern 2 (quiet (bind _ _)) =>
  apply quiet_bind; [| intros ?] : quiet.
#[local] Hint Extern 3 (quiet (match ?x with _ => _ end)) => destruct x : quiet.

Lemma quiet_transcribeAudio (wav : Buffer) (language : string) :
  quiet (transcribeAudio services wav language).
Proof. unfold transcribeAudio. auto with quiet. Qed.

Lemma quiet_translateText (text fromLang toLang : string) :
  quiet (translateText services text fromLang toLang).
Proof. unfold translateText. auto with quiet. Qed.

Lemma quiet_synthesizeSpeech (text language : string) :
  quiet (synthesizeSpeech services text language).
Proof. unfold synthesizeSpeech. auto with quiet. Qed.

Lemma quiet_sendAudioToParticipant (audioData : Buffer) (target : string)
    (session : Session) :
  quiet (sendAudioToParticipant services audioData target session).
Proof.
  intros st. rewrite sendAudioToParticipant_run. cbn [snd].
  destruct (activeStreams st !! _) as [stream |]; [| apply same_keys_refl].
  destruct (_ =? _)%Z; repeat split.
Qed.

#[local] Hint Resolve quiet_transcribeAudio quiet_translateText
  quiet_synthesizeSpeech quiet_sendAudioToParticipant : quiet.

Lemma quiet_translateAndForwardAudio (audioData : Buffer)
    (sourceParticipant : option string) (session : Session) :
  quiet (translateAndForwardAudio services audioData sourceParticipant session).
Proof.
  unfold translateAndForwardAudio.
  apply quiet_try_catch. cbn zeta.
  destruct (String.eqb _ _); [apply quiet_ret |].
  apply quiet_bind; [apply quiet_of_option | intros wav].
  apply quiet_bind; [apply quiet_transcribeAudio | intros [text |]];
    [| apply quiet_ret].
  destruct (_ =? 0)%nat; [apply quiet_ret |].
  apply quiet_bind; [apply quiet_translateText | intros translation].
  apply quiet_bind; [apply quiet_synthesizeSpeech | intros audio].
  apply quiet_sendAudioToParticipant.
Qed.

Lemma quiet_processAudioForTranslation (mediaMsg : StreamMessage)
    (participant : option string) (session : ref) :
  quiet (processAudioForTranslation services mediaMsg participant session).
Proof.
  unfold processAudioForTranslation.
  apply quiet_try_catch.
  apply quiet_bind; [apply quiet_of_option | intros audioData].
  apply quiet_bind; [apply quiet_get_state | intros st0].
  apply quiet_bind; [apply quiet_of_option | intros s].
  destruct (bufferAudio audioData _ (audioBuffers s)) as [buffers frame].
  apply quiet_bind; [apply quiet_modify_update; reflexivity | intros _].
  destruct frame; [apply quiet_translateAndForwardAudio | apply quiet_ret].
Qed.

(** *** The handlers keep the tables well keyed *)
Ltac keeps_id :=
  let s := fresh "s" in
  intros s; repeat (case_bool_decide || (destruct (_ || _)%bool)); reflexivity.

Lemma same_keys_with_timers (v : list Timer) (st st' : Server World) :
  same_keys st st' -> same_keys st (with_timers v st').
Proof. intros H. exact H. Qed.

Lemma same_keys_call_created (id sid : string) (st : Server World) :
  same_keys st (call_created id sid st).
Proof.
  unfold call_created. destruct (SessionMap.get id (activeSessions st));
    [apply same_keys_update; keeps_id | apply same_keys_refl].
Qed.

Lemma same_keys_handleIncomingCall (req : Request) (st : Server World) :
  same_keys st (handleIncomingCall req st).2.
Proof.
  unfold handleIncomingCall, handleWebCallWithSession.
  destruct (web_client_without_session req).
  - destruct (head (recentSessions st)) as [[r session] |]; cbn [snd];
      [apply same_keys_update; keeps_id | apply same_keys_refl].
  - destruct (negb (resolves (query_session req) st));
      [apply same_keys_refl |].
    destruct (lookup_session _ st) as [[r session] |]; cbn [snd];
      [apply same_keys_update; keeps_id | apply same_keys_refl].
Qed.

Lemma same_keys_handleWebCall (req : Request) (st : Server World) :
  same_keys st (handleWebCall req st).2.
Proof.
  unfold handleWebCall.
  destruct (List.find _ (session_objects st)) as [[r session] |]; cbn [snd];
    [apply same_keys_update; keeps_id | apply same_keys_refl].
Qed.

Lemma same_keys_call_status (req : Request) (st : Server World) :
  same_keys st (call_status req st).
Proof.
  unfold call_status.
  destruct (if resolves _ st then _ else _) as [[r session] |];
    [apply same_keys_update; keeps_id | apply same_keys_refl].
Qed.

Lemma same_keys_participant_leave (r : ref) (session : Session)
    (key : string) (st : Server World) :
  same_keys st (participant_leave r session key st).
Proof.
  unfold participant_leave.
  destruct (participants_read key (participants session));
    [apply same_keys_update; keeps_id | apply same_keys_refl
    | repeat split | apply same_keys_refl].
Qed.

Lemma same_keys_conference_status (req : Request) (st : Server World) :
  same_keys st (conference_status req st).
Proof.
  unfold conference_status.
  destruct (if resolves _ st then _ else _) as [[r session] |];
    [| apply same_keys_refl].
  repeat case_bool_decide;
    try apply same_keys_participant_leave;
    try apply same_keys_with_timers;
    try (apply same_keys_update; keeps_id);
    apply same_keys_refl.
Qed.

Lemma keys_set (id : string) (r : ref) (m : SessionMap.t) :
  String.length id = 36 ->
  Forall (fun kv => String.length kv.1 = 36) m ->
  Forall (fun kv => String.length kv.1 = 36) (SessionMap.set id r m).
Proof.
  intros Hid. induction 1 as [| [k v] rest Hk Hrest IH]; cbn [SessionMap.set].
  - constructor; [exact Hid | constructor].
  - destruct (String.eqb k id); constructor; assumption.
Qed.

Lemma keys_get (id : string) (r : ref) (m : SessionMap.t) :
  Forall (fun kv => String.length kv.1 = 36) m ->
  SessionMap.get id m = Some r -> String.length id = 36.
Proof.
  unfold SessionMap.get.
  induction 1 as [| [k v] rest Hk _ IH]; cbn [List.find fst]; [discriminate |].
  destruct (String.eqb_spec k id) as [<- | _]; [intros _; exact Hk | exact IH].
Qed.

Lemma well_keyed_create_session (phoneNumber phoneLanguage webLanguage : string)
    (st : Server World) :
  uuid_contract services -> well_keyed st ->
  well_keyed (create_session services phoneNumber phoneLanguage webLanguage st).
Proof.
  intros Huuid (Hsessions & Hobjects & Hstreams).
  unfold create_session. specialize (Huuid (world st)).
  destruct (uuidv4 services (world st)) as [id w]. cbn [fst] in Huuid.
  unfold well_keyed.
  cbn [activeSessions heap activeStreams with_world with_activeSessions with_heap].
  split; [| split].
  - apply keys_set; assumption.
  - rewrite fmap_app. apply Forall_app. split; [exact Hobjects |].
    constructor; [exact Huuid | constructor].
  - exact Hstreams.
Qed.

Lemma well_keyed_handleMediaStream (ws : socket)
    (sessionId participant : option string) (st : Server World) :
  well_keyed st -> well_keyed (handleMediaStream ws sessionId participant st).
Proof.
  intros (Hsessions & Hobjects & Hstreams). unfold handleMediaStream.
  destruct sessionId as [id |]; cbn [mbind option_bind];
    [| split; [| split]; assumption].
  destruct (SessionMap.get id (activeSessions st)) as [r |] eqn:Hget;
    [| split; [| split]; assumption].
  unfold well_keyed.
  cbn [activeSessions heap activeStreams with_connections with_activeStreams].
  split; [exact Hsessions |]. split; [exact Hobjects |].
  intros key handle Hlookup.
  apply lookup_insert_Some in Hlookup as [[<- <-] | [_ Hold]].
  - cbn [h_sessionId h_participant]. split; [reflexivity |].
    change (Str.of_nullable (Some id)) with id.
    eapply keys_get; eassumption.
  - apply Hstreams. exact Hold.
Qed.

Lemma well_keyed_delete_stream (key : string) (st : Server World) :
  well_keyed st ->
  well_keyed (with_activeStreams (delete key (activeStreams st)) st).
Proof.
  intros (Hsessions & Hobjects & Hstreams). unfold well_keyed.
  cbn [activeSessions heap activeStreams with_activeStreams].
  split; [exact Hsessions |]. split; [exact Hobjects |].
  intros k handle Hlookup.
  apply lookup_delete_Some in Hlookup as [_ Hold].
  apply Hstreams. exact Hold.
Qed.

Lemma well_keyed_on_message (ws : socket) (message : option StreamMessage)
    (st : Server World) :
  well_keyed st -> well_keyed (on_message services ws message st).
Proof.
  intros Hwk. unfold on_message.
  destruct (connections st !! ws) as [c |]; [| exact Hwk].
  destruct message as [msg |]; [| exact Hwk].
  destruct (String.eqb (in_event msg) "connected"); [exact Hwk |].
  destruct (String.eqb (in_event msg) "media").
  - eapply well_keyed_same_keys; [| exact Hwk].
    apply quiet_processAudioForTranslation.
  - destruct (String.eqb (in_event msg) "stop"); [| exact Hwk].
    apply well_keyed_delete_stream. exact Hwk.
Qed.

Lemma well_keyed_on_close (ws : socket) (st : Server World) :
  well_keyed st -> well_keyed (on_close ws st).
Proof.
  intros Hwk. unfold on_close.
  destruct (connections st !! ws) as [c |]; [| exact Hwk].
  apply well_keyed_delete_stream. exact Hwk.
Qed.

Lemma keys_fire_all (ready : list Timer) (st : Server World) :
  Forall (fun kv => String.length kv.1 = 36) (activeSessions st) ->
  Forall (fun kv => String.length kv.1 = 36)
         (activeSessions (foldl (fun st t => fire t st) st ready)).
Proof.
  revert st. induction ready as [| t rest IH]; intros st Hkeys; cbn [foldl].
  - exact Hkeys.
  - apply IH. unfold fire. cbn [activeSessions with_activeSessions].
    apply Forall_filter. exact Hkeys.
Qed.

Lemma well_keyed_advance (now : Z) (st : Server World) :
  well_keyed st -> well_keyed (advance now st).
Proof.
  intros (Hsessions & Hobjects & Hstreams).
  destruct (advance_fields now st) as (Hheap & _ & _ & Hs).
  unfold well_keyed. rewrite Hheap, Hs, advance_sessions.
  split; [apply keys_fire_all; exact Hsessions |].
  split; assumption.
Qed.

Lemma well_keyed_handle (a : Action) (st : Server World) :
  uuid_contract services -> well_keyed st -> well_keyed (handle services st a).
Proof.
  intros Huuid Hwk. destruct a; cbn [handle].
  - apply well_keyed_create_session; assumption.
  - eapply well_keyed_same_keys; [apply same_keys_call_created | exact Hwk].
  - eapply well_keyed_same_keys; [apply same_keys_handleIncomingCall | exact Hwk].
  - eapply well_keyed_same_keys; [apply same_keys_handleWebCall | exact Hwk].
  - eapply well_keyed_same_keys; [apply same_keys_call_status | exact Hwk].
  - eapply well_keyed_same_keys; [apply same_keys_conference_status | exact Hwk].
  - apply well_keyed_handleMediaStream. exact Hwk.
  - apply well_keyed_on_message. exact Hwk.
  - apply well_keyed_on_close. exact Hwk.
  - apply well_keyed_advance. exact Hwk.
Qed.

(** Every state the server reaches is well keyed. *)
Lemma well_keyed_run (w : World) (actions : list Action) :
  uuid_contract services -> well_keyed (run services w actions).
Proof.
  intros Huuid. unfold run.
  assert (Hinit : well_keyed (init w)).
  { split; [constructor |]. split; [constructor |].
    intros key handle Hlookup. cbn in Hlookup.
    rewrite lookup_empty in Hlookup. discriminate. }
  revert Hinit. generalize (init w).
  induction actions as [| a rest IH]; intros st Hwk; cbn [foldl].
  - exact Hwk.
  - apply IH. apply well_keyed_handle; assumption.
Qed.

(** C9: in every state the server reaches (session ids being UUIDs), for a
    session object [A] and any target participant, a stream handle
    registered for another session never sits under the key a delivery for
    [A] looks up, whatever participant strings the handles were registered
    with; so the delivery either writes nothing or writes to the socket of
    a handle registered under [A]'s own session id. *)
Theorem routing_isolation (w : World) (actions : list Action) (r : ref)
    (A : Session) (audioData : Buffer) (target : string) :
  uuid_contract services ->
  let st := run services w actions in
  heap st !! r = Some A ->
  (forall (key : string) (handle : StreamHandle),
     activeStreams st !! key = Some handle ->
     h_sessionId handle <> sessionId A ->
     key <> streamKey (sessionId A) target) /\
  (trace (sendAudioToParticipant services audioData target A st).2 = trace st \/
   exists handle : StreamHandle,
     activeStreams st !! streamKey (sessionId A) target = Some handle /\
     h_sessionId handle = sessionId A /\
     trace (sendAudioToParticipant services audioData target A st).2 =
       trace st ++
       [WsSend (h_ws handle)
          (mkMediaMessage "media"
             ("stream-" +:+ sessionId A +:+ "-" +:+ target) audioData)]).
Proof.
  intros Huuid. cbn zeta. intros HA.
  destruct (well_keyed_run w actions Huuid) as (_ & Hobjects & Hstreams).
  set (st := run services w actions) in *.
  assert (HlenA : String.length (sessionId A) = 36).
  { rewrite Forall_forall in Hobjects. apply Hobjects.
    apply list_elem_of_fmap. exists A. split; [reflexivity |].
    eapply list_elem_of_lookup_2. exact HA. }
  assert (Hsame : forall key handle,
             activeStreams st !! key = Some handle ->
             key = streamKey (sessionId A) target ->
             h_sessionId handle = sessionId A).
  { intros key handle Hlookup Hkey.
    destruct (Hstreams key handle Hlookup) as [Hbuilt Hlen].
    rewrite Hkey in Hbuilt.
    destruct (streamKey_injective (sessionId A) (h_sessionId handle) target
                (Str.of_nullable (h_participant handle))) as [Heq _];
      [congruence | exact Hbuilt | congruence]. }
  split.
  - intros key handle Hlookup Hother Hkey.
    apply Hother. eapply Hsame; eassumption.
  - rewrite sendAudioToParticipant_run. cbn [snd].
    destruct (activeStreams st !! streamKey (sessionId A) target)
      as [handle |] eqn:Hlookup; [| left; reflexivity].
    destruct (readyState services (h_ws handle) (world st) =? 1)%Z;
      [| left; reflexivity].
    right. exists handle. split; [reflexivity |].
    split; [eapply Hsame; [exact Hlookup | reflexivity] | reflexivity].
Qed.

End RoutingFacts.

(** Two sessions with their streams connected: the handles of the second
    session sit under keys a delivery for the first never looks up, and a
    frame for the first session's browser goes to socket 1, which that
    session registered, and to no other. *)
Lemma routing_isolation_witness :
  let st := run Exchange.services 0%nat Exchange.actions in
  let foreign := mkStreamHandle 2 (Some "web") Exchange.idB in
  (uuid_contract Exchange.services /\
   heap st !! 0%nat = Some Exchange.A) /\
  (activeStreams st !! streamKey Exchange.idB "web" = Some foreign /\
   h_sessionId foreign <> sessionId Exchange.A /\
   streamKey Exchange.idB "web" <> streamKey (sessionId Exchange.A) "web") /\
  (forall (key : string) (handle : StreamHandle),
     activeStreams st !! key = Some handle ->
     h_sessionId handle <> sessionId Exchange.A ->
     key <> streamKey (sessionId Exchange.A) "web") /\
  (exists handle : StreamHandle,
     activeStreams st !! streamKey (sessionId Exchange.A) "web" = Some handle /\
     h_sessionId handle = sessionId Exchange.A /\
     h_ws handle = 1%nat /\
     trace (sendAudioToParticipant Exchange.services [x00] "web"
              Exchange.A st).2 =
       trace st ++
       [WsSend (h_ws handle)
          (mkMediaMessage "media"
             ("stream-" +:+ sessionId Exchange.A +:+ "-" +:+ "web")
             [x00])]).
Proof.
  cbn zeta.
  assert (Huuid : uuid_contract Exchange.services).
  { intros w. cbn [uuidv4 Exchange.services fst].
    destruct (w =? 0)%nat; reflexivity. }
  assert (Hobj :
    heap (run Exchange.services 0%nat Exchange.actions) !! 0%nat
    = Some Exchange.A) by (vm_compute; reflexivity).
  assert (Hforeign :
    activeStreams (run Exchange.services 0%nat Exchange.actions)
      !! streamKey Exchange.idB "web"
    = Some (mkStreamHandle 2 (Some "web") Exchange.idB))
    by (vm_compute; reflexivity).
  assert (Hother : Exchange.idB <> sessionId Exchange.A) by discriminate.
  destruct (routing_isolation Exchange.services 0%nat Exchange.actions
              0%nat Exchange.A [x00] "web" Huuid Hobj)
    as [Hisolated Hdelivery].
  split; [split; [exact Huuid | exact Hobj] |].
  split.
  { split; [exact Hforeign |]. split; [exact Hother |].
    exact (Hisolated _ _ Hforeign Hother). }
  split; [exact Hisolated |].
  destruct Hdelivery as [Hsilent | (handle & Hlookup & Hsame & Hsent)].
  - exfalso.
    assert (Hlen :
      length (trace (sendAudioToParticipant Exchange.services [x00] "web"
                       Exchange.A
                       (run Exchange.services 0%nat Exchange.actions)).2)
      = 1%nat) by (vm_compute; reflexivity).
    rewrite Hsilent in Hlen. vm_compute in Hlen. discriminate Hlen.
  - exists handle. split; [exact Hlookup |]. split; [exact Hsame |].
    split; [| exact Hsent].
    assert (Hregistered :
      activeStreams (run Exchange.services 0%nat Exchange.actions)
        !! streamKey (sessionId Exchange.A) "web"
      = Some (mkStreamHandle 1 (Some "web") Exchange.idA))
      by (vm_compute; reflexivity).
    rewrite Hregistered in Hlookup. injection Hlookup as <-. reflexivity.
Defined.

(* ===================================================================== *)
(** * Further properties of the codec and the buffer converters *)
(* ===================================================================== *)
Section CodecMore.
Local Open Scope Z_scope.
Import JS Codec.

Lemma forallb_Zrange (f : Z -> bool) (n : nat) (start z : Z) :
  forallb f (Zrange start n) = true ->
  start <= z < start + Z.of_nat n -> f z = true.
Proof.
  revert start. induction n as [| n IH]; intros start Hall Hz; [lia |].
  cbn [Zrange forallb] in Hall. apply andb_prop in Hall as [Hhead Hrest].
  destruct (Z.eq_dec z start) as [-> | Hne]; [exact Hhead |].
  apply (IH (start + 1)); [exact Hrest | lia].
Qed.

Lemma byte_to_of_Z (z : Z) : byte_to_Z (byte_of_Z z) = z mod 256.
Proof.
  unfold byte_of_Z, byte_to_Z, ToUint8.
  assert (Hm : 0 <= z mod 256 < 256) by (apply Z.mod_pos_bound; lia).
  destruct (Byte.of_N (Z.to_N (z mod 256))) as [b |] eqn:E.
  - apply Byte.to_of_N in E. rewrite E. lia.
  - apply Byte.of_N_None_iff in E. lia.
Qed.

Lemma readInt16LE_written (value : Z) :
  -32768 <= value <= 32767 ->
  readInt16LE (byte_of_Z value) (byte_of_Z (Z.shiftr value 8)) = value.
Proof.
  intros Hv.
  unfold readInt16LE. rewrite !byte_to_of_Z, Z.shiftr_div_pow2 by lia.
  change (2 ^ 8) with 256.
  pose proof (Z.div_mod value 256 ltac:(lia)) as Hdm.
  pose proof (Z.mod_pos_bound value 256 ltac:(lia)) as Hr.
  assert (Hq : -128 <= value / 256 <= 127).
  { split.
    - apply Z.div_le_lower_bound; lia.
    - assert (value / 256 < 128) by (apply Z.div_lt_upper_bound; lia). lia. }
  destruct (Z_lt_le_dec (value / 256) 0) as [Hneg | Hpos].
  - replace ((value / 256) mod 256) with (value / 256 + 256).
    + destruct (Z.ltb_spec (value mod 256 + 256 * (value / 256 + 256)) 32768);
        lia.
    + apply (Z.mod_unique_pos _ _ (-1)); lia.
  - rewrite (Z.mod_small (value / 256)) by lia.
    destruct (Z.ltb_spec (value mod 256 + 256 * (value / 256)) 32768); lia.
Qed.

(** [writeInt16LE] followed by [readInt16LE] gives back every value of
    the signed 16-bit range, and [writeInt16LE] refuses every other
    value. *)
Theorem int16_write_read (value : Z) :
  (-32768 <= value <= 32767 ->
   exists lo hi : byte,
     writeInt16LE value = Some (lo, hi) /\ readInt16LE lo hi = value) /\
  (value < -32768 \/ 32767 < value -> writeInt16LE value = None).
Proof.
  split.
  - intros Hv. rewrite writeInt16LE_in_range by exact Hv.
    eexists _, _. split; [reflexivity |].
    apply readInt16LE_written. exact Hv.
  - intros Hout. unfold writeInt16LE.
    destruct (Z.leb_spec (-32768) value); destruct (Z.leb_spec value 32767);
      cbn [andb]; try reflexivity; lia.
Qed.

Lemma int16_write_read_witness :
  (-32768 <= -32256 <= 32767 /\
   exists lo hi : byte,
     writeInt16LE (-32256) = Some (lo, hi) /\ readInt16LE lo hi = -32256) /\
  (32767 < 40000 /\ writeInt16LE 40000 = None).
Proof.
  split.
  - split; [lia |]. apply (int16_write_read (-32256)). lia.
  - split; [lia |]. apply (int16_write_read 40000). right. lia.
Defined.

(** X1: [convertWavToMulaw] yields one byte for every complete 16-bit
    sample: the output has half the input's length, rounded down, and a
    trailing odd byte changes nothing. *)
Theorem convertWavToMulaw_length (wavData : Buffer) :
  length (convertWavToMulaw wavData) = (length wavData / 2)%nat /\
  (Nat.even (length wavData) = true ->
   forall extra : byte,
     convertWavToMulaw (wavData ++ [extra]) = convertWavToMulaw wavData).
Proof.
  assert (Hboth : forall (n : nat) (wav : Buffer),
             (length wav <= n)%nat ->
             length (convertWavToMulaw wav) = (length wav / 2)%nat /\
             (Nat.even (length wav) = true ->
              forall extra : byte,
                convertWavToMulaw (wav ++ [extra]) = convertWavToMulaw wav)).
  { induction n as [| n IH]; intros wav Hn.
    - destruct wav; [| cbn in Hn; lia]. split; [reflexivity |].
      intros _ extra. reflexivity.
    - destruct wav as [| lo [| hi rest]].
      + split; [reflexivity |]. intros _ extra. reflexivity.
      + split; [reflexivity |]. intros Heven. discriminate Heven.
      + destruct (IH rest ltac:(cbn in Hn; lia)) as [Hlen Hodd].
        split.
        * cbn [convertWavToMulaw length]. rewrite Hlen.
          change (S (S (length rest))) with (2 + length rest)%nat.
          replace (2 + length rest)%nat with (length rest + 1 * 2)%nat by lia.
          rewrite Nat.div_add by lia. lia.
        * intros Heven extra. cbn [app convertWavToMulaw].
          rewrite Hodd; [reflexivity |]. exact Heven. }
  apply (Hboth (length wavData)). lia.
Qed.

Lemma convertWavToMulaw_length_witness :
  Nat.even (length [x10; x00; xf0; xff]) = true /\
  length (convertWavToMulaw [x10; x00; xf0; xff]) = 2%nat /\
  convertWavToMulaw ([x10; x00; xf0; xff] ++ [x7f])
  = convertWavToMulaw [x10; x00; xf0; xff].
Proof.
  split; [reflexivity |].
  destruct (convertWavToMulaw_length [x10; x00; xf0; xff]) as [Hlen Hodd].
  split; [exact Hlen |]. apply Hodd. reflexivity.
Defined.

(** X2: the two buffer converters compose sample by sample: the PCM buffer
    made from a frame has two bytes per sample, and turning it back yields,
    for each byte of the frame, the stored encoding of its decoding; the
    frame's length is kept. *)
Theorem wav_of_frame_back_to_mulaw (frame : Buffer) :
  exists wav : Buffer,
    convertMulawToWav frame = Some wav /\
    convertWavToMulaw wav =
      map (fun b => byte_of_Z (linearToMulaw (mulawToLinear (byte_to_Z b))))
          frame /\
    length (convertWavToMulaw wav) = length frame.
Proof.
  induction frame as [| b rest (wav & Hwav & Hback & Hlen)].
  - exists []. repeat split.
  - pose proof (mulawToLinear_range _ (byte_to_Z_range b)) as Hr.
    exists (byte_of_Z (mulawToLinear (byte_to_Z b))
            :: byte_of_Z (Z.shiftr (mulawToLinear (byte_to_Z b)) 8) :: wav).
    cbn [convertMulawToWav].
    rewrite writeInt16LE_in_range by lia. rewrite Hwav.
    split; [reflexivity |].
    cbn [convertWavToMulaw map length].
    rewrite readInt16LE_written by lia. rewrite Hback.
    split; [reflexivity |]. rewrite length_map. reflexivity.
Qed.

(** X3: on the 128 magnitudes the decoder is strictly increasing, starting
    from 0, and setting the sign bit negates the sample. *)
Theorem mulawToLinear_symmetric_increasing (a b : Z) :
  0 <= a < b -> b <= 127 ->
  mulawToLinear 0 = 0 /\
  mulawToLinear a < mulawToLinear b /\
  mulawToLinear (a + 0x80) = - mulawToLinear a /\
  mulawToLinear (b + 0x80) = - mulawToLinear b.
Proof.
  intros Hab Hb.
  pose proof (forallb_Z_range
    (fun x => forallb (fun y => (y <=? x) || (mulawToLinear x <? mulawToLinear y))
                      (map Z.of_nat (seq 0 128))) 128
    ltac:(vm_compute; reflexivity) a ltac:(lia)) as Hinc.
  cbv beta in Hinc.
  pose proof (forallb_Z_range
    (fun y => (y <=? a) || (mulawToLinear a <? mulawToLinear y)) 128
    Hinc b ltac:(lia)) as Hlt.
  cbv beta in Hlt.
  pose proof (forallb_Z_range
    (fun x => mulawToLinear (x + 0x80) =? - mulawToLinear x) 128
    ltac:(vm_compute; reflexivity)) as Hneg.
  cbv beta in Hneg.
  split; [reflexivity |]. split.
  - apply orb_prop in Hlt as [Hle | Hlt].
    + apply Z.leb_le in Hle. lia.
    + apply Z.ltb_lt. exact Hlt.
  - split; apply Z.eqb_eq; apply Hneg; lia.
Qed.

Lemma mulawToLinear_symmetric_increasing_witness :
  (0 <= 15 < 16 /\ 16 <= 127) /\
  mulawToLinear 0 = 0 /\
  mulawToLinear 15 < mulawToLinear 16 /\
  mulawToLinear (15 + 0x80) = - mulawToLinear 15 /\
  mulawToLinear (16 + 0x80) = - mulawToLinear 16.
Proof.
  split; [lia |].
  apply (mulawToLinear_symmetric_increasing 15 16); lia.
Defined.

(** X4: the encoder treats the sign apart from the magnitude: a negative
    sample is encoded like its absolute value with the sign bit set in the
    packed value, that is 128 less in what is returned and in the byte
    stored. *)
Theorem linearToMulaw_sign (linear : Z) :
  1 <= linear <= 32768 ->
  packed (- linear) = packed linear + 0x80 /\
  linearToMulaw (- linear) = linearToMulaw linear - 0x80 /\
  ToUint8 (linearToMulaw (- linear)) = ToUint8 (linearToMulaw linear) - 0x80.
Proof.
  intros Hlin.
  pose proof (encoder_exponent (Z.abs linear + 0x84)) as He. cbn zeta in He.
  destruct He as (Hrange & _ & _).
  assert (Hm : 0 <= ((Z.abs linear + 0x84)
                     / 2 ^ (exponent_loop 8 0 (Z.abs linear + 0x84) 7 + 3))
                    mod 16 < 16)
    by (apply Z.mod_pos_bound; lia).
  assert (Hpos : packed linear =
                 0 + 16 * exponent_loop 8 0 (Z.abs linear + 0x84) 7 +
                 ((Z.abs linear + 0x84)
                  / 2 ^ (exponent_loop 8 0 (Z.abs linear + 0x84) 7 + 3)) mod 16).
  { unfold packed, bias.
    destruct (Z.ltb_spec linear 0); [lia |].
    rewrite mantissa_value by lia.
    apply pack_fields; [left; reflexivity | lia | lia]. }
  assert (Hneg : packed (- linear) =
                 0x80 + 16 * exponent_loop 8 0 (Z.abs linear + 0x84) 7 +
                 ((Z.abs linear + 0x84)
                  / 2 ^ (exponent_loop 8 0 (Z.abs linear + 0x84) 7 + 3)) mod 16).
  { unfold packed, bias. rewrite Z.abs_opp.
    destruct (Z.ltb_spec (- linear) 0); [| lia].
    rewrite mantissa_value by lia.
    apply pack_fields; [right; reflexivity | lia | lia]. }
  assert (Hp : packed (- linear) = packed linear + 0x80) by lia.
  split; [exact Hp |].
  unfold linearToMulaw. rewrite Hp.
  rewrite !bnot_small by lia.
  split; [lia |].
  unfold ToUint8.
  replace (- (packed linear + 0x80) - 1)
    with (127 - packed linear + (-1) * 256) by lia.
  replace (- packed linear - 1) with (255 - packed linear + (-1) * 256) by lia.
  rewrite !Z.mod_add by lia.
  rewrite !Z.mod_small by lia. lia.
Qed.

Lemma linearToMulaw_sign_witness :
  1 <= 1000 <= 32768 /\
  packed (- 1000) = packed 1000 + 0x80 /\
  linearToMulaw (- 1000) = linearToMulaw 1000 - 0x80 /\
  ToUint8 (linearToMulaw (- 1000)) = ToUint8 (linearToMulaw 1000) - 0x80.
Proof.
  split; [lia |]. apply (linearToMulaw_sign 1000). lia.
Defined.

End CodecMore.

(* ===================================================================== *)
(** * Further properties of the accumulator *)
(* ===================================================================== *)
Section AccumulatorMore.

(** X5: however the audio is split into calls, every frame handed to the
    pipeline has exactly [chunkSize] bytes, the frames followed by the
    bytes left waiting are the bytes that were waiting followed by the
    bytes received (nothing lost, duplicated or reordered), and no call
    hands over more than one frame. *)
Theorem framing_any_split (chunks : list Buffer) (key : string)
    (buffers : gmap string Buffer) :
  let result := feed chunks key buffers in
  Forall (fun frame => length frame = chunkSize) result.2 /\
  concat result.2 ++ pending key result.1 = pending key buffers ++ concat chunks /\
  length result.2 <= length chunks /\
  chunkSize * length result.2 + length (pending key result.1)
  = length (pending key buffers) + length (concat chunks).
Proof.
  cbn zeta.
  pose proof (feed_frame_lengths chunks key buffers) as Hlens.
  pose proof (feed_conserves chunks key buffers) as Hcons.
  split; [exact Hlens |]. split; [exact Hcons |].
  split; [apply feed_frames_le_calls |].
  rewrite <- (length_concat_uniform chunkSize _ Hlens).
  rewrite <- !length_app, Hcons. reflexivity.
Qed.

Lemma feed_app (first rest : list Buffer) (key : string)
    (buffers : gmap string Buffer) :
  feed (first ++ rest) key buffers =
  ((feed rest key (feed first key buffers).1).1,
   (feed first key buffers).2 ++ (feed rest key (feed first key buffers).1).2).
Proof.
  revert buffers. induction first as [| audioData first IH]; intros buffers.
  - cbn [app feed fst snd]. destruct (feed rest key buffers); reflexivity.
  - cbn [app]. rewrite !feed_cons, IH. cbn [fst snd].
    rewrite app_assoc. reflexivity.
Qed.

(** X6: when the accumulator starts empty and no call brings more than
    [chunkSize] bytes, then after every call fewer than [chunkSize] bytes
    wait, and the frames handed over so far are [L / chunkSize] with
    [L mod chunkSize] bytes waiting, [L] being the bytes received so far. *)
Theorem framing_small_chunks (chunks : list Buffer) (key : string)
    (buffers : gmap string Buffer) (n : nat) :
  pending key buffers = [] ->
  Forall (fun audioData => length audioData <= chunkSize) chunks ->
  let sofar := take n chunks in
  let L := length (concat sofar) in
  length (pending key (feed sofar key buffers).1) < chunkSize /\
  length (feed sofar key buffers).2 = L / chunkSize /\
  length (pending key (feed sofar key buffers).1) = L mod chunkSize /\
  (feed sofar key buffers).2 = take (L / chunkSize) (feed chunks key buffers).2.
Proof.
  intros Hempty Hsmall. cbn zeta.
  assert (Hsofar : Forall (fun audioData => length audioData <= chunkSize)
                          (take n chunks)) by (apply Forall_take; exact Hsmall).
  destruct (feed_small_chunks (take n chunks) key buffers Hempty Hsofar)
    as [Hframes Hpending].
  split.
  { rewrite Hpending. apply Nat.mod_upper_bound. unfold chunkSize. lia. }
  split; [exact Hframes |]. split; [exact Hpending |].
  replace (feed chunks key buffers)
    with (feed (take n chunks ++ drop n chunks) key buffers)
    by (rewrite take_drop; reflexivity).
  rewrite feed_app. cbn [snd].
  rewrite <- Hframes, take_app_length. reflexivity.
Qed.

Lemma framing_small_chunks_witness :
  let chunks : list Buffer := [repeat x00 1000; repeat x01 1000; repeat x02 1000] in
  (pending "s-phone" (∅ : gmap string Buffer) = [] /\
   Forall (fun audioData : Buffer => length audioData <= chunkSize) chunks) /\
  length (pending "s-phone" (feed (take 2 chunks) "s-phone" ∅).1) < chunkSize /\
  length (feed (take 2 chunks) "s-phone" ∅).2
  = length (concat (take 2 chunks)) / chunkSize.
Proof.
  cbn zeta.
  assert (Hsmall : Forall (fun audioData : Buffer => length audioData <= chunkSize)
                     [repeat x00 1000; repeat x01 1000; repeat x02 1000]).
  { repeat constructor; rewrite repeat_length; unfold chunkSize; lia. }
  assert (Hempty : pending "s-phone" (∅ : gmap string Buffer) = [])
    by reflexivity.
  split; [split; [exact Hempty | exact Hsmall] |].
  destruct (framing_small_chunks
              [repeat x00 1000; repeat x01 1000; repeat x02 1000]
              "s-phone" ∅ 2 Hempty Hsmall) as (Hlt & Hcount & _).
  split; [exact Hlt | exact Hcount].
Defined.

Lemma bufferAudio_lookup_other (audioData : Buffer) (key other : string)
    (buffers : gmap string Buffer) :
  other <> key ->
  (bufferAudio audioData key buffers).1 !! other = buffers !! other.
Proof.
  intros Hne. unfold bufferAudio.
  destruct (decide (is_Some (buffers !! key)));
    destruct (chunkSize <=? _)%nat; cbn [fst];
    repeat rewrite lookup_insert_ne by congruence; reflexivity.
Qed.

(** X7: audio received for one key leaves the buffer of every other key as
    it was; in particular the two legs of one session never share or
    disturb each other's pending bytes. *)
Theorem framing_keys_independent (chunks : list Buffer) (key other : string)
    (buffers : gmap string Buffer) (id : string) :
  (other <> key -> (feed chunks key buffers).1 !! other = buffers !! other) /\
  (feed chunks (streamKey id "phone") buffers).1 !! streamKey id "web"
  = buffers !! streamKey id "web" /\
  (feed chunks (streamKey id "web") buffers).1 !! streamKey id "phone"
  = buffers !! streamKey id "phone".
Proof.
  assert (Hgen : forall key other, other <> key ->
            forall chunks buffers,
              (feed chunks key buffers).1 !! other = buffers !! other).
  { clear. intros key other Hne chunks.
    induction chunks as [| audioData rest IH]; intros buffers.
    - reflexivity.
    - rewrite feed_cons. cbn [fst]. rewrite IH.
      apply bufferAudio_lookup_other. exact Hne. }
  split; [intros Hne; apply Hgen; exact Hne |].
  split; apply Hgen; intros Heq;
    apply (streamKey_injective id id) in Heq as [_ Heq];
    try reflexivity; discriminate Heq.
Qed.

Lemma framing_keys_independent_witness :
  "s-web" <> "s-phone" /\
  (feed [repeat x00 2000] "s-phone"
        (<["s-web" := [x01; x02]]> (∅ : gmap string Buffer))).1 !! "s-web"
  = (<["s-web" := [x01; x02]]> (∅ : gmap string Buffer)) !! "s-web".
Proof.
  assert (Hne : "s-web" <> "s-phone") by discriminate.
  split; [exact Hne |].
  destruct (framing_keys_independent [repeat x00 2000] "s-phone" "s-web"
              (<["s-web" := [x01; x02]]> (∅ : gmap string Buffer)) "s")
    as [Hother _].
  apply Hother. exact Hne.
Defined.

End AccumulatorMore.

(* ===================================================================== *)
(** * Further properties of the pipeline and of delivery *)
(* ===================================================================== *)
Section PipelineMore.
Context {World : Type} (services : Services World).
Import Codec.

(** X8: a delivery that finds no stream registered for the target, or finds
    one whose socket is not open, returns normally and does nothing: no
    write, no change of any table. *)
Theorem delivery_without_destination (audioData : Buffer) (target : string)
    (session : Session) (st : Server World) :
  activeStreams st !! streamKey (sessionId session) target = None \/
  (exists stream,
     activeStreams st !! streamKey (sessionId session) target = Some stream /\
     readyState services (h_ws stream) (world st) <> 1%Z) ->
  sendAudioToParticipant services audioData target session st = (Ok tt, st).
Proof.
  intros Hcase. rewrite sendAudioToParticipant_run.
  destruct Hcase as [Hnone | (stream & Hsome & Hclosed)].
  - rewrite Hnone. reflexivity.
  - rewrite Hsome. apply Z.eqb_neq in Hclosed. rewrite Hclosed. reflexivity.
Qed.

(** X9: when the languages differ and the transcription fails, or hears
    nothing, or hears nothing but white space (what [trim] removes: spaces,
    tabs, line ends and the other white space of Unicode), the frame ends
    there: the pipeline returns normally after its one call to the
    transcription service, made in the language of the frame's own leg;
    nothing is translated, synthesized or written. *)
Theorem silent_frame_stops_after_transcription (audioData wav : Buffer)
    (sourceParticipant : option string) (session : Session) (st : Server World)
    (heard : option string) (w1 : World) :
  let fromPhone := bool_decide (sourceParticipant = Some "phone") in
  let source :=
    if fromPhone then phone (languages session) else web (languages session) in
  let target :=
    if fromPhone then web (languages session) else phone (languages session) in
  source <> target ->
  convertMulawToWav audioData = Some wav ->
  transcriptions_create services wav source (world st) = (heard, w1) ->
  (heard = None \/ exists text, heard = Some text /\ Str.trim text = "") ->
  translateAndForwardAudio services audioData sourceParticipant session st =
  (Ok tt, with_world w1 (with_trace (trace st ++ [Transcribe wav source]) st)).
Proof.
  cbn zeta.
  change (if bool_decide (sourceParticipant = Some "phone")
          then phone (languages session) else web (languages session))
    with (sourceLanguage sourceParticipant session).
  change (if bool_decide (sourceParticipant = Some "phone")
          then web (languages session) else phone (languages session))
    with (targetLanguage sourceParticipant session).
  intros Hlang Hwav Htr Hheard.
  unfold translateAndForwardAudio.
  apply String.eqb_neq in Hlang. rewrite Hlang, Hwav.
  unfold try_catch.
  rewrite (bind_ok _ _ st st wav) by reflexivity.
  rewrite (bind_ok _ _ st
             (with_world w1
                (with_trace
                   (trace st ++
                    [Transcribe wav (sourceLanguage sourceParticipant session)])
                   st)) heard)
    by (rewrite transcribeAudio_run, Htr; reflexivity).
  destruct Hheard as [-> | (text & -> & Hblank)]; [reflexivity |].
  rewrite Hblank. reflexivity.
Qed.

(** X10: when every service answers, one frame makes exactly three service
    calls and one write, in this order: the decoded frame is transcribed in
    the language of its own leg, the transcript is translated into the
    language of the other leg, the trimmed translation is synthesized, and
    the encoded audio goes to the socket registered for the other leg
    ([web] for a frame from [phone], [phone] for a frame from anyone else),
    in a [media] message whose stream id is built from the session id and
    that leg. *)
Theorem frame_translated_and_delivered (audioData wav audio : Buffer)
    (sourceParticipant : option string) (session : Session) (st : Server World)
    (text content : string) (w1 w2 w3 : World) (stream : StreamHandle) :
  let fromPhone := bool_decide (sourceParticipant = Some "phone") in
  let source :=
    if fromPhone then phone (languages session) else web (languages session) in
  let target :=
    if fromPhone then web (languages session) else phone (languages session) in
  let other := if fromPhone then "web" else "phone" in
  source <> target ->
  convertMulawToWav audioData = Some wav ->
  transcriptions_create services wav source (world st) = (Some text, w1) ->
  Str.trim text <> "" ->
  chat_completions_create services text source target w1 = (Some content, w2) ->
  speech_create services (Str.trim content) w2 = (Some audio, w3) ->
  activeStreams st !! streamKey (sessionId session) other = Some stream ->
  readyState services (h_ws stream) w3 = 1%Z ->
  translateAndForwardAudio services audioData sourceParticipant session st =
  (Ok tt,
   with_trace
     (trace st ++
      [Transcribe wav source; Translate text source target;
       Synthesize (Str.trim content) target;
       WsSend (h_ws stream)
         (mkMediaMessage "media"
            ("stream-" +:+ sessionId session +:+ "-" +:+ other)
            (convertWavToMulaw audio))])
     (with_world w3 st)).
Proof.
  cbn zeta.
  change (if bool_decide (sourceParticipant = Some "phone")
          then phone (languages session) else web (languages session))
    with (sourceLanguage sourceParticipant session).
  change (if bool_decide (sourceParticipant = Some "phone")
          then web (languages session) else phone (languages session))
    with (targetLanguage sourceParticipant session).
  change (if bool_decide (sourceParticipant = Some "phone")
          then "web" else "phone")
    with (counterpart sourceParticipant).
  intros Hlang Hwav Htr Htext Hchat Hsynth Hstream Hopen.
  rewrite (pipeline_until_synthesis services audioData wav sourceParticipant
             session st text (Some content) w1 w2 Hlang Hwav Htr Htext Hchat).
  cbn [translation_of].
  rewrite synthesis_and_delivery. cbn zeta.
  cbn [world with_world with_trace trace].
  rewrite Hsynth. cbn [fst snd].
  rewrite sendAudioToParticipant_run.
  cbn [activeStreams with_world with_trace world trace].
  rewrite Hstream, Hopen.
  rewrite <- !app_assoc. reflexivity.
Qed.

(** X11: the listener of a media stream ignores what it cannot use: a
    message that does not parse, a message on a socket without listener, a
    [media] message without payload and a [start] message all leave the
    server as it was. *)
Theorem unusable_messages_ignored (ws : socket) (message : option StreamMessage)
    (st : Server World) :
  message = None \/ connections st !! ws = None \/
  (exists msg, message = Some msg /\
     (in_event msg = "start" \/ (in_event msg = "media" /\ in_media msg = None))) ->
  on_message services ws message st = st.
Proof.
  intros Hcase. unfold on_message.
  destruct (connections st !! ws) as [c |] eqn:Hc; [| reflexivity].
  destruct Hcase as [-> | [Hnone | (msg & -> & Hevent)]];
    [reflexivity | discriminate Hnone |].
  destruct Hevent as [Hstart | [Hmedia Hpayload]].
  - rewrite Hstart. reflexivity.
  - rewrite Hmedia. cbn [String.eqb Ascii.eqb Bool.eqb].
    unfold processAudioForTranslation, try_catch.
    rewrite Hpayload. reflexivity.
Qed.

End PipelineMore.

Lemma delivery_without_destination_witness :
  activeStreams Fixture.connected !! streamKey (sessionId Fixture.session) "fax"
  = None /\
  sendAudioToParticipant Fixture.services [x00] "fax" Fixture.session
    Fixture.connected = (Ok tt, Fixture.connected).
Proof.
  assert (Hnone : activeStreams Fixture.connected
                    !! streamKey (sessionId Fixture.session) "fax" = None)
    by (vm_compute; reflexivity).
  split; [exact Hnone |].
  apply (delivery_without_destination Fixture.services [x00] "fax"
           Fixture.session Fixture.connected).
  left. exact Hnone.
Defined.

Lemma unusable_messages_ignored_witness :
  in_media (mkStreamMessage "media" (Some "MZ01") None) = None /\
  on_message Fixture.services 2
    (Some (mkStreamMessage "media" (Some "MZ01") None)) Fixture.connected
  = Fixture.connected.
Proof.
  split; [reflexivity |].
  apply (unusable_messages_ignored Fixture.services 2
           (Some (mkStreamMessage "media" (Some "MZ01") None)) Fixture.connected).
  right. right. eexists. split; [reflexivity |]. right. split; reflexivity.
Defined.

(** A transcript of a space, a no-break space, an ideographic space and a
    line feed. *)
Lemma silent_frame_stops_after_transcription_witness :
  let wav : Buffer := [x00; x82; x00; x7e; x00; x00] in
  (String.length Studio.blank = 7%nat /\ Str.trim Studio.blank = "") /\
  translateAndForwardAudio Studio.services Fixture.frame (Some "phone")
    Fixture.session Fixture.connected =
  (Ok tt,
   with_world 0%nat
     (with_trace (trace Fixture.connected ++ [Transcribe wav "es"])
        Fixture.connected)).
Proof.
  cbn zeta.
  assert (Hblank : Str.trim Studio.blank = "") by (vm_compute; reflexivity).
  split; [split; [vm_compute; reflexivity | exact Hblank] |].
  apply (silent_frame_stops_after_transcription Studio.services Fixture.frame
           [x00; x82; x00; x7e; x00; x00] (Some "phone") Fixture.session
           Fixture.connected (Some Studio.blank) 0%nat).
  - vm_compute. discriminate.
  - vm_compute. reflexivity.
  - reflexivity.
  - right. exists Studio.blank. split; [reflexivity | exact Hblank].
Defined.

(** A frame from the phone reaches the browser's socket and a frame from
    the browser the phone's; what is spoken is the translation without the
    white space around it. *)
Lemma frame_translated_and_delivered_witness :
  let st := with_world 1%nat Fixture.connected in
  let wav : Buffer := [x00; x82; x00; x7e; x00; x00] in
  let mulaw := Codec.convertWavToMulaw [x10; x00; xf0; xff] in
  Str.trim Studio.padded = "hello" /\
  translateAndForwardAudio Studio.services Fixture.frame (Some "phone")
    Fixture.session st =
  (Ok tt,
   with_trace
     (trace st ++
      [Transcribe wav "es"; Translate "hola" "es" "en";
       Synthesize (Str.trim Studio.padded) "en";
       WsSend 1
         (mkMediaMessage "media"
            ("stream-" +:+ sessionId Fixture.session +:+ "-" +:+ "web")
            mulaw)])
     (with_world 1%nat st)) /\
  translateAndForwardAudio Studio.services Fixture.frame (Some "web")
    Fixture.session st =
  (Ok tt,
   with_trace
     (trace st ++
      [Transcribe wav "en"; Translate "hola" "en" "es";
       Synthesize (Str.trim Studio.padded) "es";
       WsSend 2
         (mkMediaMessage "media"
            ("stream-" +:+ sessionId Fixture.session +:+ "-" +:+ "phone")
            mulaw)])
     (with_world 1%nat st)).
Proof.
  cbn zeta.
  split; [vm_compute; reflexivity |].
  split.
  - apply (frame_translated_and_delivered Studio.services Fixture.frame
             [x00; x82; x00; x7e; x00; x00] [x10; x00; xf0; xff] (Some "phone")
             Fixture.session (with_world 1%nat Fixture.connected)
             "hola" Studio.padded 1%nat 1%nat 1%nat
             (mkStreamHandle 1 (Some "web") Fixture.id)).
    + vm_compute. discriminate.
    + vm_compute. reflexivity.
    + reflexivity.
    + vm_compute. discriminate.
    + reflexivity.
    + reflexivity.
    + vm_compute. reflexivity.
    + reflexivity.
  - apply (frame_translated_and_delivered Studio.services Fixture.frame
             [x00; x82; x00; x7e; x00; x00] [x10; x00; xf0; xff] (Some "web")
             Fixture.session (with_world 1%nat Fixture.connected)
             "hola" Studio.padded 1%nat 1%nat 1%nat
             (mkStreamHandle 2 (Some "phone") Fixture.id)).
    + vm_compute. discriminate.
    + vm_compute. reflexivity.
    + reflexivity.
    + vm_compute. discriminate.
    + reflexivity.
    + reflexivity.
    + vm_compute. reflexivity.
    + reflexivity.
Defined.

(* ===================================================================== *)
(** * Further properties of the stream table *)
(* ===================================================================== *)
Section StreamsMore.
Context {World : Type} (services : Services World).

Lemma handleMediaStream_registered (ws : socket) (id : string)
    (participant : option string) (r : ref) (st : Server World) :
  SessionMap.get id (activeSessions st) = Some r ->
  handleMediaStream ws (Some id) participant st =
  with_connections
    (<[ws := mkConnection r participant
               (streamKey id (Str.of_nullable participant)) None]>
       (connections st))
    (with_activeStreams
       (<[streamKey id (Str.of_nullable participant)
          := mkStreamHandle ws participant id]> (activeStreams st)) st).
Proof.
  intros Hget. unfold handleMediaStream. cbn [mbind option_bind].
  rewrite Hget. reflexivity.
Qed.

(** X12: a media-stream connection that names a registered session
    installs its handle under the key of the session id and participant,
    replacing whatever was there, leaves every other key, the sessions and
    the objects alone, and writes nothing; a connection that names no
    session or an unknown one is closed and registers nothing. *)
Theorem stream_registration (ws : socket) (sessionId participant : option string)
    (st : Server World) :
  (forall (id : string) (r : ref),
     sessionId = Some id ->
     SessionMap.get id (activeSessions st) = Some r ->
     let st' := handleMediaStream ws sessionId participant st in
     let key := streamKey id (Str.of_nullable participant) in
     activeStreams st' !! key = Some (mkStreamHandle ws participant id) /\
     (forall other, other <> key ->
        activeStreams st' !! other = activeStreams st !! other) /\
     connections st' !! ws = Some (mkConnection r participant key None) /\
     activeSessions st' = activeSessions st /\ heap st' = heap st /\
     trace st' = trace st) /\
  (sessionId = None \/
   (exists id, sessionId = Some id /\
               SessionMap.get id (activeSessions st) = None) ->
   handleMediaStream ws sessionId participant st
   = with_trace (trace st ++ [WsClose ws]) st).
Proof.
  split.
  - intros id r -> Hget. cbn zeta. unfold handleMediaStream.
    cbn [mbind option_bind]. rewrite Hget.
    change (Str.of_nullable (Some id)) with id.
    cbn [activeStreams connections activeSessions heap trace
         with_connections with_activeStreams].
    split; [apply lookup_insert_eq |].
    split; [intros other Hne; apply lookup_insert_ne; congruence |].
    split; [apply lookup_insert_eq |].
    repeat split.
  - intros [-> | (id & -> & Hnone)]; unfold handleMediaStream;
      cbn [mbind option_bind]; [| rewrite Hnone]; reflexivity.
Qed.

(** X13: a stream is unregistered by key, not by socket.  When a leg
    connects again and the earlier socket closes afterwards, the close
    removes the handle of the new socket: the key is then empty although
    the new socket's listener is still installed, and a delivery to that
    leg does nothing. *)
Theorem stale_close_unregisters_new_stream (ws1 ws2 : socket) (id : string)
    (participant : option string) (r : ref) (session : Session)
    (audioData : Buffer) (st : Server World) :
  ws1 <> ws2 ->
  SessionMap.get id (activeSessions st) = Some r ->
  sessionId session = id ->
  let key := streamKey id (Str.of_nullable participant) in
  let st2 :=
    handleMediaStream ws2 (Some id) participant
      (handleMediaStream ws1 (Some id) participant st) in
  let st3 := on_close ws1 st2 in
  activeStreams st2 !! key = Some (mkStreamHandle ws2 participant id) /\
  activeStreams st3 !! key = None /\
  connections st3 !! ws2 = Some (mkConnection r participant key None) /\
  sendAudioToParticipant services audioData (Str.of_nullable participant)
    session st3 = (Ok tt, st3).
Proof.
  intros Hws Hget Hid. cbn zeta.
  set (key := streamKey id (Str.of_nullable participant)).
  rewrite (handleMediaStream_registered ws1 id participant r st Hget).
  fold key.
  set (st1 := with_connections _ (with_activeStreams _ st)).
  rewrite (handleMediaStream_registered ws2 id participant r st1 Hget).
  fold key.
  set (st2 := with_connections _ (with_activeStreams _ st1)).
  assert (Hc1 : connections st2 !! ws1
                = Some (mkConnection r participant key None)).
  { unfold st2, st1.
    cbn [connections with_connections with_activeStreams].
    rewrite lookup_insert_ne by congruence. apply lookup_insert_eq. }
  assert (Hs2 : activeStreams st2 !! key
                = Some (mkStreamHandle ws2 participant id)).
  { unfold st2. cbn [activeStreams with_connections with_activeStreams].
    apply lookup_insert_eq. }
  assert (Hclose : on_close ws1 st2
                   = with_activeStreams (delete key (activeStreams st2)) st2)
    by (unfold on_close; rewrite Hc1; reflexivity).
  rewrite Hclose.
  assert (Hs3 : activeStreams
                  (with_activeStreams (delete key (activeStreams st2)) st2)
                  !! key = None).
  { cbn [activeStreams with_activeStreams]. apply lookup_delete_eq. }
  split; [exact Hs2 |]. split; [exact Hs3 |]. split.
  - unfold st2. cbn [connections with_connections with_activeStreams].
    apply lookup_insert_eq.
  - rewrite sendAudioToParticipant_run, Hid.
    fold key. rewrite Hs3. reflexivity.
Qed.

(** X14: the end of a stream, by [stop] message or by close, removes the
    handle under the listener's key and nothing else; doing it again, or a
    close after a [stop], changes nothing more. *)
Theorem stream_unregistration (ws : socket) (c : Connection)
    (msg : StreamMessage) (st : Server World) :
  connections st !! ws = Some c ->
  in_event msg = "stop" ->
  activeStreams (on_close ws st) !! c_streamKey c = None /\
  (forall other, other <> c_streamKey c ->
     activeStreams (on_close ws st) !! other = activeStreams st !! other) /\
  on_message services ws (Some msg) st = on_close ws st /\
  on_close ws (on_close ws st) = on_close ws st.
Proof.
  intros Hc Hstop.
  assert (Hclose : on_close ws st
                   = with_activeStreams (delete (c_streamKey c) (activeStreams st)) st)
    by (unfold on_close; rewrite Hc; reflexivity).
  rewrite Hclose.
  cbn [activeStreams with_activeStreams].
  split; [apply lookup_delete_eq |].
  split; [intros other Hne; apply lookup_delete_ne; congruence |].
  split.
  - unfold on_message. rewrite Hc, Hstop. reflexivity.
  - unfold on_close. cbn [connections with_activeStreams]. rewrite Hc.
    cbn [activeStreams with_activeStreams].
    rewrite delete_delete_eq. reflexivity.
Qed.

End StreamsMore.

Lemma stream_registration_witness :
  SessionMap.get Fixture.id (activeSessions Fixture.connected) = Some 0 /\
  activeStreams (handleMediaStream 7 (Some Fixture.id) (Some "web")
                   Fixture.connected) !! streamKey Fixture.id "web"
  = Some (mkStreamHandle 7 (Some "web") Fixture.id) /\
  handleMediaStream 7 None (Some "web") Fixture.connected
  = with_trace (trace Fixture.connected ++ [WsClose 7]) Fixture.connected.
Proof.
  assert (Hget : SessionMap.get Fixture.id (activeSessions Fixture.connected)
                 = Some 0) by (vm_compute; reflexivity).
  destruct (stream_registration 7 (Some Fixture.id) (Some "web")
              Fixture.connected) as [Hknown _].
  destruct (stream_registration 7 None (Some "web") Fixture.connected)
    as [_ Hunknown].
  split; [exact Hget |]. split.
  - apply (Hknown Fixture.id 0 eq_refl Hget).
  - apply Hunknown. left. reflexivity.
Defined.

Lemma stale_close_unregisters_new_stream_witness :
  let st2 :=
    handleMediaStream 3 (Some Fixture.id) (Some "web")
      (handleMediaStream 1 (Some Fixture.id) (Some "web")
         (run Fixture.services 0 [CreateSession "+15550100" "es" "en"])) in
  1 <> 3 /\
  activeStreams st2 !! streamKey Fixture.id "web"
  = Some (mkStreamHandle 3 (Some "web") Fixture.id) /\
  activeStreams (on_close 1 st2) !! streamKey Fixture.id "web" = None.
Proof.
  cbn zeta.
  assert (Hne : 1 <> 3) by discriminate.
  split; [exact Hne |].
  destruct (stale_close_unregisters_new_stream Fixture.services 1 3 Fixture.id
              (Some "web") 0 Fixture.session [x00]
              (run Fixture.services 0 [CreateSession "+15550100" "es" "en"])
              Hne ltac:(vm_compute; reflexivity) eq_refl)
    as (Hnew & Hgone & _).
  split; [exact Hnew | exact Hgone].
Defined.

Lemma stream_unregistration_witness :
  let stop := mkStreamMessage "stop" (Some "MZ01") None in
  connections Fixture.connected !! 2
  = Some (mkConnection 0 (Some "phone") (streamKey Fixture.id "phone") None) /\
  activeStreams (on_close 2 Fixture.connected) !! streamKey Fixture.id "phone"
  = None /\
  on_message Fixture.services 2 (Some stop) Fixture.connected
  = on_close 2 Fixture.connected.
Proof.
  cbn zeta.
  assert (Hc : connections Fixture.connected !! 2
               = Some (mkConnection 0 (Some "phone")
                         (streamKey Fixture.id "phone") None))
    by (vm_compute; reflexivity).
  split; [exact Hc |].
  destruct (stream_unregistration Fixture.services 2 _
              (mkStreamMessage "stop" (Some "MZ01") None) Fixture.connected
              Hc eq_refl) as (Hgone & _ & Hstop & _).
  split; [exact Hgone | exact Hstop].
Defined.

(* ===================================================================== *)
(** * Further properties of the webhooks and the session table *)
(* ===================================================================== *)
Section WebhooksMore.
Context {World : Type}.
Local Open Scope Z_scope.

Lemma lookup_resolved (id : string) (r : ref) (s : Session) (st : Server World) :
  id <> "" ->
  SessionMap.get id (activeSessions st) = Some r ->
  heap st !! r = Some s ->
  resolves (Some id) st = true /\ lookup_session id st = Some (r, s).
Proof.
  intros Hid Hget Hs. split.
  - apply (resolves_registered id r); [exact Hid |]. split; [exact Hget | eauto].
  - unfold lookup_session. rewrite Hget. cbn [mbind option_bind].
    rewrite Hs. reflexivity.
Qed.

(** X15: a call-status notification for a registered session records the
    reported status and the time, and moves the session to
    [phone_answered] on [answered], to [call_ended] on [completed] or
    [failed], and nowhere on anything else ([initiated], [ringing], a
    missing status); languages, participants and buffers of the session,
    every other object, the session table and the timers stay as they
    were. *)
Theorem call_status_transition (req : Request) (id : string) (r : ref)
    (s : Session) (st : Server World) :
  query_session req = Some id -> id <> "" ->
  SessionMap.get id (activeSessions st) = Some r ->
  heap st !! r = Some s ->
  exists s' : Session,
    heap (call_status req st) !! r = Some s' /\
    (body_CallStatus req = Some "answered" -> status s' = phone_answered) /\
    (body_CallStatus req = Some "completed" \/ body_CallStatus req = Some "failed"
     -> status s' = call_ended) /\
    (body_CallStatus req <> Some "answered" ->
     body_CallStatus req <> Some "completed" ->
     body_CallStatus req <> Some "failed" -> status s' = status s) /\
    lastCallStatus s' = body_CallStatus req /\
    lastStatusUpdate s' = Some (clock st) /\
    (sessionId s' = sessionId s /\ languages s' = languages s /\
     participants s' = participants s /\ audioBuffers s' = audioBuffers s) /\
    (forall r', r' <> r -> heap (call_status req st) !! r' = heap st !! r') /\
    activeSessions (call_status req st) = activeSessions st /\
    timers (call_status req st) = timers st.
Proof.
  intros Hq Hid Hget Hs.
  destruct (lookup_resolved id r s st Hid Hget Hs) as [Hres Hlook].
  unfold call_status. rewrite Hq.
  change (default "" (Some id)) with id. rewrite Hres, Hlook.
  match goal with
  | |- context [update_session r ?f st] =>
      destruct (update_session_lookup r f s st Hs)
        as (Hr & Hothers & Hsessions & _ & Htimers);
      exists (f s)
  end.
  split; [exact Hr |].
  split; [intros ->; rewrite bool_decide_eq_true_2 by reflexivity; reflexivity |].
  split.
  { intros [-> | ->];
      rewrite bool_decide_eq_false_2 by discriminate;
      [rewrite (bool_decide_eq_true_2 (Some "completed" = Some "completed"))
         by reflexivity
      | rewrite (bool_decide_eq_true_2 (Some "failed" = Some "failed"))
         by reflexivity; rewrite orb_true_r];
      reflexivity. }
  split.
  { intros H1 H2 H3. rewrite !bool_decide_eq_false_2 by assumption.
    reflexivity. }
  repeat case_bool_decide; cbn [orb];
    (split; [reflexivity |]); (split; [reflexivity |]);
    (split; [repeat split |]); (split; [exact Hothers |]);
    (split; [exact Hsessions | exact Htimers]).
Qed.

(** X16: a status notification whose session id is missing, empty or not
    in the table changes nothing, for both webhooks. *)
Theorem unknown_session_is_no_op (req : Request) (st : Server World) :
  resolves (query_session req) st = false ->
  call_status req st = st /\ conference_status req st = st.
Proof.
  intros Hres. unfold call_status, conference_status.
  rewrite Hres. split; reflexivity.
Qed.

Lemma conference_status_resolved (req : Request) (id : string) (r : ref)
    (s : Session) (st : Server World) :
  query_session req = Some id -> id <> "" ->
  SessionMap.get id (activeSessions st) = Some r ->
  heap st !! r = Some s ->
  conference_status req st =
  let participantType := query_participant req in
  let event := body_StatusCallbackEvent req in
  if bool_decide (event = Some "participant-join") then
    if bool_decide (participantType = Some "web") then
      update_session r (set_status web_joined) st
    else if bool_decide (participantType = Some "phone") then
      update_session r (set_status phone_in_conference) st
    else st
  else if bool_decide (event = Some "participant-leave") then
    participant_leave r s (default "undefined" participantType) st
  else if bool_decide (event = Some "conference-start") then
    update_session r (set_status conference_active) st
  else if bool_decide (event = Some "conference-end") then
    with_timers (timers st ++ [mkTimer (clock st + cleanupDelay) id])
      (update_session r (set_status conference_ended) st)
  else st.
Proof.
  intros Hq Hid Hget Hs.
  destruct (lookup_resolved id r s st Hid Hget Hs) as [Hres Hlook].
  unfold conference_status. rewrite Hq.
  change (default "" (Some id)) with id. rewrite Hres, Hlook.
  reflexivity.
Qed.







(** X18: for a registered session, a conference event that is none of the
    four the handler knows, and a [participant-join] of a participant that
    is neither [web] nor [phone], change nothing. *)
Theorem unknown_conference_event_is_no_op (req : Request) (id : string)
    (r : ref) (s : Session) (st : Server World) :
  query_session req = Some id -> id <> "" ->
  SessionMap.get id (activeSessions st) = Some r ->
  heap st !! r = Some s ->
  (body_StatusCallbackEvent req <> Some "participant-join" /\
   body_StatusCallbackEvent req <> Some "participant-leave" /\
   body_StatusCallbackEvent req <> Some "conference-start" /\
   body_StatusCallbackEvent req <> Some "conference-end") \/
  (body_StatusCallbackEvent req = Some "participant-join" /\
   query_participant req <> Some "web" /\
   query_participant req <> Some "phone") ->
  conference_status req st = st.
Proof.
  intros Hq Hid Hget Hs Hcase.
  rewrite (conference_status_resolved req id r s st Hq Hid Hget Hs).
  cbn zeta.
  destruct Hcase as [(H1 & H2 & H3 & H4) | (Hjoin & Hw & Hp)].
  - rewrite !bool_decide_eq_false_2 by assumption. reflexivity.
  - rewrite Hjoin. rewrite bool_decide_eq_true_2 by reflexivity.
    rewrite !bool_decide_eq_false_2 by assumption. reflexivity.
Qed.

(** X19: what the clean-up removes.  When time passes, the timers that are
    due delete their sessions from the table and are dropped; a session
    with no timer due stays; and nothing else is touched: the session
    objects, the stream handles (also those of a deleted session) and the
    listeners remain. *)
Theorem cleanup_scope (now : Z) (id : string) (st : Server World) :
  let st' := advance now st in
  let t := Z.max (clock st) now in
  (heap st' = heap st /\ activeStreams st' = activeStreams st /\
   connections st' = connections st /\ trace st' = trace st) /\
  clock st' = t /\
  timers st' = List.filter (fun timer => negb (due timer <=? t)) (timers st) /\
  ((exists timer, In timer (timers st) /\ doomed timer = id /\ due timer <= t) ->
   SessionMap.get id (activeSessions st') = None) /\
  ((forall timer, In timer (timers st) -> doomed timer = id -> t < due timer) ->
   SessionMap.get id (activeSessions st') = SessionMap.get id (activeSessions st)).
Proof.
  cbn zeta.
  destruct (fire_all_fields
              (List.filter (fun timer => due timer <=? Z.max (clock st) now)
                           (timers st)) st)
    as (Hheap & _ & _ & Hstreams & Hconn & _ & Htrace).
  cbn zeta in Hheap, Hstreams, Hconn, Htrace.
  split.
  { unfold advance.
    cbn [heap clock timers activeStreams connections trace with_clock with_timers].
    auto. }
  split; [reflexivity |]. split; [reflexivity |].
  rewrite advance_sessions. split.
  - intros (timer & Hin & Hid & Hdue). apply fire_all_deletes.
    exists timer. split; [| exact Hid].
    apply List.filter_In. split; [exact Hin |]. apply Z.leb_le. exact Hdue.
  - intros Hlater. apply fire_all_keeps.
    apply List.Forall_forall. intros timer Hin Hid.
    apply List.filter_In in Hin. destruct Hin as [Hin Hdue].
    apply Z.leb_le in Hdue. specialize (Hlater timer Hin Hid). lia.
Qed.

Lemma find_first {A : Type} (f : A -> bool) (l : list A) (x : A) :
  List.find f l = Some x ->
  exists before after,
    l = before ++ x :: after /\ f x = true /\
    Forall (fun y => f y = false) before.
Proof.
  induction l as [| y rest IH]; cbn [List.find]; [discriminate |].
  destruct (f y) eqn:Hy.
  - intros [= ->]. exists [], rest. repeat split; [exact Hy | constructor].
  - intros Hfind. destruct (IH Hfind) as (before & after & -> & Hx & Hbefore).
    exists (y :: before), after. repeat split; [exact Hx |].
    constructor; assumption.
Qed.

(** X20: a browser call to [/voice] joins the first session of the table,
    in the order of creation, that is in status [phone_calling] or
    [phone_answered]: the reply connects a media stream for the [web] leg
    of that session and dials its conference, the session's status becomes
    [web_joining] and its [web] participant is recorded.  With no such
    session the reply is a spoken message and a hangup, and nothing
    changes. *)
Theorem web_call_joins_first_waiting_session (req : Request) (st : Server World) :
  (Forall (fun rs => joinable rs.2 = false) (session_objects st) ->
   handleWebCall req st =
   ([Say "No active translation session found. Please ask someone to start a phone session first.";
     Hangup], st)) /\
  (forall (r : ref) (s : Session),
     List.find (fun rs => joinable rs.2) (session_objects st) = Some (r, s) ->
     (exists before after,
        session_objects st = before ++ (r, s) :: after /\
        joinable s = true /\
        Forall (fun rs => joinable rs.2 = false) before) /\
     (handleWebCall req st).1 =
       [ConnectStream (streamUrl req (sessionId s) "web");
        DialConference (conferenceId s)
          (conferenceCallback req (sessionId s) "web")] /\
     exists s' : Session,
       heap (handleWebCall req st).2 !! r = Some s' /\
       status s' = web_joining /\
       participants s' !! "web"
       = Some (mkParticipant (body_CallSid req) (body_From req) None
                 (clock st) None) /\
       activeSessions (handleWebCall req st).2 = activeSessions st /\
       activeStreams (handleWebCall req st).2 = activeStreams st).
Proof.
  split.
  - intros Hnone. unfold handleWebCall.
    destruct (List.find _ (session_objects st)) as [[r s] |] eqn:E;
      [| reflexivity].
    apply List.find_some in E. destruct E as [Hin Hjoin].
    rewrite List.Forall_forall in Hnone. specialize (Hnone _ Hin).
    cbn [snd] in *. congruence.
  - intros r s Hfind.
    split; [apply (find_first (fun rs : ref * Session => joinable rs.2)); exact Hfind |].
    pose proof (List.find_some _ _ Hfind) as [Hin _].
    apply session_objects_lookup in Hin.
    unfold handleWebCall. rewrite Hfind. cbn [fst snd].
    split; [reflexivity |].
    match goal with
    | |- context [update_session r ?f st] =>
        destruct (update_session_lookup r f s st Hin)
          as (Hr & _ & Hsessions & Hstreams & _);
        exists (f s)
    end.
    split; [exact Hr |]. split; [reflexivity |].
    cbn [participants set_participants set_status].
    split; [apply lookup_insert_eq |].
    split; [exact Hsessions | exact Hstreams].
Qed.

(** X21: an incoming call that names a registered session is answered with
    a media stream whose address carries that session id and the call's
    participant type (the [type] of the query, [phone] when it is missing
    or empty) and with a dial into the session's conference.  The call is
    recorded under that type with its call id, its two addresses and the
    time of the call, and no leave time: as a property of the session's
    [participants], or, when the type is [__proto__], as the prototype of
    [participants].  The entries under other names, the status and the
    other fields of the session, every other object, the tables, the timers
    and the trace stay as they were: no stream handle is registered by the
    call itself. *)
Theorem incoming_call_joins_named_session (req : Request) (id : string)
    (r : ref) (s : Session) (st : Server World) :
  query_session req = Some id -> id <> "" ->
  SessionMap.get id (activeSessions st) = Some r ->
  heap st !! r = Some s ->
  let who := participantType req in
  let call :=
    mkParticipant (body_CallSid req) (body_From req) (body_To req) (clock st)
                  None in
  let st' := (handleIncomingCall req st).2 in
  ((query_type req = None \/ query_type req = Some "" -> who = "phone") /\
   (forall type, query_type req = Some type -> type <> "" -> who = type)) /\
  (handleIncomingCall req st).1 =
    [ConnectStream
       ("wss://" +:+ host req +:+ "/media-stream?session=" +:+ id
        +:+ "&participant=" +:+ who);
     DialConference (conferenceId s)
       ("https://" +:+ host req +:+ "/conference-status?session=" +:+ id
        +:+ "&participant=" +:+ who)] /\
  (exists s' : Session,
     heap st' !! r = Some s' /\
     participants s' !! who = Some call /\
     (forall other, other <> who ->
        participants s' !! other = participants s !! other) /\
     (who <> "__proto__" ->
      participants_read who (participants s') = ParticipantObject call /\
      installed_prototype (participants s')
      = installed_prototype (participants s)) /\
     (who = "__proto__" -> installed_prototype (participants s') = Some call) /\
     (status s' = status s /\ sessionId s' = sessionId s /\
      conferenceId s' = conferenceId s /\ languages s' = languages s /\
      callSid s' = callSid s /\ audioBuffers s' = audioBuffers s)) /\
  (forall r', r' <> r -> heap st' !! r' = heap st !! r') /\
  activeSessions st' = activeSessions st /\
  activeStreams st' = activeStreams st /\
  timers st' = timers st /\ trace st' = trace st.
Proof.
  intros Hq Hid Hget Hs. cbn zeta.
  destruct (lookup_resolved id r s st Hid Hget Hs) as [Hres Hlook].
  assert (Hweb : web_client_without_session req = false).
  { unfold web_client_without_session. rewrite Hq.
    cbn [Str.truthy]. apply String.eqb_neq in Hid. rewrite Hid.
    cbn [negb]. rewrite andb_false_r. reflexivity. }
  split.
  { unfold participantType. split.
    - intros [-> | ->]; reflexivity.
    - intros type -> Htype. cbn [Str.truthy].
      apply String.eqb_neq in Htype. rewrite Htype. reflexivity. }
  unfold handleIncomingCall. rewrite Hweb, Hq.
  change (default "" (Some id)) with id. rewrite Hres, Hlook.
  cbn [negb fst snd].
  split; [reflexivity |].
  match goal with
  | |- context [update_session r ?f st] =>
      destruct (update_session_lookup r f s st Hs)
        as (Hr & Hothers & Hsessions & Hstreams & Htimers);
      split; [exists (f s) |]
  end.
  - split; [exact Hr |].
    cbn [participants set_participants]. unfold participant_of.
    split; [apply lookup_insert_eq |].
    split; [intros other Hne; apply lookup_insert_ne; congruence |].
    split.
    { intros Hproto. split.
      - unfold participants_read. rewrite lookup_insert_eq. reflexivity.
      - unfold installed_prototype. apply lookup_insert_ne. exact Hproto. }
    split.
    { intros Hproto. unfold installed_prototype. rewrite Hproto.
      apply lookup_insert_eq. }
    repeat split.
  - split; [exact Hothers |]. split; [exact Hsessions |].
    split; [exact Hstreams |]. split; [exact Htimers | reflexivity].
Qed.

Lemma get_set_eq (id : string) (r : ref) (m : SessionMap.t) :
  SessionMap.get id (SessionMap.set id r m) = Some r.
Proof.
  unfold SessionMap.get.
  induction m as [| [k v] rest IH]; cbn [SessionMap.set List.find fst].
  - rewrite String.eqb_refl. reflexivity.
  - destruct (String.eqb k id) eqn:E; cbn [List.find fst]; rewrite E;
      [reflexivity | exact IH].
Qed.

Lemma get_set_ne (id other : string) (r : ref) (m : SessionMap.t) :
  other <> id ->
  SessionMap.get other (SessionMap.set id r m) = SessionMap.get other m.
Proof.
  intros Hne. unfold SessionMap.get.
  induction m as [| [k v] rest IH]; cbn [SessionMap.set List.find fst].
  - destruct (String.eqb_spec id other); [congruence | reflexivity].
  - destruct (String.eqb_spec k id) as [-> | Hk]; cbn [List.find fst].
    + destruct (String.eqb_spec id other); [congruence | reflexivity].
    + destruct (String.eqb k other); [reflexivity | exact IH].
Qed.

End WebhooksMore.

Section CreateSessionFacts.
Context {World : Type} (services : Services World).


(** X23: an accepted request registers one new session object under the id
    drawn from [uuidv4], with the conference named after the id, the
    languages of the request, no participants and empty buffers, and
    leaves the sessions under other ids and all timers and streams as they
    were.  When the outgoing call is placed the session is in status
    [phone_calling] with the call's id; when placing it fails the reply is
    an error 500 and the session stays registered in status [created]. *)
Theorem create_session_registers (body : CreateBody) (call : option string)
    (number : string) (st : Server World) :
  b_phoneNumber body = Some number -> number <> "" ->
  language_accepted (default "es" (b_phoneLanguage body)) = true ->
  language_accepted (default "en" (b_webLanguage body)) = true ->
  let id := (uuidv4 services (world st)).1 in
  let r := length (heap st) in
  let st' := (post_create_session services body call st).2 in
  SessionMap.get id (activeSessions st') = Some r /\
  (forall other, other <> id ->
     SessionMap.get other (activeSessions st')
     = SessionMap.get other (activeSessions st)) /\
  (forall r', r' < r -> heap st' !! r' = heap st !! r') /\
  timers st' = timers st /\ activeStreams st' = activeStreams st /\
  heap st' !! r =
    Some (mkSession id ("translation-" +:+ id) number
            (mkLanguages (default "es" (b_phoneLanguage body))
                         (default "en" (b_webLanguage body)))
            (match call with Some _ => phone_calling | None => created end)
            (clock st)
            call None None ∅ ∅) /\
  (post_create_session services body call st).1 =
    match call with
    | Some sid => Created id sid
    | None => ServerError
    end.
Proof.
  intros Hnumber Hne Hpl Hwl. cbn zeta.
  assert (Htruthy : Str.truthy (b_phoneNumber body) = true).
  { rewrite Hnumber. cbn [Str.truthy]. apply negb_true_iff.
    apply String.eqb_neq. exact Hne. }
  unfold post_create_session. rewrite Htruthy, Hpl, Hwl. cbn [negb orb].
  rewrite Hnumber. change (default "" (Some number)) with number.
  set (pl := default "es" (b_phoneLanguage body)).
  set (wl := default "en" (b_webLanguage body)).
  assert (Hst1 : create_session services number pl wl st =
                 with_world (uuidv4 services (world st)).2
                   (with_activeSessions
                      (SessionMap.set (uuidv4 services (world st)).1
                         (length (heap st)) (activeSessions st))
                      (with_heap
                         (heap st ++
                          [mkSession (uuidv4 services (world st)).1
                             ("translation-" +:+ (uuidv4 services (world st)).1)
                             number (mkLanguages pl wl) created (clock st)
                             None None None ∅ ∅]) st))).
  { unfold create_session. destruct (uuidv4 services (world st)); reflexivity. }
  rewrite Hst1.
  set (id := (uuidv4 services (world st)).1).
  set (fresh := mkSession id ("translation-" +:+ id) number (mkLanguages pl wl)
                  created (clock st) None None None ∅ ∅).
  set (st1 := with_world _ (with_activeSessions _ (with_heap _ st))).
  assert (Hget1 : SessionMap.get id (activeSessions st1) = Some (length (heap st)))
    by apply get_set_eq.
  assert (Hother1 : forall other, other <> id ->
            SessionMap.get other (activeSessions st1)
            = SessionMap.get other (activeSessions st))
    by (intros other Ho; apply get_set_ne; exact Ho).
  assert (Hheap1 : heap st1 !! length (heap st) = Some fresh).
  { unfold st1. cbn [heap with_world with_activeSessions with_heap].
    rewrite lookup_app_r by lia. rewrite Nat.sub_diag. reflexivity. }
  assert (Hold1 : forall r', r' < length (heap st) -> heap st1 !! r' = heap st !! r').
  { intros r' Hlt. unfold st1.
    cbn [heap with_world with_activeSessions with_heap].
    apply lookup_app_l. exact Hlt. }
  destruct call as [sid |].
  - assert (Hhas : SessionMap.has id (activeSessions st1) = true)
      by (apply has_get; rewrite Hget1; eauto).
    rewrite Hhas. cbn [fst snd].
    unfold call_created. rewrite Hget1.
    match goal with
    | |- context [update_session _ ?f st1] =>
        destruct (update_session_lookup (length (heap st)) f fresh st1 Hheap1)
          as (Hr & Hothers & Hsessions & Hstreams & Htimers)
    end.
    rewrite Hsessions, Hstreams, Htimers.
    split; [exact Hget1 |]. split; [exact Hother1 |].
    split; [intros r' Hlt; rewrite Hothers by lia; apply Hold1; exact Hlt |].
    repeat split. exact Hr.
  - cbn [fst snd].
    split; [exact Hget1 |]. split; [exact Hother1 |].
    split; [exact Hold1 |]. repeat split. exact Hheap1.
Qed.

End CreateSessionFacts.

(** The hypotheses of the properties above, met on the fixture. *)
Lemma call_status_transition_witness :
  let req := callStatusEvent Fixture.id "completed" in
  (query_session req = Some Fixture.id /\ Fixture.id <> "") /\
  exists s' : Session,
    heap (call_status req Fixture.connected) !! 0 = Some s' /\
    status s' = call_ended /\
    lastCallStatus s' = Some "completed".
Proof.
  cbn zeta.
  assert (Hid : Fixture.id <> "") by discriminate.
  split; [split; [reflexivity | exact Hid] |].
  destruct (call_status_transition (callStatusEvent Fixture.id "completed")
              Fixture.id 0 Fixture.session Fixture.connected eq_refl Hid
              ltac:(vm_compute; reflexivity) ltac:(vm_compute; reflexivity))
    as (s' & Hs' & _ & Hended & _ & Hlast & _).
  exists s'. split; [exact Hs' |]. split; [| exact Hlast].
  apply Hended. left. reflexivity.
Defined.

Lemma unknown_session_is_no_op_witness :
  let req := conferenceEvent "no-such-session" (Some "web") "conference-end" in
  resolves (query_session req) Fixture.connected = false /\
  call_status req Fixture.connected = Fixture.connected /\
  conference_status req Fixture.connected = Fixture.connected.
Proof.
  cbn zeta.
  assert (Hres : resolves
                   (query_session
                      (conferenceEvent "no-such-session" (Some "web")
                         "conference-end")) Fixture.connected = false)
    by (vm_compute; reflexivity).
  split; [exact Hres |].
  apply (unknown_session_is_no_op
           (conferenceEvent "no-such-session" (Some "web") "conference-end")
           Fixture.connected Hres).
Defined.


Lemma unknown_conference_event_is_no_op_witness :
  let req := conferenceEvent Fixture.id (Some "fax") "participant-join" in
  (query_participant req <> Some "web" /\ query_participant req <> Some "phone") /\
  conference_status req Fixture.connected = Fixture.connected.
Proof.
  cbn zeta. split; [split; discriminate |].
  apply (unknown_conference_event_is_no_op
           (conferenceEvent Fixture.id (Some "fax") "participant-join")
           Fixture.id 0 Fixture.session Fixture.connected eq_refl
           ltac:(discriminate) ltac:(vm_compute; reflexivity)
           ltac:(vm_compute; reflexivity)).
  right. split; [reflexivity |]. split; discriminate.
Defined.

Lemma cleanup_scope_witness :
  let st := with_timers [mkTimer 60000 Fixture.id] Fixture.connected in
  (exists timer, In timer (timers st) /\ doomed timer = Fixture.id /\
                 (due timer <= Z.max (clock st) 60000)%Z) /\
  SessionMap.get Fixture.id (activeSessions (advance 60000 st)) = None /\
  activeStreams (advance 60000 st) = activeStreams st.
Proof.
  cbn zeta.
  assert (Hdue : exists timer,
            In timer (timers (with_timers [mkTimer 60000 Fixture.id]
                                Fixture.connected)) /\
            doomed timer = Fixture.id /\
            (due timer
             <= Z.max (clock (with_timers [mkTimer 60000 Fixture.id]
                                Fixture.connected)) 60000)%Z).
  { exists (mkTimer 60000 Fixture.id).
    split; [left; reflexivity |]. split; [reflexivity |].
    vm_compute. discriminate. }
  split; [exact Hdue |].
  destruct (cleanup_scope 60000 Fixture.id
              (with_timers [mkTimer 60000 Fixture.id] Fixture.connected))
    as ((_ & Hstreams & _) & _ & _ & Hgone & _).
  split; [apply Hgone; exact Hdue | exact Hstreams].
Defined.

Lemma web_call_joins_first_waiting_session_witness :
  let req :=
    mkRequest "relay.example" None None None (Some "client:alice") None
              (Some "CA02") None None in
  List.find (fun rs => joinable rs.2) (session_objects Fixture.connected)
  = Some (0, Fixture.session) /\
  (handleWebCall req Fixture.connected).1 =
    [ConnectStream (streamUrl req (sessionId Fixture.session) "web");
     DialConference (conferenceId Fixture.session)
       (conferenceCallback req (sessionId Fixture.session) "web")].
Proof.
  cbn zeta.
  assert (Hfind : List.find (fun rs => joinable rs.2)
                    (session_objects Fixture.connected)
                  = Some (0, Fixture.session)) by (vm_compute; reflexivity).
  split; [exact Hfind |].
  destruct (web_call_joins_first_waiting_session
              (mkRequest "relay.example" None None None (Some "client:alice")
                 None (Some "CA02") None None) Fixture.connected)
    as [_ Hjoin].
  destruct (Hjoin 0 Fixture.session Hfind) as (_ & Hverbs & _).
  exact Hverbs.
Defined.

(** The provider's webhook for the fixture's outgoing call; and the same
    call with [__proto__] for a type. *)
Lemma incoming_call_joins_named_session_witness :
  let st := with_clock 5000%Z Fixture.connected in
  let call :=
    mkParticipant (Some "CA01") (Some "+15550100") (Some "+15550123") 5000%Z
                  None in
  let proto :=
    mkRequest "relay.example" (Some Fixture.id) (Some "__proto__") None
              (Some "+15550100") (Some "+15550123") (Some "CA01") None None in
  (handleIncomingCall Lobby.incoming st).1 =
    [ConnectStream
       "wss://relay.example/media-stream?session=1b9d6bcd-bbfd-4b2d-9b5d-ab8dfbbd4bed&participant=phone";
     DialConference "translation-1b9d6bcd-bbfd-4b2d-9b5d-ab8dfbbd4bed"
       "https://relay.example/conference-status?session=1b9d6bcd-bbfd-4b2d-9b5d-ab8dfbbd4bed&participant=phone"] /\
  (exists s' : Session,
     heap (handleIncomingCall Lobby.incoming st).2 !! 0 = Some s' /\
     participants_read "phone" (participants s') = ParticipantObject call /\
     participants_read "callSid" (participants s') = Undefined) /\
  (exists s' : Session,
     heap (handleIncomingCall proto st).2 !! 0 = Some s' /\
     installed_prototype (participants s') = Some call /\
     participants_read "callSid" (participants s') = Text "CA01").
Proof.
  cbn zeta.
  assert (Hid : Fixture.id <> "") by discriminate.
  assert (Hget : SessionMap.get Fixture.id
                   (activeSessions (with_clock 5000%Z Fixture.connected))
                 = Some 0)
    by (vm_compute; reflexivity).
  assert (Hs : heap (with_clock 5000%Z Fixture.connected) !! 0
               = Some Fixture.session)
    by (vm_compute; reflexivity).
  destruct (incoming_call_joins_named_session Lobby.incoming
              Fixture.id 0 Fixture.session
              (with_clock 5000%Z Fixture.connected) eq_refl Hid Hget Hs)
    as (_ & Hverbs & (s1 & Hs1 & _ & Hrest1 & Hown & _) & _).
  destruct (incoming_call_joins_named_session
              (mkRequest "relay.example" (Some Fixture.id) (Some "__proto__")
                 None (Some "+15550100") (Some "+15550123") (Some "CA01")
                 None None)
              Fixture.id 0 Fixture.session
              (with_clock 5000%Z Fixture.connected) eq_refl Hid Hget Hs)
    as (_ & _ & (s2 & Hs2 & Hcall2 & Hrest2 & _ & Hinstalled & _) & _).
  split; [exact Hverbs |]. split.
  - exists s1. split; [exact Hs1 |].
    destruct Hown as [Hread Hproto]; [discriminate |].
    split; [exact Hread |].
    unfold participants_read.
    rewrite (Hrest1 "callSid") by discriminate.
    rewrite Hproto. reflexivity.
  - exists s2. split; [exact Hs2 |].
    split; [apply Hinstalled; reflexivity |].
    unfold participants_read, installed_prototype.
    rewrite (Hrest2 "callSid") by discriminate.
    change (participantType
              (mkRequest "relay.example" (Some Fixture.id) (Some "__proto__")
                 None (Some "+15550100") (Some "+15550123") (Some "CA01")
                 None None)) with "__proto__" in Hcall2.
    rewrite Hcall2. reflexivity.
Defined.


Lemma create_session_registers_witness :
  let body := mkCreateBody (Some "+15550100") None (Some "fr") in
  (language_accepted (default "es" (b_phoneLanguage body)) = true /\
   language_accepted (default "en" (b_webLanguage body)) = true) /\
  SessionMap.get Fixture.id
    (activeSessions (post_create_session Fixture.services body None (init 0)).2)
  = Some 0 /\
  (post_create_session Fixture.services body None (init 0)).1 = ServerError.
Proof.
  cbn zeta. split; [split; reflexivity |].
  destruct (create_session_registers Fixture.services
              (mkCreateBody (Some "+15550100") None (Some "fr")) None
              "+15550100" (init 0) eq_refl ltac:(discriminate) eq_refl eq_refl)
    as (Hget & _ & _ & _ & _ & _ & Hreply).
  split; [exact Hget | exact Hreply].
Defined.
